(** * The DFS backend of IOR (src/aiori-DFS.c): a shallow embedding

    The backend drives a remote DAOS file system on behalf of the
    cooperating MPI ranks of an IOR run.  The storage engine (the dfs
    and daos calls) and the MPI collectives are outside the file; they appear
    below as oracles whose answers the code inspects, and every call
    the code issues is logged so that statements about "which calls
    reach the engine" can be made about the log. *)

From Stdlib Require Import ZArith List String Ascii Bool Lia.
Import ListNotations.
Open Scope Z_scope.

(** ** Machine integers

    [daos_size_t] is [uint64_t]; [IOR_offset_t] is [long long]. *)

Definition to_u64 (x : Z) : Z := x mod 2 ^ 64.
Definition to_s64 (x : Z) : Z := (x + 2 ^ 63) mod 2 ^ 64 - 2 ^ 63.

Lemma to_u64_range x : 0 <= to_u64 x < 2 ^ 64.
Proof. unfold to_u64. apply Z.mod_pos_bound. lia. Qed.

Lemma to_u64_small x : 0 <= x < 2 ^ 64 -> to_u64 x = x.
Proof. intros H. unfold to_u64. now apply Z.mod_small. Qed.

Lemma to_s64_small x : - 2 ^ 63 <= x < 2 ^ 63 -> to_s64 x = x.
Proof. intros H. unfold to_s64. rewrite Z.mod_small; lia. Qed.

(** ** How a call of the backend can end *)

Inductive outcome : Type :=
| Returns (v : Z)               (* a [return] statement *)
| Exits (status : Z)            (* [exit(-1)], also through DCHECK *)
| Aborts (msg : string)         (* ERR(msg): message, then MPI_Abort *)
| AssertFails (cond : string)   (* a failed [assert] *)
| OutOfFuel.                    (* the model's loop bound was too small *)

Definition is_fatal (o : outcome) : bool :=
  match o with
  | Exits _ | Aborts _ | AssertFails _ => true
  | Returns _ | OutOfFuel => false
  end.

(** The part of [IOR_param_t] the backend reads. *)
Record IOR_param_t : Type := {
  offset : Z;              (* IOR_offset_t offset *)
  singleXferAttempt : Z;   (* int *)
  filePerProc : Z;         (* int *)
  mode : Z                 (* mode_t *)
}.

(** ** DFS_Xfer *)

(** One call issued to the storage engine by the transfer loop: the
    memory cursor and length put into the iov, the file offset, and
    what the engine answered. *)
Inductive call : Type :=
| Call_write (p len off rc : Z)
| Call_read (p len off rc ret : Z).

Definition call_ptr (c : call) : Z :=
  match c with Call_write p _ _ _ | Call_read p _ _ _ _ => p end.
Definition call_len (c : call) : Z :=
  match c with Call_write _ l _ _ | Call_read _ l _ _ _ => l end.
Definition call_off (c : call) : Z :=
  match c with Call_write _ _ o _ | Call_read _ _ o _ _ => o end.

(** The failed-write test of the source is [if (rc)]. *)
Definition write_failed (c : call) : bool :=
  match c with
  | Call_write _ _ _ rc => negb (rc =? 0)
  | Call_read _ _ _ _ _ => false
  end.

(** The byte count the loop books for an attempt: [ret].  A write that
    succeeded sets [ret = remaining]; a write that failed leaves the
    loop before anything is booked. *)
Definition moved (c : call) : Z :=
  match c with
  | Call_write _ len _ rc => if rc =? 0 then len else 0
  | Call_read _ _ _ _ ret => ret
  end.

Definition total_moved (cs : list call) : Z :=
  fold_right (fun c acc => moved c + acc) 0 cs.

Lemma total_moved_app cs ds :
  total_moved (cs ++ ds) = total_moved cs + total_moved ds.
Proof. induction cs as [|c cs IH]; simpl; lia. Qed.

(** [chain rem p off cs]: the calls [cs] are what a loop standing at
    [remaining = rem], [ptr = p] issues one after the other: each asks
    for the whole remainder at the cursor, at file offset [off], and
    the next one starts from what the previous one booked. *)
Fixpoint chain (rem p off : Z) (cs : list call) : Prop :=
  match cs with
  | [] => True
  | c :: cs' =>
      call_len c = rem /\ call_ptr c = p /\ call_off c = off /\
      chain (rem - moved c) (p + moved c) off cs'
  end.

(** [bounded rem cs]: no attempt books more than was remaining. *)
Fixpoint bounded (rem : Z) (cs : list call) : Prop :=
  match cs with
  | [] => True
  | c :: cs' => 0 <= moved c <= rem /\ bounded (rem - moved c) cs'
  end.

Section Transfer.

(** Constants of iordef.h, which is not part of the file. *)
Variables (WRITE TRUE MAX_RETRY : Z).

(** The storage engine: [dfs_write] answers [rc]; [dfs_read] answers
    [rc] and the value it leaves in [ret]. *)
Variable engine : Type.
Variable dfs_write : engine -> Z -> Z -> Z -> Z * engine.
Variable dfs_read : engine -> Z -> Z -> Z -> (Z * Z) * engine.

(** The locals of the loop, the parameter block it reads through
    [param], the engine and the log. *)
Record xstate : Type := {
  remaining : Z;        (* long long *)
  ptr : Z;              (* char *, as an address *)
  xferRetries : Z;      (* int *)
  par : IOR_param_t;    (* *param *)
  eng : engine;
  calls : list call
}.

Inductive step_result : Type :=
| Continue (s : xstate)
| Stop (o : outcome) (s : xstate).

Definition log (s : xstate) (e : engine) (c : call) : xstate :=
  {| remaining := remaining s; ptr := ptr s; xferRetries := xferRetries s;
     par := par s; eng := e; calls := calls s ++ [c] |}.

(** Lines 518-529: the tail of the loop body, once [ret] is known.
    [ret] is unsigned and [remaining] is a positive [long long]
    here, so the mixed comparisons compare the values, and
    [ret = remaining] in the write branch keeps the value. *)
Definition xfer_account (s : xstate) (ret : Z) : step_result :=
  if (ret <? remaining s) && (singleXferAttempt (par s) =? TRUE) then
    Stop (Exits (-1)) s
  else if (ret <? remaining s) && (xferRetries s >? MAX_RETRY) then
    Stop (Aborts "too many retries -- aborting") s
  else if negb (0 <=? ret) then
    Stop (AssertFails "ret >= 0") s
  else if negb (ret <=? remaining s) then
    Stop (AssertFails "ret <= remaining") s
  else
    Continue {| remaining := remaining s - ret;
                ptr := ptr s + ret;
                xferRetries := xferRetries s + 1;
                par := par s; eng := eng s; calls := calls s |}.

(** Lines 495-529: one iteration.  A read that reports an error or
    delivers nothing is answered with a line on stderr and nothing
    else. *)
Definition xfer_body (access : Z) (s : xstate) : step_result :=
  if access =? WRITE then
    let '(rc, e) := dfs_write (eng s) (ptr s) (remaining s) (offset (par s)) in
    let s1 := log s e (Call_write (ptr s) (remaining s) (offset (par s)) rc) in
    if negb (rc =? 0) then Stop (Returns (-1)) s1
    else xfer_account s1 (remaining s)
  else
    let '(rc, r, e) := dfs_read (eng s) (ptr s) (remaining s) (offset (par s)) in
    let ret := to_u64 r in
    let s1 := log s e (Call_read (ptr s) (remaining s) (offset (par s)) rc ret) in
    xfer_account s1 ret.

(** Lines 494-532: [while (remaining > 0) ...; return (length)]. *)
Fixpoint xfer_loop (fuel : nat) (access length : Z) (s : xstate)
  : outcome * xstate :=
  if remaining s >? 0 then
    match fuel with
    | O => (OutOfFuel, s)
    | S fuel' =>
        match xfer_body access s with
        | Continue s' => xfer_loop fuel' access length s'
        | Stop o s' => (o, s')
        end
    end
  else (Returns length, s).

(** An iteration that does not finish the request bumps
    [xferRetries], and none is entered with [xferRetries] above
    [MAX_RETRY + 1]: this many iterations always suffice. *)
Definition xfer_fuel : nat := S (Z.to_nat (MAX_RETRY + 1)).

Definition xfer_init (e : engine) (buffer length : Z) (param : IOR_param_t)
  : xstate :=
  {| remaining := length; ptr := buffer; xferRetries := 0;
     par := param; eng := e; calls := [] |}.

Definition DFS_Xfer (access : Z) (e : engine) (buffer length : Z)
           (param : IOR_param_t) : outcome * xstate :=
  xfer_loop xfer_fuel access length (xfer_init e buffer length param).

(** *** The loop body, case by case *)

Lemma xfer_account_continue s ret s' :
  xfer_account s ret = Continue s' ->
  0 <= ret <= remaining s /\
  remaining s' = remaining s - ret /\ ptr s' = ptr s + ret /\
  xferRetries s' = xferRetries s + 1 /\
  par s' = par s /\ eng s' = eng s /\ calls s' = calls s /\
  (ret < remaining s ->
   singleXferAttempt (par s) <> TRUE /\ xferRetries s <= MAX_RETRY).
Proof.
  unfold xfer_account.
  destruct (ret <? remaining s) eqn:Hlt;
    destruct (singleXferAttempt (par s) =? TRUE) eqn:Hs;
    destruct (xferRetries s >? MAX_RETRY) eqn:Hr;
    destruct (0 <=? ret) eqn:H0;
    destruct (ret <=? remaining s) eqn:Hle; simpl; try discriminate;
    intros E; injection E as <-; simpl; repeat split; lia.
Qed.

Lemma xfer_account_stop s ret o s' :
  xfer_account s ret = Stop o s' -> s' = s /\ is_fatal o = true.
Proof.
  unfold xfer_account.
  destruct (ret <? remaining s); destruct (singleXferAttempt (par s) =? TRUE);
    destruct (xferRetries s >? MAX_RETRY); destruct (0 <=? ret);
    destruct (ret <=? remaining s); simpl; try discriminate;
    intros E; injection E as <- <-; split; reflexivity.
Qed.

(** What every iteration logs: one call, for the whole remainder, at
    the cursor, at the offset of the parameter block. *)
Definition issued (s : xstate) (c : call) (s' : xstate) : Prop :=
  calls s' = calls s ++ [c] /\ par s' = par s /\
  call_len c = remaining s /\ call_ptr c = ptr s /\
  call_off c = offset (par s).

Lemma xfer_body_continue access s s' :
  xfer_body access s = Continue s' ->
  exists c, issued s c s' /\ write_failed c = false /\
    0 <= moved c <= remaining s /\
    remaining s' = remaining s - moved c /\ ptr s' = ptr s + moved c /\
    xferRetries s' = xferRetries s + 1 /\
    (moved c < remaining s ->
     singleXferAttempt (par s) <> TRUE /\ xferRetries s <= MAX_RETRY).
Proof.
  unfold xfer_body. destruct (access =? WRITE).
  - destruct (dfs_write _ _ _ _) as [rc e].
    destruct (rc =? 0) eqn:Hrc; simpl; [|discriminate].
    intros H. apply xfer_account_continue in H. simpl in H.
    exists (Call_write (ptr s) (remaining s) (offset (par s)) rc).
    unfold issued; simpl; rewrite Hrc; simpl. intuition congruence.
  - destruct (dfs_read _ _ _ _) as [[rc r] e]. simpl.
    intros H. apply xfer_account_continue in H. simpl in H.
    exists (Call_read (ptr s) (remaining s) (offset (par s)) rc (to_u64 r)).
    unfold issued; simpl. intuition congruence.
Qed.

Lemma xfer_body_stop access s o s' :
  xfer_body access s = Stop o s' ->
  exists c, issued s c s' /\
    ((o = Returns (-1) /\ write_failed c = true) \/ is_fatal o = true).
Proof.
  unfold xfer_body. destruct (access =? WRITE).
  - destruct (dfs_write _ _ _ _) as [rc e]. intros H.
    exists (Call_write (ptr s) (remaining s) (offset (par s)) rc).
    destruct (rc =? 0) eqn:Hrc; simpl in *.
    + apply xfer_account_stop in H as [-> Hf]. unfold issued; simpl. tauto.
    + injection H as <- <-. unfold issued; simpl. rewrite Hrc. tauto.
  - destruct (dfs_read _ _ _ _) as [[rc r] e]. simpl.
    intros H. apply xfer_account_stop in H as [-> Hf].
    exists (Call_read (ptr s) (remaining s) (offset (par s)) rc (to_u64 r)).
    unfold issued; simpl. tauto.
Qed.

(** *** The loop *)

Lemma xfer_loop_done fuel access length s :
  remaining s <= 0 -> xfer_loop fuel access length s = (Returns length, s).
Proof.
  intros H. destruct fuel; simpl;
    destruct (remaining s >? 0) eqn:E; try reflexivity; lia.
Qed.

(** The log of a run, whatever its end: the calls follow one another
    as [chain] says, and the parameter block is as it was. *)
Lemma xfer_loop_chain access length fuel :
  forall s o s', xfer_loop fuel access length s = (o, s') ->
  exists cs, calls s' = calls s ++ cs /\ par s' = par s /\
             chain (remaining s) (ptr s) (offset (par s)) cs.
Proof.
  induction fuel as [|fuel IH]; intros s o s'; simpl.
  - destruct (remaining s >? 0); intros E; injection E as <- <-;
      exists []; rewrite app_nil_r; simpl; auto.
  - destruct (remaining s >? 0).
    2:{ intros E; injection E as <- <-.
        exists []; rewrite app_nil_r; simpl; auto. }
    destruct (xfer_body access s) as [s1|o1 s1] eqn:Hb.
    + apply xfer_body_continue in Hb
        as (c & (Hc & Hp & Hl & Hq & Ho) & _ & _ & Hr & Hptr & _).
      intros E. apply IH in E as (cs & E1 & E2 & E3).
      exists (c :: cs). rewrite E1, Hc, <- app_assoc. simpl.
      rewrite E2, Hp. repeat split; auto.
      rewrite Hr, Hptr, Hp in E3. exact E3.
    + apply xfer_body_stop in Hb as (c & (Hc & Hp & Hl & Hq & Ho) & _).
      intros E. injection E as <- <-.
      exists [c]. simpl. repeat split; auto.
Qed.

(** A run that comes back and in which no write failed has booked
    the request, attempt by attempt within the remainder. *)
Lemma xfer_loop_returns access length fuel :
  forall s v s', xfer_loop fuel access length s = (Returns v, s') ->
  0 <= remaining s ->
  exists cs, calls s' = calls s ++ cs /\
    (existsb write_failed cs = false ->
     bounded (remaining s) cs /\ total_moved cs = remaining s /\ v = length).
Proof.
  induction fuel as [|fuel IH]; intros s v s'; simpl.
  - destruct (remaining s >? 0) eqn:Hr; [discriminate|].
    intros E H0. injection E as <- <-. exists []. rewrite app_nil_r.
    simpl. split; auto. intros _. repeat split; auto. lia.
  - destruct (remaining s >? 0) eqn:Hr.
    2:{ intros E H0. injection E as <- <-. exists []. rewrite app_nil_r.
        simpl. split; auto. intros _. repeat split; auto. lia. }
    destruct (xfer_body access s) as [s1|o1 s1] eqn:Hb.
    + apply xfer_body_continue in Hb
        as (c & (Hc & _) & Hw & Hm & Hrem & _).
      intros E H0. apply IH in E as (cs & E1 & E2); [|lia].
      exists (c :: cs). rewrite E1, Hc, <- app_assoc. split; auto.
      simpl. rewrite Hw. simpl. intros Hcs.
      destruct (E2 Hcs) as (B & T & V). rewrite Hrem in B, T.
      repeat split; auto; lia.
    + apply xfer_body_stop in Hb as (c & (Hc & _) & Hcase).
      intros E H0. injection E as -> <-.
      exists [c]. split; auto. simpl.
      destruct Hcase as [[_ Hw]|Hf]; [|discriminate].
      rewrite Hw. discriminate.
Qed.

(** The loop ends within [xfer_fuel] iterations. *)
Lemma xfer_loop_total access length fuel :
  forall s, (Z.to_nat (MAX_RETRY + 1 - xferRetries s) < fuel)%nat ->
  fst (xfer_loop fuel access length s) <> OutOfFuel.
Proof.
  induction fuel as [|fuel IH]; intros s Hf; [lia|]. simpl.
  destruct (remaining s >? 0) eqn:Hr; [|simpl; discriminate].
  destruct (xfer_body access s) as [s1|o1 s1] eqn:Hb.
  - apply xfer_body_continue in Hb
      as (c & _ & _ & Hm & Hrem & _ & Hx & Hshort).
    destruct (Z.eq_dec (moved c) (remaining s)) as [Heq|Hne].
    + rewrite xfer_loop_done by lia. simpl. discriminate.
    + destruct Hshort as [_ Hle]; [lia|]. apply IH. rewrite Hx. lia.
  - apply xfer_body_stop in Hb as (c & _ & [[-> _]|Hfatal]); simpl.
    + discriminate.
    + intros ->. discriminate.
Qed.

Lemma DFS_Xfer_total access e buffer length param :
  fst (DFS_Xfer access e buffer length param) <> OutOfFuel.
Proof.
  unfold DFS_Xfer. apply xfer_loop_total. unfold xfer_fuel, xfer_init.
  simpl. rewrite Z.sub_0_r. lia.
Qed.

Lemma chain_off rem p off cs :
  chain rem p off cs -> Forall (fun c => call_off c = off) cs.
Proof.
  revert rem p. induction cs as [|c cs IH]; intros rem p; simpl.
  - constructor.
  - intros (_ & _ & Ho & Hc). constructor; eauto.
Qed.

(** A read logs no write. *)
Lemma xfer_loop_reads access length fuel :
  (access =? WRITE) = false ->
  forall s o s', xfer_loop fuel access length s = (o, s') ->
  existsb write_failed (calls s) = false ->
  existsb write_failed (calls s') = false.
Proof.
  intros Ha. induction fuel as [|fuel IH]; intros s o s'; simpl.
  - destruct (remaining s >? 0); intros E; injection E as <- <-; auto.
  - destruct (remaining s >? 0); [|intros E; injection E as <- <-; auto].
    unfold xfer_body. rewrite Ha.
    destruct (dfs_read _ _ _ _) as [[rc r] e]. simpl.
    set (s1 := log s e _).
    assert (Hs1 : existsb write_failed (calls s) = false ->
                  existsb write_failed (calls s1) = false).
    { intros H. subst s1. simpl. rewrite existsb_app, H. reflexivity. }
    destruct (xfer_account s1 (to_u64 r)) as [s2|o2 s2] eqn:Hacc.
    + apply xfer_account_continue in Hacc as (_ & _ & _ & _ & _ & _ & Hc & _).
      intros E H. apply IH in E; auto. rewrite Hc. auto.
    + apply xfer_account_stop in Hacc as [-> _].
      intros E H. injection E as <- <-. auto.
Qed.


(** *** The log against the engine *)










(** *** Statements about DFS_Xfer *)



(** C4, as the source has it.  A write of a positive length issues
    one [dfs_write] for the whole length.  When that call fails the
    transfer ends at once, without a second attempt, by returning -1
    to its caller; when it succeeds the whole length is booked and
    returned. *)
Theorem xfer_write_once e buffer length param :
  0 < length ->
  calls (snd (DFS_Xfer WRITE e buffer length param))
  = [Call_write buffer length (offset param)
       (fst (dfs_write e buffer length (offset param)))] /\
  eng (snd (DFS_Xfer WRITE e buffer length param))
  = snd (dfs_write e buffer length (offset param)) /\
  (fst (dfs_write e buffer length (offset param)) <> 0 ->
   fst (DFS_Xfer WRITE e buffer length param) = Returns (-1)) /\
  (fst (dfs_write e buffer length (offset param)) = 0 ->
   fst (DFS_Xfer WRITE e buffer length param) = Returns length /\
   total_moved (calls (snd (DFS_Xfer WRITE e buffer length param)))
   = length).
Proof.
  intros Hpos. unfold DFS_Xfer, xfer_fuel. simpl.
  destruct (length >? 0) eqn:Hgt; [|lia].
  unfold xfer_body. rewrite Z.eqb_refl. simpl.
  destruct (dfs_write e buffer length (offset param)) as [rc e1]. simpl.
  destruct (rc =? 0) eqn:Hrc; simpl.
  - unfold xfer_account. simpl.
    rewrite Z.ltb_irrefl. simpl.
    destruct (0 <=? length) eqn:H0; [|lia].
    rewrite Z.leb_refl. simpl.
    rewrite xfer_loop_done by (simpl; lia). simpl. rewrite Hrc.
    repeat split; auto; try lia.
  - repeat split; auto; lia.
Qed.

(** C8.  A transfer of length 0 returns 0 with no call issued and
    the engine untouched, whatever the parameter block holds: its
    retry configuration has no part in the result. *)
Theorem xfer_zero_length access e buffer param :
  fst (DFS_Xfer access e buffer 0 param) = Returns 0 /\
  calls (snd (DFS_Xfer access e buffer 0 param)) = [] /\
  eng (snd (DFS_Xfer access e buffer 0 param)) = e /\
  forall param',
    fst (DFS_Xfer access e buffer 0 param')
    = fst (DFS_Xfer access e buffer 0 param).
Proof.
  unfold DFS_Xfer. rewrite xfer_loop_done by (simpl; lia).
  split; [reflexivity|]. split; [reflexivity|]. split; [reflexivity|].
  intros param'. rewrite xfer_loop_done by (simpl; lia). reflexivity.
Qed.

(** C9.  Every call of a transfer, retries included, goes to the
    file offset of the request; the calls differ in the memory
    cursor and the length only, each starting where the previous one
    stopped; and the parameter block is left as it was. *)
Theorem xfer_fixed_offset access e buffer length param :
  par (snd (DFS_Xfer access e buffer length param)) = param /\
  Forall (fun c => call_off c = offset param)
         (calls (snd (DFS_Xfer access e buffer length param))) /\
  chain length buffer (offset param)
        (calls (snd (DFS_Xfer access e buffer length param))).
Proof.
  unfold DFS_Xfer.
  destruct (xfer_loop _ _ _ _) as [o s'] eqn:E. simpl.
  apply xfer_loop_chain in E as (cs & E1 & E2 & E3).
  simpl in E1, E2, E3. subst cs. repeat split; auto.
  eapply chain_off; eauto.
Qed.

End Transfer.

Arguments remaining {engine} _.
Arguments ptr {engine} _.
Arguments xferRetries {engine} _.
Arguments par {engine} _.
Arguments eng {engine} _.
Arguments calls {engine} _.

(** *** A scripted engine, to run the loop on

    The engine state is the list of answers still to give, each an
    [(rc, ret)] pair; once the script is used up every call succeeds
    and a read delivers nothing. *)
Module Scripted.

Definition script : Type := list (Z * Z).

Definition dfs_write (e : script) (p len off : Z) : Z * script :=
  match e with
  | [] => (0, [])
  | (rc, _) :: e' => (rc, e')
  end.

Definition dfs_read (e : script) (p len off : Z) : (Z * Z) * script :=
  match e with
  | [] => ((0, 0), [])
  | a :: e' => (a, e')
  end.

(** iordef.h has WRITE 0, READ 2, TRUE 1 and MAX_RETRY 10000. *)
Definition run (max_retry access : Z) (e : script) (length : Z)
           (param : IOR_param_t) : outcome * xstate script :=
  DFS_Xfer 0 1 max_retry script dfs_write dfs_read access e 4096 length param.

Definition at_offset (off single : Z) : IOR_param_t :=
  {| offset := off; singleXferAttempt := single; filePerProc := 0;
     mode := 420 |}.

(** A read of 10 bytes served as 4 + 4 + 2. *)
Example read_in_three :
  run 10000 2 [(0, 4); (0, 4); (0, 2)] 10 (at_offset 512 0)
  = (Returns 10,
     {| remaining := 0; ptr := 4106; xferRetries := 3;
        par := at_offset 512 0; eng := [];
        calls := [Call_read 4096 10 512 0 4; Call_read 4100 6 512 0 4;
                  Call_read 4104 2 512 0 2] |}).
Proof. vm_compute. reflexivity. Qed.

(** The same script under single-attempt semantics. *)
Example read_single_attempt :
  fst (run 10000 2 [(0, 4); (0, 4); (0, 2)] 10 (at_offset 512 1))
  = Exits (-1).
Proof. vm_compute. reflexivity. Qed.

(** A read call that reports an error and answers with the whole
    length is booked like any other. *)
Example read_error_is_booked :
  fst (run 10000 2 [(-5, 10)] 10 (at_offset 0 0)) = Returns 10.
Proof. vm_compute. reflexivity. Qed.

(** An engine that answers with more than was asked for trips the
    second assertion. *)
Example read_too_much :
  fst (run 10000 2 [(0, 11)] 10 (at_offset 0 0))
  = AssertFails "ret <= remaining".
Proof. vm_compute. reflexivity. Qed.

End Scripted.




Lemma xfer_write_once_witness :
  fst (Scripted.run 10000 0 [] 10 (Scripted.at_offset 512 0)) = Returns 10 /\
  fst (Scripted.run 10000 0 [(-1, 0)] 10 (Scripted.at_offset 512 0))
  = Returns (-1).
Proof.
  split.
  - apply (xfer_write_once 0 1 10000 Scripted.script
             Scripted.dfs_write Scripted.dfs_read
             [] 4096 10 (Scripted.at_offset 512 0)).
    + lia.
    + reflexivity.
  - apply (xfer_write_once 0 1 10000 Scripted.script
             Scripted.dfs_write Scripted.dfs_read
             [(-1, 0)] 4096 10 (Scripted.at_offset 512 0)).
    + lia.
    + vm_compute. discriminate.
Defined.

(** A write whose [dfs_write] fails: the call comes back with -1, and
    the run is not ended. *)
Lemma xfer_write_failure_not_fatal :
  let r := Scripted.run 10000 0 [(-1, 0)] 10 (Scripted.at_offset 512 0) in
  existsb write_failed (calls (snd r)) = true /\
  fst r = Returns (-1) /\
  is_fatal (fst r) = false.
Proof. vm_compute. repeat split. Qed.

(** ** parse_filename *)

Module Path.

Local Open Scope string_scope.

Definition slash : ascii := "/"%char.
Definition dot : ascii := "."%char.

Definition is_slash (c : ascii) : bool := Ascii.eqb c slash.

Fixpoint drop_while (f : ascii -> bool) (l : list ascii) : list ascii :=
  match l with
  | [] => []
  | c :: l' => if f c then drop_while f l' else l
  end.

Fixpoint take_while (f : ascii -> bool) (l : list ascii) : list ascii :=
  match l with
  | [] => []
  | c :: l' => if f c then c :: take_while f l' else []
  end.

(** Modelled from the spec: its "standard path decomposition" is
    basename(3) and dirname(3) of <libgen.h>, which the file calls
    and does not define.  Both are given here as glibc computes
    them, read on the reversed string: trailing slashes are dropped
    first. *)
Definition basename (path : string) : string :=
  match list_ascii_of_string path with
  | [] => "."
  | l =>
      match drop_while is_slash (rev l) with
      | [] => "/"
      | t => string_of_list_ascii
               (rev (take_while (fun c => negb (is_slash c)) t))
      end
  end.

Definition dirname (path : string) : string :=
  match list_ascii_of_string path with
  | [] => "."
  | l =>
      match drop_while is_slash (rev l) with
      | [] => if (List.length l =? 2)%nat then "//" else "/"
      | t =>
          match drop_while (fun c => negb (is_slash c)) t with
          | [] => "."
          | _ :: u =>
              match drop_while is_slash u with
              | [] => if (List.length u =? 1)%nat then "//" else "/"
              | v => string_of_list_ascii (rev v)
              end
          end
      end
  end.

Example basename_file : basename "/usr/lib" = "lib". Proof. reflexivity. Qed.
Example basename_trail : basename "/usr/" = "usr". Proof. reflexivity. Qed.
Example basename_plain : basename "usr" = "usr". Proof. reflexivity. Qed.
Example basename_root : basename "/" = "/". Proof. reflexivity. Qed.
Example basename_dot : basename "." = ".". Proof. reflexivity. Qed.
Example basename_empty : basename "" = ".". Proof. reflexivity. Qed.
Example dirname_file : dirname "/usr/lib" = "/usr". Proof. reflexivity. Qed.
Example dirname_trail : dirname "/usr/" = "/". Proof. reflexivity. Qed.
Example dirname_plain : dirname "usr" = ".". Proof. reflexivity. Qed.
Example dirname_root : dirname "/" = "/". Proof. reflexivity. Qed.
Example dirname_dotdot : dirname ".." = ".". Proof. reflexivity. Qed.
Example dirname_rel : dirname "a/b/c" = "a/b". Proof. reflexivity. Qed.
Example dirname_slashes : dirname "a//b//" = "a". Proof. reflexivity. Qed.

(** errno.h *)
Definition EINVAL : Z := 22.
Definition ENOMEM : Z := 12.

(** What the function asks of its process: the working directory,
    and a heap that serves [heap] more allocations. *)
Record penv : Type := { cwd : string; heap : nat }.

(** [getcwd(buf, size)] is NULL when the directory and its
    terminator do not fit. *)
Definition getcwd (env : penv) (size : nat) : option string :=
  if (String.length (cwd env) <? size)%nat then Some (cwd env) else None.

(** First character of a C string; the terminator when it is empty. *)
Definition head_char (s : string) : ascii :=
  match s with
  | EmptyString => zero
  | String c _ => c
  end.

(** [&s[1]] *)
Definition tail_str (s : string) : string :=
  match s with
  | EmptyString => EmptyString
  | String _ s' => s'
  end.

(** The three results: [rc], [*_obj_name], [*_cont_name].  The two
    strings start out NULL in every caller; [None] is NULL. *)
Definition parsed : Type := Z * option string * option string.

Definition nomem : parsed := (- ENOMEM, None, None).

(** Lines 237-275, after [f1], [f2] are in place: [h] allocations
    are still served. *)
Definition resolve_dir (env : penv) (h : nat) (cont_name : string)
  : option (string * nat) :=
  if Ascii.eqb (head_char cont_name) dot
     || negb (Ascii.eqb (head_char cont_name) slash)
  then
    match getcwd env 1024 with
    | None => None
    | Some cwd =>
        match h with
        | O => None
        | S h' =>
            if String.eqb cont_name "." then Some (cwd, h')
            else if Ascii.eqb (head_char cont_name) dot
            then Some (cwd ++ tail_str cont_name, h')
            else Some (cwd ++ "/" ++ cont_name, h')
        end
    end
  else
    match h with
    | O => None
    | S h' => Some (cont_name, h')
    end.

(** [path_given] and the two flags say which of the three pointers
    of the call are not NULL. *)
Definition parse_filename (env : penv) (path : option string)
           (obj_out cont_out : bool) : parsed :=
  match path with
  | None => (- EINVAL, None, None)
  | Some path =>
      if negb obj_out || negb cont_out then (- EINVAL, None, None)
      else if String.eqb path "/" then
        match heap env with
        | O => nomem
        | S _ => (0, None, Some "/")
        end
      else
        match heap env with
        | S (S h) =>
            let fname := basename path in
            let cont_name := dirname path in
            match resolve_dir env h cont_name with
            | None => nomem
            | Some (dir, h') =>
                match h' with
                | O => nomem
                | S _ => (0, Some fname, Some dir)
                end
            end
        | _ => nomem
        end
  end.

(** The bytes [calloc] reserves for [new_dir] at line 252, and the
    bytes the two branches put there, terminator included. *)
Definition new_dir_reserved (cwd cont_name : string) : nat :=
  String.length cwd + String.length cont_name + 1.

Definition new_dir_stored (cwd cont_name : string) : nat :=
  if Ascii.eqb (head_char cont_name) dot
  then String.length (cwd ++ tail_str cont_name) + 1
  else String.length (cwd ++ "/" ++ cont_name) + 1.

(** *** What the resolver returns *)

Lemma length_app (a b : string) :
  String.length (a ++ b) = (String.length a + String.length b)%nat.
Proof. induction a as [|c a IH]; simpl; [reflexivity|now rewrite IH]. Qed.

(** The buffer for the joined directory is one byte short whenever
    the separator is put in. *)
Lemma new_dir_one_short cwd cont_name :
  Ascii.eqb (head_char cont_name) dot = false ->
  new_dir_stored cwd cont_name = S (new_dir_reserved cwd cont_name).
Proof.
  intros H. unfold new_dir_stored, new_dir_reserved. rewrite H.
  rewrite !length_app. simpl. lia.
Qed.

Lemma new_dir_fits cwd cont_name :
  Ascii.eqb (head_char cont_name) dot = true ->
  new_dir_stored cwd cont_name = (String.length cwd + String.length cont_name)%nat.
Proof.
  intros H. unfold new_dir_stored. rewrite H. rewrite length_app.
  destruct cont_name as [|c t]; simpl in *; [discriminate|lia].
Qed.

Lemma parse_filename_null env obj_out cont_out :
  parse_filename env None obj_out cont_out = (- EINVAL, None, None).
Proof. reflexivity. Qed.

Lemma parse_filename_root env :
  heap env <> O ->
  parse_filename env (Some "/") true true = (0, None, Some "/").
Proof. intros H. simpl. destruct (heap env); [contradiction|reflexivity]. Qed.

(** The result is 0 or a negated errno, and with 0 the directory is
    set. *)
Lemma parse_filename_rc env path obj_out cont_out :
  let '(rc, name, dir) := parse_filename env path obj_out cont_out in
  (rc = 0 /\ dir <> None) \/ (rc < 0 /\ name = None /\ dir = None).
Proof.
  unfold parse_filename, nomem, EINVAL, ENOMEM.
  destruct path as [path|]; [|right; repeat split; lia].
  destruct (negb obj_out || negb cont_out); [right; repeat split; lia|].
  destruct (path =? "/").
  - destruct (heap env); [right; repeat split; lia|left; split; congruence].
  - destruct (heap env) as [|[|h]]; try (right; repeat split; lia).
    destruct (resolve_dir env h (dirname path)) as [[dir [|h']]|];
      try (right; repeat split; lia).
    left; split; congruence.
Qed.

(** With an absolute directory part the two results are what
    dirname and basename give. *)
Lemma parse_filename_absolute env path h :
  path <> "/" -> heap env = S (S (S (S h))) ->
  head_char (dirname path) = slash ->
  parse_filename env (Some path) true true
  = (0, Some (basename path), Some (dirname path)).
Proof.
  intros Hp Hh Hd. unfold parse_filename. simpl.
  apply String.eqb_neq in Hp. rewrite Hp, Hh.
  unfold resolve_dir. rewrite Hd. reflexivity.
Qed.

(** With a directory part that starts neither with a slash nor with
    a dot, the directory is the working directory, a slash, and that
    part. *)
Lemma parse_filename_relative env path h :
  path <> "/" -> heap env = S (S (S (S h))) ->
  (String.length (cwd env) < 1024)%nat ->
  head_char (dirname path) <> slash -> head_char (dirname path) <> dot ->
  parse_filename env (Some path) true true
  = (0, Some (basename path), Some (cwd env ++ "/" ++ dirname path)).
Proof.
  intros Hp Hh Hc Hs Hd. unfold parse_filename. simpl.
  apply String.eqb_neq in Hp. rewrite Hp, Hh.
  apply Ascii.eqb_neq in Hs, Hd.
  unfold resolve_dir, getcwd. rewrite Hs, Hd. simpl.
  apply Nat.ltb_lt in Hc. rewrite Hc.
  destruct (dirname path =? ".") eqn:E; [|reflexivity].
  apply String.eqb_eq in E. rewrite E in Hd. discriminate.
Qed.

(** With no directory part, or ".", the directory is the working
    directory. *)
Lemma parse_filename_here env path h :
  path <> "/" -> heap env = S (S (S (S h))) ->
  (String.length (cwd env) < 1024)%nat ->
  dirname path = "." ->
  parse_filename env (Some path) true true
  = (0, Some (basename path), Some (cwd env)).
Proof.
  intros Hp Hh Hc Hd. unfold parse_filename. simpl.
  apply String.eqb_neq in Hp. rewrite Hp, Hh, Hd.
  unfold resolve_dir, getcwd. simpl.
  apply Nat.ltb_lt in Hc. rewrite Hc. reflexivity.
Qed.

(** Any other directory part that starts with a dot loses that dot
    and is glued to the working directory as it is. *)
Lemma parse_filename_dotted env path h :
  path <> "/" -> heap env = S (S (S (S h))) ->
  (String.length (cwd env) < 1024)%nat ->
  head_char (dirname path) = dot -> dirname path <> "." ->
  parse_filename env (Some path) true true
  = (0, Some (basename path), Some (cwd env ++ tail_str (dirname path))).
Proof.
  intros Hp Hh Hc Hd Hn. unfold parse_filename. simpl.
  apply String.eqb_neq in Hp. rewrite Hp, Hh.
  unfold resolve_dir, getcwd. rewrite Hd. simpl.
  apply Nat.ltb_lt in Hc. rewrite Hc.
  apply String.eqb_neq in Hn. rewrite Hn. reflexivity.
Qed.

Definition ior_home : penv := {| cwd := "/home/ior"; heap := 4 |}.

Example parse_absolute :
  parse_filename ior_home (Some "/mnt/dfs/testFile") true true
  = (0, Some "testFile", Some "/mnt/dfs").
Proof. reflexivity. Qed.

Example parse_plain :
  parse_filename ior_home (Some "testFile") true true
  = (0, Some "testFile", Some "/home/ior").
Proof. reflexivity. Qed.

Example parse_relative :
  parse_filename ior_home (Some "out/testFile") true true
  = (0, Some "testFile", Some "/home/ior/out").
Proof. reflexivity. Qed.

Example parse_dot_slash :
  parse_filename ior_home (Some "./out/testFile") true true
  = (0, Some "testFile", Some "/home/ior/out").
Proof. reflexivity. Qed.

(** C6.  The resolver at two relative paths whose directory part
    starts with a dot and is not ".": the leaf is the last
    component, but the parent is the working directory with the
    directory part, less its first character, glued on without a
    separator: "/home/iorcache" for ".cache" and "/home/ior." for
    "..", where the working directory, a separator and the
    directory part were to be joined. *)
Theorem parse_filename_dot_prefixed :
  dirname ".cache/testFile" = ".cache" /\
  parse_filename ior_home (Some ".cache/testFile") true true
  = (0, Some "testFile", Some "/home/iorcache") /\
  dirname "../testFile" = ".." /\
  parse_filename ior_home (Some "../testFile") true true
  = (0, Some "testFile", Some "/home/ior.").
Proof. repeat split. Qed.

End Path.

(** fcntl.h and sys/stat.h, as on Linux. *)
Definition O_RDONLY : Z := 0.
Definition O_RDWR : Z := 2.
Definition O_CREAT : Z := 64.
Definition O_EXCL : Z := 128.
Definition S_IFREG : Z := 32768.

(** DCHECK and DERR look at the sign of [rc] only. *)
Definition reported (rc : Z) : bool := rc <? 0.

(** ** DFS_Access *)

Section Access.

Import Path.

(** [dfs_obj_t *] values, and the two engine calls of the function:
    [dfs_lookup] answers [rc] and what it leaves in [parent],
    [dfs_stat] answers [rc]. *)
Variable obj : Type.
Variable dfs_lookup : string -> Z -> Z * option obj.
Variable dfs_stat : option obj -> option string -> Z.

Inductive access_call : Type :=
| Acc_lookup (dir : string) (flags : Z)
| Acc_stat (parent : option obj) (name : option string)
| Acc_release (parent : obj).

(** The label [out]: [parent] is released when set, and any [rc]
    other than 0 becomes -1. *)
Definition access_out (rc : Z) (parent : option obj)
           (log : list access_call) : outcome * list access_call :=
  (Returns (if rc =? 0 then rc else -1),
   log ++ match parent with Some p => [Acc_release p] | None => [] end).

Definition DFS_Access (env : penv) (path : option string)
  : outcome * list access_call :=
  let '(rc, name, dir_name) := parse_filename env path true true in
  if reported rc then access_out rc None []
  else
    match dir_name with
    | None => (AssertFails "dir_name", [])
    | Some dir =>
        let '(rc, parent) := dfs_lookup dir O_RDWR in
        if reported rc then access_out rc parent [Acc_lookup dir O_RDWR]
        else
          let name :=
            match name with
            | Some n => if String.eqb n "." then None else Some n
            | None => None
            end in
          let rc := dfs_stat parent name in
          access_out rc parent [Acc_lookup dir O_RDWR; Acc_stat parent name]
    end.

(** C10.  For a path that resolves to the leaf "." under a
    directory [dir], the function looks [dir] up and, unless DERR
    reports that lookup (a negative status), makes one [dfs_stat]
    call, on the object the lookup delivered and with a null name.
    It returns 0 exactly when the lookup was not reported and that
    stat answered 0, and -1 otherwise. *)
Theorem access_dot_stats_parent env path dir :
  parse_filename env (Some path) true true
  = (0, Some "."%string, Some dir) ->
  let rc := fst (dfs_lookup dir O_RDWR) in
  let parent := snd (dfs_lookup dir O_RDWR) in
  let r := DFS_Access env (Some path) in
  (forall p n, In (Acc_stat p n) (snd r) ->
               p = parent /\ n = None /\ 0 <= rc) /\
  (0 <= rc -> In (Acc_stat parent None) (snd r)) /\
  (fst r = Returns 0 <-> 0 <= rc /\ dfs_stat parent None = 0) /\
  (fst r = Returns 0 \/ fst r = Returns (-1)).
Proof.
  intros Hp. cbv zeta. unfold DFS_Access. rewrite Hp.
  change (reported 0) with false. cbv iota.
  destruct (dfs_lookup dir O_RDWR) as [rc parent]. cbn [fst snd].
  rewrite String.eqb_refl.
  unfold reported, access_out.
  assert (Hrel : forall p n pre,
             In (Acc_stat p n)
                (pre ++ match parent with
                        | Some q => [Acc_release q]
                        | None => []
                        end) -> In (Acc_stat p n) pre).
  { intros p n pre H. apply in_app_or in H as [H|H]; [exact H|].
    destruct parent; simpl in H; [destruct H as [H|[]]; discriminate|tauto]. }
  destruct (rc <? 0) eqn:Hrc; cbn [fst snd].
  - assert (Hne : (rc =? 0) = false) by lia. rewrite Hne.
    split; [|split; [|split]].
    + intros p n H. apply Hrel in H. simpl in H.
      destruct H as [H|[]]. discriminate.
    + lia.
    + split; [discriminate|lia].
    + right. reflexivity.
  - split; [|split; [|split]].
    + intros p n H. apply Hrel in H. simpl in H.
      destruct H as [H|[H|[]]]; [discriminate|].
      injection H as <- <-. split; [|split]; auto. lia.
    + intros _. apply in_or_app. left. simpl. auto.
    + destruct (dfs_stat parent None =? 0) eqn:Hst.
      * apply Z.eqb_eq in Hst. rewrite Hst. split; auto. intros _. lia.
      * apply Z.eqb_neq in Hst. split; [discriminate|tauto].
    + destruct (dfs_stat parent None =? 0) eqn:Hst; [|auto].
      apply Z.eqb_eq in Hst. rewrite Hst. auto.
Qed.

End Access.

(** ** Ranks and collectives

    The ranks [0 .. N-1] run the same function.  A collective call
    (MPI_Barrier, MPI_Bcast, MPI_Allreduce) lets a rank go on once
    every rank has entered it; a rank that ends the function before
    the collective leaves the others waiting in it.  MPI calls
    themselves are taken not to fail. *)

Inductive arrival (A B : Type) : Type :=
| Leaves (b : B)     (* the function ends before the collective *)
| Arrives (a : A).   (* the rank enters the collective, holding [a] *)

Arguments Leaves {A B} b.
Arguments Arrives {A B} a.

Definition arrived {A B : Type} (x : arrival A B) : bool :=
  match x with Arrives _ => true | Leaves _ => false end.

Definition all_arrive {A B : Type} (before : nat -> arrival A B) (N : nat)
  : bool :=
  forallb (fun r => arrived (before r)) (seq 0 N).

Definition count_over (N : nat) (f : nat -> nat) : nat :=
  list_sum (map f (seq 0 N)).

Lemma list_sum_const (f : nat -> nat) (k : nat) (l : list nat) :
  (forall r, In r l -> f r = k) ->
  list_sum (map f l) = (List.length l * k)%nat.
Proof.
  induction l as [|a l IH]; intros H; simpl; [reflexivity|].
  rewrite (H a) by (left; reflexivity).
  rewrite IH by (intros r Hr; apply H; right; exact Hr). reflexivity.
Qed.

Lemma count_over_first (N : nat) (f : nat -> nat) (k : nat) :
  (forall r, (0 < r < S N)%nat -> f r = k) ->
  count_over (S N) f = (f O + N * k)%nat.
Proof.
  intros H. unfold count_over. simpl. f_equal.
  rewrite (list_sum_const f k).
  - now rewrite length_seq.
  - intros r Hr. apply in_seq in Hr. apply H. lia.
Qed.

Lemma all_arrive_iff {A B : Type} (before : nat -> arrival A B) (N : nat) :
  all_arrive before N = true <->
  forall r, (r < N)%nat -> arrived (before r) = true.
Proof.
  unfold all_arrive. rewrite forallb_forall. split.
  - intros H r Hr. apply H. apply in_seq. lia.
  - intros H r Hr. apply in_seq in Hr. apply H. lia.
Qed.

(** ** DFS_Create *)

Section Create.

Import Path.

Variable obj : Type.
Variable DAOS_OC_LARGE_RW : Z.

(** Per rank: the process environment and the answers of the engine,
    [rc] and the object pointer the call leaves behind. *)
Variable env : nat -> penv.
Variable dfs_lookup : nat -> string -> Z -> Z * option obj.
Variable dfs_open :
  nat -> option obj -> string -> Z -> Z -> Z -> Z * option obj.

Inductive create_call : Type :=
| Cr_lookup (dir : string) (flags : Z)
| Cr_open (parent : option obj) (name : string) (mode flags oclass : Z)
| Cr_barrier
| Cr_release (parent : obj).

Inductive create_end : Type :=
| Cr_returns (o : option obj)    (* [return ((void * )obj)] *)
| Cr_assert (cond : string)      (* a failed [assert] *)
| Cr_waits.                      (* in MPI_Barrier, for a rank that left *)

(** What is left to do behind the barrier: nothing for a rank that
    created, the open for any other. *)
Inductive create_rest : Type :=
| Rest_out (parent o : option obj)
| Rest_open (parent : option obj) (name : string) (mode : Z).

Definition has_flag (flags f : Z) : bool := negb (Z.land flags f =? 0).

Definition exclusive_create (c : create_call) : bool :=
  match c with
  | Cr_open _ _ _ flags _ => has_flag flags O_CREAT && has_flag flags O_EXCL
  | _ => false
  end.

Definition plain_open (c : create_call) : bool :=
  match c with
  | Cr_open _ _ _ flags _ => negb (has_flag flags O_CREAT)
  | _ => false
  end.

(** The label [out]. *)
Definition create_out (parent o : option obj) (log : list create_call)
  : create_end * list create_call :=
  (Cr_returns o,
   log ++ match parent with Some p => [Cr_release p] | None => [] end).

(** Lines 402-421: up to the call of MPI_Barrier. *)
Definition create_before (rank : nat) (testFileName : option string)
           (param : IOR_param_t)
  : arrival (list create_call * create_rest)
            (create_end * list create_call) :=
  let '(rc, name, dir_name) :=
    parse_filename (env rank) testFileName true true in
  if reported rc then Leaves (create_out None None [])
  else
    match dir_name, name with
    | None, _ => Leaves (Cr_assert "dir_name", [])
    | Some _, None => Leaves (Cr_assert "name", [])
    | Some dir, Some name =>
        let '(rc, parent) := dfs_lookup rank dir O_RDWR in
        let log := [Cr_lookup dir O_RDWR] in
        if reported rc then Leaves (create_out parent None log)
        else
          let mode := Z.lor S_IFREG (mode param) in
          if negb (filePerProc param =? 0) || (rank =? 0)%nat then
            let fd_oflag := Z.lor 0 (Z.lor (Z.lor O_CREAT O_RDWR) O_EXCL) in
            let '(rc, o) :=
              dfs_open rank parent name mode fd_oflag DAOS_OC_LARGE_RW in
            let log :=
              log ++ [Cr_open parent name mode fd_oflag DAOS_OC_LARGE_RW] in
            if reported rc then Leaves (create_out parent o log)
            else Arrives (log ++ [Cr_barrier], Rest_out parent o)
          else Arrives (log ++ [Cr_barrier], Rest_open parent name mode)
    end.

(** Lines 423-437: behind the barrier. *)
Definition create_after (rank : nat) (log : list create_call)
           (rest : create_rest) : create_end * list create_call :=
  match rest with
  | Rest_out parent o => create_out parent o log
  | Rest_open parent name mode =>
      let fd_oflag := Z.lor 0 O_RDWR in
      let '(rc, o) :=
        dfs_open rank parent name mode fd_oflag DAOS_OC_LARGE_RW in
      create_out parent o
        (log ++ [Cr_open parent name mode fd_oflag DAOS_OC_LARGE_RW])
  end.

(** The call on rank [rank] of [N]. *)
Definition DFS_Create (N rank : nat) (testFileName : option string)
           (param : IOR_param_t) : create_end * list create_call :=
  match create_before rank testFileName param with
  | Leaves r => r
  | Arrives (log, rest) =>
      if all_arrive (fun r => create_before r testFileName param) N
      then create_after rank log rest
      else (Cr_waits, log)
  end.

Definition calls_of (N rank : nat) (testFileName : option string)
           (param : IOR_param_t) (which : create_call -> bool) : nat :=
  List.length (filter which (snd (DFS_Create N rank testFileName param))).

(** *** The shared file *)

Definition excl_flags : Z := Z.lor 0 (Z.lor (Z.lor O_CREAT O_RDWR) O_EXCL).
Definition open_flags : Z := Z.lor 0 O_RDWR.

Definition released (parent : option obj) : list create_call :=
  match parent with Some p => [Cr_release p] | None => [] end.

Lemma filter_released which parent :
  which = exclusive_create \/ which = plain_open ->
  filter which (released parent) = [].
Proof. intros [->| ->]; destruct parent; reflexivity. Qed.

(** A rank other than 0 never asks for an exclusive create of a
    shared file, wherever its call ends. *)
Lemma peer_never_creates N r path param :
  filePerProc param = 0 -> r <> O ->
  calls_of N r path param exclusive_create = O.
Proof.
  intros Hf Hr. unfold calls_of, DFS_Create.
  generalize (all_arrive (fun r => create_before r path param) N) as go.
  intros go. unfold create_before.
  destruct (parse_filename (env r) path true true) as [[rc name] dir].
  destruct (reported rc); [reflexivity|].
  destruct dir as [dir|]; [|reflexivity].
  destruct name as [name|]; [|reflexivity].
  destruct (dfs_lookup r dir O_RDWR) as [rc1 parent].
  destruct (reported rc1).
  { unfold create_out. cbn [snd]. rewrite filter_app.
    fold (released parent). rewrite filter_released by auto. reflexivity. }
  rewrite Hf. apply Nat.eqb_neq in Hr. rewrite Hr.
  change (negb (0 =? 0) || false) with false. cbv iota.
  destruct go; [|reflexivity].
  unfold create_after.
  destruct (dfs_open r parent name _ _ _) as [rc2 o].
  unfold create_out. cbn [snd]. rewrite filter_app.
  fold (released parent). rewrite filter_released by auto. reflexivity.
Qed.

Lemma rank0_creates_at_most_once N path param :
  (calls_of N 0 path param exclusive_create <= 1)%nat.
Proof.
  unfold calls_of, DFS_Create.
  generalize (all_arrive (fun r => create_before r path param) N) as go.
  intros go. unfold create_before.
  destruct (parse_filename (env 0) path true true) as [[rc name] dir].
  destruct (reported rc); [cbn; lia|].
  destruct dir as [dir|]; [|cbn; lia].
  destruct name as [name|]; [|cbn; lia].
  destruct (dfs_lookup 0 dir O_RDWR) as [rc1 parent].
  destruct (reported rc1).
  { unfold create_out. cbn [snd]. rewrite filter_app.
    fold (released parent). rewrite filter_released by auto. cbn. lia. }
  rewrite orb_true_r.
  destruct (dfs_open 0 parent name _ _ _) as [rc2 o].
  destruct (reported rc2).
  { unfold create_out. cbn [snd]. rewrite filter_app.
    fold (released parent). rewrite filter_released by auto. cbn. lia. }
  destruct go; [|cbn; lia].
  unfold create_after, create_out. cbn [snd]. rewrite filter_app.
  fold (released parent). rewrite filter_released by auto. cbn. lia.
Qed.

Section Nominal.

(** The path resolves on every rank, to the same leaf and directory;
    every rank finds the directory; rank 0's create is not reported. *)
Variables (N : nat) (path name dir : string) (param : IOR_param_t).
Hypothesis shared : filePerProc param = 0.
Hypothesis resolved : forall r, (r < N)%nat ->
  parse_filename (env r) (Some path) true true = (0, Some name, Some dir).
Hypothesis found : forall r, (r < N)%nat ->
  0 <= fst (dfs_lookup r dir O_RDWR).
Hypothesis created :
  0 <= fst (dfs_open 0 (snd (dfs_lookup 0 dir O_RDWR)) name
              (Z.lor S_IFREG (mode param)) excl_flags DAOS_OC_LARGE_RW).

Let parent_of (r : nat) : option obj := snd (dfs_lookup r dir O_RDWR).
Let file_mode : Z := Z.lor S_IFREG (mode param).

Lemma before_rank0 :
  (0 < N)%nat ->
  create_before 0 (Some path) param
  = Arrives ([Cr_lookup dir O_RDWR;
              Cr_open (parent_of 0) name file_mode excl_flags DAOS_OC_LARGE_RW;
              Cr_barrier],
             Rest_out (parent_of 0)
               (snd (dfs_open 0 (parent_of 0) name file_mode excl_flags
                       DAOS_OC_LARGE_RW))).
Proof.
  intros HN. unfold create_before. rewrite (resolved 0 HN).
  change (reported 0) with false. cbv iota.
  pose proof (found 0 HN) as Hl. revert created. subst parent_of file_mode.
  cbv beta. destruct (dfs_lookup 0 dir O_RDWR) as [rc1 parent].
  cbn [fst snd]. intros Hc. cbn [fst snd] in Hl.
  assert (E1 : reported rc1 = false) by (unfold reported; lia).
  rewrite E1, orb_true_r. fold excl_flags.
  destruct (dfs_open 0 parent name _ excl_flags _) as [rc2 o].
  cbn [fst snd] in *.
  assert (E2 : reported rc2 = false) by (unfold reported; lia).
  rewrite E2. reflexivity.
Qed.

Lemma before_peer r :
  (0 < r < N)%nat ->
  create_before r (Some path) param
  = Arrives ([Cr_lookup dir O_RDWR; Cr_barrier],
             Rest_open (parent_of r) name file_mode).
Proof.
  intros Hr. unfold create_before. rewrite (resolved r) by lia.
  change (reported 0) with false. cbv iota.
  pose proof (found r (proj2 Hr)) as Hl. subst parent_of file_mode.
  cbv beta. destruct (dfs_lookup r dir O_RDWR) as [rc1 parent].
  cbn [fst snd] in *.
  assert (E1 : reported rc1 = false) by (unfold reported; lia).
  rewrite E1, shared.
  assert (E2 : (r =? 0)%nat = false) by (apply Nat.eqb_neq; lia).
  rewrite E2. reflexivity.
Qed.

Lemma everyone_arrives :
  all_arrive (fun r => create_before r (Some path) param) N = true.
Proof.
  apply all_arrive_iff. intros r Hr. destruct r as [|r].
  - rewrite before_rank0 by lia. reflexivity.
  - rewrite before_peer by lia. reflexivity.
Qed.

Lemma log_rank0 :
  (0 < N)%nat ->
  snd (DFS_Create N 0 (Some path) param)
  = [Cr_lookup dir O_RDWR;
     Cr_open (parent_of 0) name file_mode excl_flags DAOS_OC_LARGE_RW;
     Cr_barrier] ++ released (parent_of 0).
Proof.
  intros HN. unfold DFS_Create.
  rewrite before_rank0, everyone_arrives by exact HN. reflexivity.
Qed.

Lemma log_peer r :
  (0 < r < N)%nat ->
  snd (DFS_Create N r (Some path) param)
  = [Cr_lookup dir O_RDWR; Cr_barrier;
     Cr_open (parent_of r) name file_mode open_flags DAOS_OC_LARGE_RW]
    ++ released (parent_of r).
Proof.
  intros Hr. unfold DFS_Create.
  rewrite before_peer, everyone_arrives by exact Hr.
  unfold create_after. fold open_flags.
  destruct (dfs_open r (parent_of r) name file_mode open_flags _) as [rc o].
  reflexivity.
Qed.

End Nominal.

(** *** The coordinator on its own *)

(** Rank 0 up to the barrier, given that it resolves the path and
    finds the parent: it creates whatever [filePerProc] says, and
    enters the barrier only when the create is not reported. *)
Lemma before_coordinator path param name dir :
  parse_filename (env 0) (Some path) true true = (0, Some name, Some dir) ->
  0 <= fst (dfs_lookup 0 dir O_RDWR) ->
  create_before 0 (Some path) param
  = if fst (dfs_open 0 (snd (dfs_lookup 0 dir O_RDWR)) name
              (Z.lor S_IFREG (mode param)) excl_flags DAOS_OC_LARGE_RW) <? 0
    then Leaves
           (Cr_returns
              (snd (dfs_open 0 (snd (dfs_lookup 0 dir O_RDWR)) name
                      (Z.lor S_IFREG (mode param)) excl_flags
                      DAOS_OC_LARGE_RW)),
            [Cr_lookup dir O_RDWR;
             Cr_open (snd (dfs_lookup 0 dir O_RDWR)) name
               (Z.lor S_IFREG (mode param)) excl_flags DAOS_OC_LARGE_RW]
            ++ released (snd (dfs_lookup 0 dir O_RDWR)))
    else Arrives
           ([Cr_lookup dir O_RDWR;
             Cr_open (snd (dfs_lookup 0 dir O_RDWR)) name
               (Z.lor S_IFREG (mode param)) excl_flags DAOS_OC_LARGE_RW;
             Cr_barrier],
            Rest_out (snd (dfs_lookup 0 dir O_RDWR))
              (snd (dfs_open 0 (snd (dfs_lookup 0 dir O_RDWR)) name
                      (Z.lor S_IFREG (mode param)) excl_flags
                      DAOS_OC_LARGE_RW))).
Proof.
  intros Hp Hl. unfold create_before. rewrite Hp.
  change (reported 0) with false. cbv iota.
  destruct (dfs_lookup 0 dir O_RDWR) as [rc1 parent]. cbn [fst snd] in *.
  assert (E1 : reported rc1 = false) by (unfold reported; lia).
  rewrite E1, orb_true_r. fold excl_flags.
  destruct (dfs_open 0 parent name _ excl_flags _) as [rc2 o].
  cbn [fst snd]. unfold reported. destruct (rc2 <? 0); reflexivity.
Qed.

(** Having resolved the path and found the parent, rank 0 issues its
    exclusive create, once, however the create and the other ranks
    fare. *)
Lemma coordinator_creates_once N path param name dir :
  parse_filename (env 0) (Some path) true true = (0, Some name, Some dir) ->
  0 <= fst (dfs_lookup 0 dir O_RDWR) ->
  calls_of N 0 (Some path) param exclusive_create = 1%nat.
Proof.
  intros Hp Hl. unfold calls_of, DFS_Create.
  generalize (all_arrive (fun r => create_before r (Some path) param) N).
  intros go. rewrite (before_coordinator path param name dir Hp Hl).
  destruct (_ <? 0).
  - cbn [snd]. rewrite filter_app, filter_released by auto. reflexivity.
  - destruct go; [|reflexivity].
    unfold create_after, create_out. cbn [snd]. fold (released (snd (dfs_lookup 0 dir O_RDWR))).
    rewrite filter_app, filter_released by auto. reflexivity.
Qed.

(** When rank 0 does not get that far, it issues no create. *)
Lemma coordinator_no_create N path param :
  fst (fst (parse_filename (env 0) (Some path) true true)) < 0 \/
  (exists name dir,
     parse_filename (env 0) (Some path) true true
     = (0, Some name, Some dir) /\
     fst (dfs_lookup 0 dir O_RDWR) < 0) ->
  calls_of N 0 (Some path) param exclusive_create = O.
Proof.
  unfold calls_of, DFS_Create, create_before.
  intros [Hrc|(name & dir & Hp & Hl)].
  - destruct (parse_filename (env 0) (Some path) true true) as [[rc n] d].
    cbn [fst] in Hrc.
    assert (E : reported rc = true) by (unfold reported; lia).
    rewrite E. reflexivity.
  - rewrite Hp. change (reported 0) with false. cbv iota.
    destruct (dfs_lookup 0 dir O_RDWR) as [rc1 parent]. cbn [fst] in Hl.
    assert (E : reported rc1 = true) by (unfold reported; lia).
    rewrite E. unfold create_out. cbn [snd]. fold (released parent).
    rewrite filter_app, filter_released by auto. reflexivity.
Qed.

(** A rank other than 0 up to the barrier, given that it resolves
    the path and finds the parent. *)
Lemma before_follower r path param name dir :
  filePerProc param = 0 -> r <> O ->
  parse_filename (env r) (Some path) true true = (0, Some name, Some dir) ->
  0 <= fst (dfs_lookup r dir O_RDWR) ->
  create_before r (Some path) param
  = Arrives ([Cr_lookup dir O_RDWR; Cr_barrier],
             Rest_open (snd (dfs_lookup r dir O_RDWR)) name
               (Z.lor S_IFREG (mode param))).
Proof.
  intros Hf Hr Hp Hl. unfold create_before. rewrite Hp.
  change (reported 0) with false. cbv iota.
  destruct (dfs_lookup r dir O_RDWR) as [rc1 parent]. cbn [fst snd] in *.
  assert (E1 : reported rc1 = false) by (unfold reported; lia).
  rewrite E1, Hf. apply Nat.eqb_neq in Hr. rewrite Hr. reflexivity.
Qed.

(** While the barrier is not passed, a rank other than 0 opens
    nothing. *)
Lemma follower_stuck N r path param :
  filePerProc param = 0 -> r <> O ->
  all_arrive (fun q => create_before q (Some path) param) N = false ->
  calls_of N r (Some path) param plain_open = O.
Proof.
  intros Hf Hr Hgo. unfold calls_of, DFS_Create. rewrite Hgo.
  unfold create_before.
  destruct (parse_filename (env r) (Some path) true true) as [[rc name] dir].
  destruct (reported rc); [reflexivity|].
  destruct dir as [dir|]; [|reflexivity].
  destruct name as [name|]; [|reflexivity].
  destruct (dfs_lookup r dir O_RDWR) as [rc1 parent].
  destruct (reported rc1).
  { unfold create_out. cbn [snd]. rewrite filter_app.
    fold (released parent). rewrite filter_released by auto. reflexivity. }
  rewrite Hf. apply Nat.eqb_neq in Hr. rewrite Hr.
  change (negb (0 =? 0) || false) with false. cbv iota. reflexivity.
Qed.

(** C1.  A shared file ([filePerProc] 0) on [N > 1] ranks.

    No rank other than 0 ever issues an exclusive create, and rank
    0 never more than one.  Rank 0 issues none when its path
    resolution or its parent lookup is reported; once it has resolved
    the path and found the parent it issues exactly one, so there is
    exactly one in all.

    When that create is not reported and the other ranks resolve
    the path and find the parent, rank 0 enters the barrier behind its
    create, and every other rank looks the parent up, enters the
    barrier and then opens the same leaf without O_CREAT and O_EXCL:
    [N - 1] such opens.

    When that create is reported as failed, rank 0 leaves through
    [out] and never enters the barrier; every other rank that got as
    far as the barrier stays in it and issues no open. *)
Theorem create_shared_protocol N path param :
  filePerProc param = 0 -> (1 < N)%nat ->
  (forall r, r <> O ->
     calls_of N r (Some path) param exclusive_create = O) /\
  (calls_of N 0 (Some path) param exclusive_create <= 1)%nat /\
  (fst (fst (parse_filename (env 0) (Some path) true true)) < 0 \/
   (exists name dir,
      parse_filename (env 0) (Some path) true true
      = (0, Some name, Some dir) /\
      fst (dfs_lookup 0 dir O_RDWR) < 0) ->
   count_over N (fun r => calls_of N r (Some path) param exclusive_create)
   = O) /\
  (forall name dir,
     parse_filename (env 0) (Some path) true true
     = (0, Some name, Some dir) ->
     0 <= fst (dfs_lookup 0 dir O_RDWR) ->
     let parent := snd (dfs_lookup 0 dir O_RDWR) in
     let file_mode := Z.lor S_IFREG (mode param) in
     let created :=
       dfs_open 0 parent name file_mode excl_flags DAOS_OC_LARGE_RW in
     (calls_of N 0 (Some path) param exclusive_create = 1%nat /\
      count_over N (fun r => calls_of N r (Some path) param exclusive_create)
      = 1%nat) /\
     (0 <= fst created ->
      (forall r, (0 < r < N)%nat ->
         parse_filename (env r) (Some path) true true
         = (0, Some name, Some dir)) ->
      (forall r, (0 < r < N)%nat -> 0 <= fst (dfs_lookup r dir O_RDWR)) ->
      snd (DFS_Create N 0 (Some path) param)
      = [Cr_lookup dir O_RDWR;
         Cr_open parent name file_mode excl_flags DAOS_OC_LARGE_RW;
         Cr_barrier] ++ released parent /\
      (forall r, (0 < r < N)%nat ->
         snd (DFS_Create N r (Some path) param)
         = [Cr_lookup dir O_RDWR; Cr_barrier;
            Cr_open (snd (dfs_lookup r dir O_RDWR)) name file_mode
              open_flags DAOS_OC_LARGE_RW]
           ++ released (snd (dfs_lookup r dir O_RDWR))) /\
      count_over N (fun r => calls_of N r (Some path) param plain_open)
      = (N - 1)%nat) /\
     (fst created < 0 ->
      DFS_Create N 0 (Some path) param
      = (Cr_returns (snd created),
         [Cr_lookup dir O_RDWR;
          Cr_open parent name file_mode excl_flags DAOS_OC_LARGE_RW]
         ++ released parent) /\
      (forall r name' dir',
         r <> O ->
         parse_filename (env r) (Some path) true true
         = (0, Some name', Some dir') ->
         0 <= fst (dfs_lookup r dir' O_RDWR) ->
         DFS_Create N r (Some path) param
         = (Cr_waits, [Cr_lookup dir' O_RDWR; Cr_barrier])) /\
      count_over N (fun r => calls_of N r (Some path) param plain_open)
      = O)).
Proof.
  intros Hf HN.
  assert (Peers : forall r, r <> O ->
            calls_of N r (Some path) param exclusive_create = O).
  { intros r Hr. now apply peer_never_creates. }
  destruct N as [|M]; [lia|].
  split; [exact Peers|].
  split; [apply rank0_creates_at_most_once|]. split.
  { intros Hfail. rewrite (count_over_first M _ 0%nat).
    - rewrite (coordinator_no_create _ _ _ Hfail). lia.
    - intros r Hr. apply Peers. lia. }
  intros name dir Hp Hl. cbv zeta.
  pose proof (coordinator_creates_once (S M) path param name dir Hp Hl) as C0.
  pose proof (before_coordinator path param name dir Hp Hl) as B0.
  split; [|split].
  - split; [exact C0|].
    rewrite (count_over_first M _ 0%nat).
    + rewrite C0. lia.
    + intros r Hr. apply Peers. lia.
  - intros Hcr Hres Hfound.
    assert (Hres' : forall r, (r < S M)%nat ->
              parse_filename (env r) (Some path) true true
              = (0, Some name, Some dir)).
    { intros [|r] Hr; [exact Hp|apply Hres; lia]. }
    assert (Hfound' : forall r, (r < S M)%nat ->
              0 <= fst (dfs_lookup r dir O_RDWR)).
    { intros [|r] Hr; [exact Hl|apply Hfound; lia]. }
    pose proof (log_rank0 (S M) path name dir param Hf Hres' Hfound' Hcr)
      as L0.
    pose proof (log_peer (S M) path name dir param Hf Hres' Hfound' Hcr)
      as Lp.
    split; [apply L0; lia|]. split; [exact Lp|].
    rewrite (count_over_first M _ 1%nat).
    + unfold calls_of at 1. rewrite L0 by lia.
      rewrite filter_app, filter_released by auto. cbn. lia.
    + intros r Hr. unfold calls_of. rewrite Lp by exact Hr.
      rewrite filter_app, filter_released by auto. reflexivity.
  - intros Hcr. apply Z.ltb_lt in Hcr. rewrite Hcr in B0.
    assert (Stuck : all_arrive
                      (fun r => create_before r (Some path) param) (S M)
                    = false).
    { destruct (all_arrive _ _) eqn:E; [|reflexivity].
      rewrite all_arrive_iff in E. specialize (E O).
      rewrite B0 in E. cbn [arrived] in E. symmetry. apply E. lia. }
    assert (Follower : forall r name' dir',
              r <> O ->
              parse_filename (env r) (Some path) true true
              = (0, Some name', Some dir') ->
              0 <= fst (dfs_lookup r dir' O_RDWR) ->
              DFS_Create (S M) r (Some path) param
              = (Cr_waits, [Cr_lookup dir' O_RDWR; Cr_barrier])).
    { intros r name' dir' Hr Hp' Hl'. unfold DFS_Create.
      rewrite (before_follower r path param name' dir' Hf Hr Hp' Hl').
      rewrite Stuck. reflexivity. }
    split; [|split].
    + unfold DFS_Create. rewrite B0. reflexivity.
    + exact Follower.
    + rewrite (count_over_first M _ 0%nat).
      * unfold calls_of at 1, DFS_Create. rewrite B0. cbn [snd].
        set (parent := snd (dfs_lookup 0 dir O_RDWR)).
        change (List.length
                  (filter plain_open
                     ([Cr_lookup dir O_RDWR;
                       Cr_open parent name (Z.lor S_IFREG (mode param))
                         excl_flags DAOS_OC_LARGE_RW]
                      ++ released parent)) + M * 0 = 0)%nat.
        rewrite filter_app, filter_released by auto. cbn. lia.
      * intros r Hr. apply follower_stuck; [exact Hf|lia|exact Stuck].
Qed.

End Create.

Arguments Cr_lookup {obj} dir flags.
Arguments Cr_open {obj} parent name mode flags oclass.
Arguments Cr_barrier {obj}.
Arguments Cr_release {obj} parent.
Arguments Cr_returns {obj} o.
Arguments Cr_assert {obj} cond.
Arguments Cr_waits {obj}.
Arguments exclusive_create {obj} c.
Arguments plain_open {obj} c.

(** *** A small namespace to run the protocol on

    Objects are named by their path.  The one directory is
    "/mnt/dfs"; it holds the file "old".  An exclusive create of an
    existing name fails with DER_EXIST, any call on a missing name
    with DER_NONEXIST. *)
Module Namespace.

Definition DER_EXIST : Z := 1004.
Definition DER_NONEXIST : Z := 1005.

Definition env (r : nat) : Path.penv := Path.ior_home.

Definition dfs_lookup (r : nat) (dir : string) (flags : Z)
  : Z * option string :=
  if String.eqb dir "/mnt/dfs" then (0, Some dir) else (- DER_NONEXIST, None).

Definition dfs_open (r : nat) (parent : option string) (name : string)
           (mode flags oclass : Z) : Z * option string :=
  match parent with
  | None => (- DER_NONEXIST, None)
  | Some p =>
      if has_flag flags O_CREAT then
        if String.eqb name "old" && has_flag flags O_EXCL
        then (- DER_EXIST, None)
        else (0, Some (p ++ "/" ++ name)%string)
      else (0, Some (p ++ "/" ++ name)%string)
  end.

Definition create (N r : nat) (path : string) (per_proc : Z) :=
  DFS_Create string 1 env dfs_lookup dfs_open N r (Some path)
    {| offset := 0; singleXferAttempt := 0; filePerProc := per_proc;
       mode := 436 |}.

Definition creates (N : nat) (path : string) (per_proc : Z) : nat :=
  count_over N (fun r =>
    List.length (filter exclusive_create (snd (create N r path per_proc)))).

Example three_ranks_rank0 :
  create 3 0 "/mnt/dfs/testFile" 0
  = (Cr_returns (Some "/mnt/dfs/testFile"%string),
     [Cr_lookup "/mnt/dfs" 2;
      Cr_open (Some "/mnt/dfs"%string) "testFile" 33204 194 1;
      Cr_barrier; Cr_release "/mnt/dfs"%string]).
Proof. vm_compute. reflexivity. Qed.

Example three_ranks_rank2 :
  create 3 2 "/mnt/dfs/testFile" 0
  = (Cr_returns (Some "/mnt/dfs/testFile"%string),
     [Cr_lookup "/mnt/dfs" 2; Cr_barrier;
      Cr_open (Some "/mnt/dfs"%string) "testFile" 33204 2 1;
      Cr_release "/mnt/dfs"%string]).
Proof. vm_compute. reflexivity. Qed.

(** File per process: every rank creates. *)
Example three_ranks_own_files :
  creates 3 "/mnt/dfs/testFile" 1 = 3%nat.
Proof. vm_compute. reflexivity. Qed.

(** Rank 0's create fails on the existing name: it leaves through
    [out] before the barrier, and the other ranks are left in it. *)
Example create_fails_peers_wait :
  create 3 0 "/mnt/dfs/old" 0
  = (Cr_returns None,
     [Cr_lookup "/mnt/dfs" 2;
      Cr_open (Some "/mnt/dfs"%string) "old" 33204 194 1;
      Cr_release "/mnt/dfs"%string]) /\
  create 3 1 "/mnt/dfs/old" 0
  = (Cr_waits, [Cr_lookup "/mnt/dfs" 2; Cr_barrier]).
Proof. vm_compute. split; reflexivity. Qed.

End Namespace.

Definition shared_mode_436 : IOR_param_t :=
  {| offset := 0; singleXferAttempt := 0; filePerProc := 0; mode := 436 |}.

(** Three ranks on a new name, and three ranks on the existing name
    "old". *)
Lemma create_shared_protocol_witness :
  (Namespace.creates 3 "/mnt/dfs/testFile" 0 = 1%nat /\
   snd (Namespace.create 3 1 "/mnt/dfs/testFile" 0)
   = [Cr_lookup "/mnt/dfs" 2; Cr_barrier;
      Cr_open (Some "/mnt/dfs"%string) "testFile" 33204 2 1;
      Cr_release "/mnt/dfs"%string]) /\
  (Namespace.creates 3 "/mnt/dfs/old" 0 = 1%nat /\
   Namespace.create 3 0 "/mnt/dfs/old" 0
   = (Cr_returns None,
      [Cr_lookup "/mnt/dfs" 2;
       Cr_open (Some "/mnt/dfs"%string) "old" 33204 194 1;
       Cr_release "/mnt/dfs"%string]) /\
   Namespace.create 3 2 "/mnt/dfs/old" 0
   = (Cr_waits, [Cr_lookup "/mnt/dfs" 2; Cr_barrier])).
Proof.
  split.
  - destruct (create_shared_protocol string 1 Namespace.env
                Namespace.dfs_lookup Namespace.dfs_open 3 "/mnt/dfs/testFile"
                shared_mode_436 eq_refl) as (_ & _ & _ & H); [lia|].
    destruct (H "testFile"%string "/mnt/dfs"%string) as ((_ & H1) & H2 & _).
    + reflexivity.
    + vm_compute. discriminate.
    + destruct H2 as (_ & H3 & _).
      * vm_compute. discriminate.
      * intros r _. reflexivity.
      * intros r _. vm_compute. discriminate.
      * split; [exact H1|]. apply (H3 1%nat). lia.
  - destruct (create_shared_protocol string 1 Namespace.env
                Namespace.dfs_lookup Namespace.dfs_open 3 "/mnt/dfs/old"
                shared_mode_436 eq_refl) as (_ & _ & _ & H); [lia|].
    destruct (H "old"%string "/mnt/dfs"%string) as ((_ & H1) & _ & H2).
    + reflexivity.
    + vm_compute. discriminate.
    + destruct H2 as (H3 & H4 & _).
      * vm_compute. reflexivity.
      * split; [exact H1|]. split; [exact H3|].
        apply (H4 2%nat "old"%string "/mnt/dfs"%string).
        -- discriminate.
        -- reflexivity.
        -- vm_compute. discriminate.
Defined.

(** Two ranks, a shared file, and a parent directory that does not
    exist: both ranks leave through [out] and no create is issued. *)
Example create_without_parent :
  Namespace.creates 2 "/nowhere/testFile" 0 = 0%nat /\
  Namespace.create 2 0 "/nowhere/testFile" 0
  = (Cr_returns None, [Cr_lookup "/nowhere" 2]) /\
  Namespace.create 2 1 "/nowhere/testFile" 0
  = (Cr_returns None, [Cr_lookup "/nowhere" 2]).
Proof. vm_compute. repeat split. Qed.

Arguments Acc_lookup {obj} dir flags.
Arguments Acc_stat {obj} parent name.
Arguments Acc_release {obj} parent.

(** An engine for DFS_Access: objects are named by their path, the
    one directory is "/mnt/dfs" and it holds the file "old". *)
Definition demo_lookup (dir : string) (flags : Z) : Z * option string :=
  if String.eqb dir "/mnt/dfs" then (0, Some dir) else (-1005, None).

Definition demo_stat (parent : option string) (name : option string) : Z :=
  match parent, name with
  | None, _ => -1005
  | Some _, None => 0
  | Some _, Some n => if String.eqb n "old" then 0 else -1005
  end.

Example access_missing_file :
  DFS_Access string demo_lookup demo_stat Path.ior_home
    (Some "/mnt/dfs/new"%string)
  = (Returns (-1),
     [Acc_lookup "/mnt/dfs" 2;
      Acc_stat (Some "/mnt/dfs"%string) (Some "new"%string);
      Acc_release "/mnt/dfs"%string]).
Proof. reflexivity. Qed.

Lemma access_dot_stats_parent_witness :
  Path.parse_filename Path.ior_home (Some "/mnt/dfs/."%string) true true
  = (0, Some "."%string, Some "/mnt/dfs"%string) /\
  DFS_Access string demo_lookup demo_stat Path.ior_home
    (Some "/mnt/dfs/."%string)
  = (Returns 0,
     [Acc_lookup "/mnt/dfs" 2;
      Acc_stat (Some "/mnt/dfs"%string) None;
      Acc_release "/mnt/dfs"%string]) /\
  fst (DFS_Access string demo_lookup demo_stat Path.ior_home
         (Some "/mnt/dfs/."%string)) = Returns 0.
Proof.
  split; [reflexivity|]. split; [reflexivity|].
  apply (access_dot_stats_parent string demo_lookup demo_stat
           Path.ior_home "/mnt/dfs/."%string "/mnt/dfs"%string eq_refl).
  split; [vm_compute; discriminate|reflexivity].
Defined.

(** ** DFS_GetFileSize *)

Definition Zsum (xs : list Z) : Z := fold_right Z.add 0 xs.

Definition s64 (x : Z) : Prop := 0 <= x < 2 ^ 63.

(** MPI_Allreduce over MPI_LONG_LONG_INT: the buffers are read as
    signed 64-bit values. *)
Definition allreduce_sum (xs : list Z) : Z :=
  to_s64 (fold_right (fun x acc => to_s64 x + acc) 0 xs).

Definition allreduce_min (xs : list Z) : Z :=
  match map to_s64 xs with
  | [] => 0
  | x :: l => fold_left Z.min l x
  end.

Definition allreduce_max (xs : list Z) : Z :=
  match map to_s64 xs with
  | [] => 0
  | x :: l => fold_left Z.max l x
  end.

(** *** The reductions on sizes that fit a signed 64-bit value *)

Lemma map_to_s64_id xs : Forall s64 xs -> map to_s64 xs = xs.
Proof.
  induction 1 as [|x xs Hx _ IH]; simpl; [reflexivity|].
  unfold s64 in Hx. rewrite IH, to_s64_small by lia. reflexivity.
Qed.

Lemma Zsum_nonneg xs : Forall s64 xs -> 0 <= Zsum xs.
Proof.
  induction 1 as [|x xs Hx _ IH]; simpl; [lia|]. unfold s64 in Hx. lia.
Qed.

Lemma allreduce_sum_small xs :
  Forall s64 xs -> Zsum xs < 2 ^ 63 -> allreduce_sum xs = Zsum xs.
Proof.
  intros Hxs Hsum. unfold allreduce_sum.
  assert (E : fold_right (fun x acc => to_s64 x + acc) 0 xs = Zsum xs).
  { clear Hsum. induction Hxs as [|x xs Hx _ IH]; simpl; [reflexivity|].
    unfold s64 in Hx. rewrite IH, to_s64_small by lia. reflexivity. }
  rewrite E. pose proof (Zsum_nonneg xs Hxs). apply to_s64_small. lia.
Qed.

Lemma fold_min_spec l : forall x,
  fold_left Z.min l x <= x /\
  Forall (fun y => fold_left Z.min l x <= y) l /\
  (fold_left Z.min l x = x \/ In (fold_left Z.min l x) l).
Proof.
  induction l as [|a l IH]; intros x; simpl.
  - repeat split; [lia|constructor|auto].
  - destruct (IH (Z.min x a)) as (H1 & H2 & H3). repeat split.
    + lia.
    + constructor; [lia|exact H2].
    + destruct H3 as [H3|H3]; [|auto].
      rewrite H3. destruct (Z.min_spec x a) as [[_ ->]|[_ ->]]; auto.
Qed.

Lemma fold_max_spec l : forall x,
  x <= fold_left Z.max l x /\
  Forall (fun y => y <= fold_left Z.max l x) l.
Proof.
  induction l as [|a l IH]; intros x; simpl.
  - split; [lia|constructor].
  - destruct (IH (Z.max x a)) as (H1 & H2). split.
    + lia.
    + constructor; [lia|exact H2].
Qed.

(** On a non-empty list of such sizes MPI_MIN delivers an element
    below all others, and MPI_MAX a value above them. *)
Lemma allreduce_min_spec xs :
  Forall s64 xs -> xs <> [] ->
  In (allreduce_min xs) xs /\ Forall (fun y => allreduce_min xs <= y) xs.
Proof.
  intros Hxs Hne. unfold allreduce_min. rewrite map_to_s64_id by exact Hxs.
  destruct xs as [|x l]; [contradiction|].
  destruct (fold_min_spec l x) as (H1 & H2 & H3). split.
  - destruct H3 as [->|H3]; [left; reflexivity|right; exact H3].
  - constructor; assumption.
Qed.

Lemma allreduce_max_spec xs :
  Forall s64 xs -> xs <> [] -> Forall (fun y => y <= allreduce_max xs) xs.
Proof.
  intros Hxs Hne. unfold allreduce_max. rewrite map_to_s64_id by exact Hxs.
  destruct xs as [|x l]; [contradiction|].
  destruct (fold_max_spec l x) as (H1 & H2). constructor; assumption.
Qed.

Lemma allreduce_max_in xs :
  Forall s64 xs -> xs <> [] -> In (allreduce_max xs) xs.
Proof.
  intros Hxs Hne. unfold allreduce_max. rewrite map_to_s64_id by exact Hxs.
  destruct xs as [|x l]; [contradiction|]. clear Hxs Hne.
  revert x. induction l as [|a l IH]; intros x; [left; reflexivity|].
  cbn [fold_left]. destruct (IH (Z.max x a)) as [H|H].
  - rewrite <- H.
    destruct (Z.max_spec x a) as [[_ ->]|[_ ->]]; simpl; auto.
  - simpl. auto.
Qed.

Section FileSize.

(** iordef.h *)
Variable TRUE : Z.

(** What rank [r] gets from the engine for the file: the status of
    [dfs_lookup], the status of [dfs_get_size], and the size. *)
Variable observe : nat -> Z * Z * Z.

Inductive size_end : Type :=
| Sz_returns (v : Z)
| Sz_waits.            (* in MPI_Allreduce, for a rank that left *)

Definition inconsistent : string :=
  "inconsistent file size by different tasks".

(** Lines 604-614: a rank whose lookup or size query fails returns -1
    and takes no part in the reduction. *)
Definition size_before (rank : nat) : arrival Z (size_end * list string) :=
  let '(rc_lookup, rc_size, fsize) := observe rank in
  if negb (rc_lookup =? 0) then Leaves (Sz_returns (-1), [])
  else if negb (rc_size =? 0) then Leaves (Sz_returns (-1), [])
  else Arrives (to_u64 fsize).

(** The sizes the ranks bring to the reduction. *)
Definition contributions (N : nat) : list Z :=
  map (fun r => match size_before r with
                | Arrives fsize => fsize
                | Leaves _ => 0
                end) (seq 0 N).

(** Lines 616-637; the second component is what WARN printed. *)
Definition size_after (N rank : nat) (test : IOR_param_t) (fsize : Z)
  : size_end * list string :=
  if filePerProc test =? TRUE then
    let tmpSum := to_u64 (allreduce_sum (contributions N)) in
    (Sz_returns (to_s64 tmpSum), [])
  else
    let tmpMin := to_u64 (allreduce_min (contributions N)) in
    let tmpMax := to_u64 (allreduce_max (contributions N)) in
    if negb (tmpMin =? tmpMax) then
      (Sz_returns (to_s64 tmpMin),
       if (rank =? 0)%nat then [inconsistent] else [])
    else (Sz_returns (to_s64 fsize), []).

Definition DFS_GetFileSize (N rank : nat) (test : IOR_param_t)
  : size_end * list string :=
  match size_before rank with
  | Leaves r => r
  | Arrives fsize =>
      if all_arrive size_before N then size_after N rank test fsize
      else (Sz_waits, [])
  end.

Lemma map_nth_seq (l : list Z) :
  map (fun r => nth r l 0) (seq 0 (List.length l)) = l.
Proof.
  induction l as [|a l IH]; [reflexivity|].
  cbn [List.length seq map nth]. f_equal.
  rewrite <- seq_shift, map_map. exact IH.
Qed.

Section Observed.

(** Every rank finds the file and reads a size; [sizes] lists them by
    rank, each within [long long]. *)
Variable sizes : list Z.
Hypothesis observed : forall r, (r < List.length sizes)%nat ->
  observe r = (0, 0, nth r sizes 0).
Hypothesis fits : Forall s64 sizes.

Lemma nth_fits r : (r < List.length sizes)%nat -> s64 (nth r sizes 0).
Proof.
  intros Hr. rewrite Forall_forall in fits. apply fits. now apply nth_In.
Qed.

Lemma size_before_observed r :
  (r < List.length sizes)%nat -> size_before r = Arrives (nth r sizes 0).
Proof.
  intros Hr. unfold size_before. rewrite (observed r Hr). simpl.
  pose proof (nth_fits r Hr) as H. unfold s64 in H.
  rewrite to_u64_small by lia. reflexivity.
Qed.

Lemma contributions_observed : contributions (List.length sizes) = sizes.
Proof.
  unfold contributions. rewrite <- (map_nth_seq sizes) at 2.
  apply map_ext_in. intros r Hr. apply in_seq in Hr.
  rewrite size_before_observed by lia. reflexivity.
Qed.

Lemma everyone_reduces : all_arrive size_before (List.length sizes) = true.
Proof.
  apply all_arrive_iff. intros r Hr.
  rewrite size_before_observed by exact Hr. reflexivity.
Qed.

Lemma GetFileSize_observed rank test :
  (rank < List.length sizes)%nat ->
  DFS_GetFileSize (List.length sizes) rank test
  = if filePerProc test =? TRUE
    then (Sz_returns (to_s64 (to_u64 (allreduce_sum sizes))), [])
    else if negb (to_u64 (allreduce_min sizes) =? to_u64 (allreduce_max sizes))
    then (Sz_returns (to_s64 (to_u64 (allreduce_min sizes))),
          if (rank =? 0)%nat then [inconsistent] else [])
    else (Sz_returns (to_s64 (nth rank sizes 0)), []).
Proof.
  intros Hr. unfold DFS_GetFileSize, size_after.
  rewrite size_before_observed, everyone_reduces by exact Hr.
  rewrite contributions_observed. reflexivity.
Qed.

End Observed.

(** C5.  Every rank has read a size (each, and their sum, within
    [long long]).  With a file per process every rank reports the sum
    of the sizes.  With a shared file, when all ranks read the same
    size every rank reports it and nothing is printed; when two ranks
    read different sizes every rank reports the least of the sizes,
    and rank 0 prints the inconsistency warning. *)
Theorem filesize_aggregate sizes test rank :
  (forall r, (r < List.length sizes)%nat ->
     observe r = (0, 0, nth r sizes 0)) ->
  Forall s64 sizes ->
  (rank < List.length sizes)%nat ->
  (filePerProc test = TRUE -> Zsum sizes < 2 ^ 63 ->
   DFS_GetFileSize (List.length sizes) rank test
   = (Sz_returns (Zsum sizes), [])) /\
  (filePerProc test <> TRUE ->
   (forall s, Forall (eq s) sizes ->
      DFS_GetFileSize (List.length sizes) rank test = (Sz_returns s, [])) /\
   ((exists a b, In a sizes /\ In b sizes /\ a <> b) ->
    exists m, In m sizes /\ Forall (fun s => m <= s) sizes /\
      DFS_GetFileSize (List.length sizes) rank test
      = (Sz_returns m, if (rank =? 0)%nat then [inconsistent] else []))).
Proof.
  intros Hobs Hfit Hr.
  assert (Hne : sizes <> []) by (destruct sizes; simpl in Hr; [lia|discriminate]).
  pose proof (allreduce_min_spec sizes Hfit Hne) as [Hmin_in Hmin_le].
  pose proof (allreduce_max_spec sizes Hfit Hne) as Hmax_ge.
  pose proof (allreduce_max_in sizes Hfit Hne) as Hmax_in.
  assert (Hin : forall x, In x sizes -> 0 <= x < 2 ^ 63).
  { intros x Hx. rewrite Forall_forall in Hfit. exact (Hfit x Hx). }
  rewrite (GetFileSize_observed sizes Hobs Hfit rank test Hr).
  split.
  - intros Hpp Hsum. apply Z.eqb_eq in Hpp. rewrite Hpp.
    rewrite allreduce_sum_small by assumption.
    pose proof (Zsum_nonneg sizes Hfit).
    rewrite to_u64_small, to_s64_small by lia. reflexivity.
  - intros Hsh. apply Z.eqb_neq in Hsh. rewrite Hsh. split.
    + intros s Hs. rewrite Forall_forall in Hs.
      rewrite <- (Hs _ Hmin_in), <- (Hs _ Hmax_in), Z.eqb_refl. simpl.
      assert (Hn : In (nth rank sizes 0) sizes) by now apply nth_In.
      pose proof (Hin _ Hn) as Rn.
      rewrite to_s64_small by lia. rewrite <- (Hs _ Hn). reflexivity.
    + intros (a & b & Ha & Hb & Hab).
      pose proof (Hin _ Hmin_in) as Rmin. pose proof (Hin _ Hmax_in) as Rmax.
      rewrite Forall_forall in Hmin_le, Hmax_ge.
      pose proof (Hmin_le a Ha). pose proof (Hmin_le b Hb).
      pose proof (Hmax_ge a Ha). pose proof (Hmax_ge b Hb).
      rewrite !to_u64_small by lia.
      assert (E : (allreduce_min sizes =? allreduce_max sizes) = false) by lia.
      rewrite E. simpl. exists (allreduce_min sizes).
      split; [exact Hmin_in|]. split.
      * apply Forall_forall. exact Hmin_le.
      * rewrite to_s64_small by lia. reflexivity.
Qed.

End FileSize.

(** ** DFS_Finalize *)

Section Finalize.

(** [o.destroy], and the statuses the engine answers: per rank for
    the calls every rank makes, one for rank 0's destroy. *)
Variable destroy : Z.
Variable dfs_umount : nat -> Z.
Variable daos_cont_close : nat -> Z.
Variable daos_cont_destroy : Z.
Variable daos_fini : nat -> Z.

Inductive fin_call : Type :=
| Fin_umount
| Fin_cont_close
| Fin_cont_destroy
| Fin_bcast (rc : Z)        (* MPI_Bcast, and [rc] as it is afterwards *)
| Fin_pool_disconnect
| Fin_fini.

Inductive fin_end : Type :=
| Fin_returns
| Fin_exits (msg : string) (rc : Z)   (* DCHECK: message with [rc], exit(-1) *)
| Fin_waits.                          (* in MPI_Bcast, for a rank that left *)

Definition msg_umount : string := "Failed to umount DFS namespace".
Definition msg_close : string := "Failed to close container".
Definition msg_destroy : string := "Failed to destroy container %s (%d)".
Definition msg_disconnect : string := "Failed to disconnect from pool".
Definition msg_fini : string := "Failed to finalize DAOS".

(** Lines 362-375: up to the broadcast; a rank arrives with its [rc]. *)
Definition finalize_before (rank : nat)
  : arrival (Z * list fin_call) (fin_end * list fin_call) :=
  let rc := dfs_umount rank in
  if reported rc then Leaves (Fin_exits msg_umount rc, [Fin_umount])
  else
    let rc := daos_cont_close rank in
    if reported rc
    then Leaves (Fin_exits msg_close rc, [Fin_umount; Fin_cont_close])
    else if (rank =? 0)%nat && negb (destroy =? 0)
    then Arrives (daos_cont_destroy,
                  [Fin_umount; Fin_cont_close; Fin_cont_destroy])
    else Arrives (rc, [Fin_umount; Fin_cont_close]).

(** Lines 377-385: [rc] is now rank 0's. *)
Definition finalize_after (rank : nat) (rc : Z) (log : list fin_call)
  : fin_end * list fin_call :=
  let log := log ++ [Fin_bcast rc] in
  if negb (rc =? 0) && reported rc then (Fin_exits msg_destroy rc, log)
  else
    let log := log ++ [Fin_pool_disconnect] in
    if reported rc then (Fin_exits msg_disconnect rc, log)
    else
      let rc := daos_fini rank in
      let log := log ++ [Fin_fini] in
      if reported rc then (Fin_exits msg_fini rc, log)
      else (Fin_returns, log).

(** The value rank 0 sends. *)
Definition root_rc : Z :=
  match finalize_before 0 with
  | Arrives (rc, _) => rc
  | Leaves _ => 0
  end.

Definition DFS_Finalize (N rank : nat) : fin_end * list fin_call :=
  match finalize_before rank with
  | Leaves r => r
  | Arrives (_, log) =>
      if all_arrive finalize_before N then finalize_after rank root_rc log
      else (Fin_waits, log)
  end.

(** *** The destroy status *)

Section Destroying.

(** The container is to be destroyed, and unmount and close are
    reported as failed on no rank. *)
Variable N : nat.
Hypothesis destroying : destroy <> 0.
Hypothesis closed : forall r, (r < N)%nat ->
  0 <= dfs_umount r /\ 0 <= daos_cont_close r.

Definition before_log (r : nat) : list fin_call :=
  if (r =? 0)%nat then [Fin_umount; Fin_cont_close; Fin_cont_destroy]
  else [Fin_umount; Fin_cont_close].

Lemma finalize_before_closed r :
  (r < N)%nat ->
  finalize_before r
  = Arrives (if (r =? 0)%nat then daos_cont_destroy else daos_cont_close r,
             before_log r).
Proof.
  intros Hr. destruct (closed r Hr) as [Hu Hc].
  unfold finalize_before, before_log, reported.
  destruct (dfs_umount r <? 0) eqn:E1; [lia|].
  destruct (daos_cont_close r <? 0) eqn:E2; [lia|].
  assert (E3 : (destroy =? 0) = false) by lia. rewrite E3.
  destruct (r =? 0)%nat; reflexivity.
Qed.

Lemma root_sends_destroy_status : (0 < N)%nat -> root_rc = daos_cont_destroy.
Proof.
  intros HN. unfold root_rc. rewrite finalize_before_closed by exact HN.
  reflexivity.
Qed.

Lemma everyone_receives : all_arrive finalize_before N = true.
Proof.
  apply all_arrive_iff. intros r Hr.
  rewrite finalize_before_closed by exact Hr. reflexivity.
Qed.

Lemma Finalize_closed r :
  (r < N)%nat ->
  DFS_Finalize N r = finalize_after r daos_cont_destroy (before_log r).
Proof.
  intros Hr. unfold DFS_Finalize.
  rewrite finalize_before_closed, everyone_receives by exact Hr.
  rewrite root_sends_destroy_status by lia. reflexivity.
Qed.

End Destroying.

(** With destroy requested and unmount and close passed on every
    rank, every rank comes out of the broadcast holding rank 0's
    destroy status; what it does next depends on the sign only. *)
Lemma finalize_received N r :
  destroy <> 0 ->
  (forall q, (q < N)%nat -> 0 <= dfs_umount q /\ 0 <= daos_cont_close q) ->
  (r < N)%nat ->
  In (Fin_bcast daos_cont_destroy) (snd (DFS_Finalize N r)) /\
  (daos_cont_destroy < 0 ->
   DFS_Finalize N r
   = (Fin_exits msg_destroy daos_cont_destroy,
      before_log r ++ [Fin_bcast daos_cont_destroy])) /\
  (0 <= daos_cont_destroy ->
   DFS_Finalize N r
   = (if reported (daos_fini r) then Fin_exits msg_fini (daos_fini r)
      else Fin_returns,
      before_log r ++ [Fin_bcast daos_cont_destroy; Fin_pool_disconnect;
                       Fin_fini])).
Proof.
  intros Hd Hc Hr. rewrite (Finalize_closed N Hd Hc r Hr).
  unfold finalize_after, reported.
  destruct (daos_cont_destroy <? 0) eqn:E.
  - assert (E0 : (daos_cont_destroy =? 0) = false) by lia. rewrite E0.
    cbn [negb andb snd]. split; [|split].
    + apply in_or_app. right. left. reflexivity.
    + reflexivity.
    + lia.
  - rewrite andb_false_r. rewrite <- !app_assoc. cbn [app].
    destruct (daos_fini r <? 0); cbn [snd]; (split; [|split]).
    + apply in_or_app. right. left. reflexivity.
    + lia.
    + reflexivity.
    + apply in_or_app. right. left. reflexivity.
    + lia.
    + reflexivity.
Qed.

(** C7.  The status of a DAOS call is 0 or a negative error code:
    DCHECK ("For DAOS methods") tests [rc < 0], and DFS_Init compares
    a status with [-DER_NONEXIST].  With destroy requested, and
    unmount and close passed on every rank so that every rank reaches
    the broadcast, every rank comes out of it holding rank 0's destroy
    status, and all meet the same end on it.  A non-zero status ends
    every rank through DCHECK with the destroy message and that very
    status, before the pool is disconnected.  On status zero no rank
    ends there: each disconnects and shuts the client down, and ends
    as its own [daos_fini] says. *)
Theorem finalize_destroy_status N r :
  destroy <> 0 ->
  daos_cont_destroy <= 0 ->
  (forall q, (q < N)%nat -> 0 <= dfs_umount q /\ 0 <= daos_cont_close q) ->
  (r < N)%nat ->
  In (Fin_bcast daos_cont_destroy) (snd (DFS_Finalize N r)) /\
  (daos_cont_destroy <> 0 ->
   DFS_Finalize N r
   = (Fin_exits msg_destroy daos_cont_destroy,
      before_log r ++ [Fin_bcast daos_cont_destroy]) /\
   forall q, (q < N)%nat ->
     fst (DFS_Finalize N q) = Fin_exits msg_destroy daos_cont_destroy) /\
  (daos_cont_destroy = 0 ->
   DFS_Finalize N r
   = (if reported (daos_fini r) then Fin_exits msg_fini (daos_fini r)
      else Fin_returns,
      before_log r ++ [Fin_bcast 0; Fin_pool_disconnect; Fin_fini]) /\
   forall q msg rc, (q < N)%nat ->
     fst (DFS_Finalize N q) <> Fin_exits msg_destroy rc /\
     (fst (DFS_Finalize N q) = Fin_exits msg rc ->
      msg = msg_fini /\ rc = daos_fini q /\ rc < 0)).
Proof.
  intros Hd Hs Hc Hr.
  destruct (finalize_received N r Hd Hc Hr) as (Hin & Hneg & Hpos).
  split; [exact Hin|]. split.
  - intros Hnz. split; [apply Hneg; lia|].
    intros q Hq.
    destruct (finalize_received N q Hd Hc Hq) as (_ & Hq' & _).
    rewrite Hq' by lia. reflexivity.
  - intros Hz. split.
    + rewrite Hpos by lia. rewrite Hz. reflexivity.
    + intros q msg rc Hq.
      destruct (finalize_received N q Hd Hc Hq) as (_ & _ & Hq').
      rewrite Hq' by lia. cbn [fst]. unfold reported.
      destruct (daos_fini q <? 0) eqn:E.
      * split; [intros H; injection H as H _; discriminate H|].
        intros H. injection H as <- <-. repeat split; lia.
      * split; discriminate.
Qed.

End Finalize.

(** *** Runs of the two collective queries *)

Definition observe_list (sizes : list Z) (r : nat) : Z * Z * Z :=
  (0, 0, nth r sizes 0).

Definition per_process : IOR_param_t :=
  {| offset := 0; singleXferAttempt := 0; filePerProc := 1; mode := 436 |}.

Definition shared_file : IOR_param_t :=
  {| offset := 0; singleXferAttempt := 0; filePerProc := 0; mode := 436 |}.

(** A rank that does not find the file returns -1 and leaves the
    others in the reduction. *)
Example filesize_missing_on_one_rank :
  let observe r := if (r =? 1)%nat then (-1005, 0, 0) else (0, 0, 100) in
  DFS_GetFileSize 1 observe 3 1 shared_file = (Sz_returns (-1), []) /\
  DFS_GetFileSize 1 observe 3 0 shared_file = (Sz_waits, []).
Proof. vm_compute. split; reflexivity. Qed.

Lemma filesize_aggregate_witness :
  DFS_GetFileSize 1 (observe_list [10; 20; 30]) 3 1 per_process
  = (Sz_returns 60, []) /\
  DFS_GetFileSize 1 (observe_list [100; 100; 100]) 3 2 shared_file
  = (Sz_returns 100, []) /\
  DFS_GetFileSize 1 (observe_list [100; 100; 90]) 3 0 shared_file
  = (Sz_returns 90, [inconsistent]) /\
  DFS_GetFileSize 1 (observe_list [100; 100; 90]) 3 1 shared_file
  = (Sz_returns 90, []).
Proof.
  assert (F : forall a b c, s64 a -> s64 b -> s64 c -> Forall s64 [a; b; c]).
  { intros a b c Ha Hb Hc.
    apply Forall_cons; [exact Ha|]. apply Forall_cons; [exact Hb|].
    apply Forall_cons; [exact Hc|]. apply Forall_nil. }
  assert (S10 : s64 10) by (unfold s64; lia).
  assert (S20 : s64 20) by (unfold s64; lia).
  assert (S30 : s64 30) by (unfold s64; lia).
  assert (S90 : s64 90) by (unfold s64; lia).
  assert (S100 : s64 100) by (unfold s64; lia).
  assert (L : forall (a b c : Z) r, (r < 3)%nat ->
                (r < List.length [a; b; c])%nat) by (intros a b c r H; exact H).
  split; [|split; [|split]].
  - destruct (filesize_aggregate 1 (observe_list [10; 20; 30]) [10; 20; 30]
                per_process 1%nat (fun r _ => eq_refl) (F _ _ _ S10 S20 S30))
      as [H _].
    + apply L. lia.
    + apply H; [reflexivity|simpl; lia].
  - destruct (filesize_aggregate 1 (observe_list [100; 100; 100])
                [100; 100; 100] shared_file 2%nat (fun r _ => eq_refl)
                (F _ _ _ S100 S100 S100)) as [_ H].
    + apply L. lia.
    + destruct H as [H _]; [simpl; discriminate|].
      apply H. repeat constructor.
  - destruct (filesize_aggregate 1 (observe_list [100; 100; 90])
                [100; 100; 90] shared_file 0%nat (fun r _ => eq_refl)
                (F _ _ _ S100 S100 S90)) as [_ H].
    + apply L. lia.
    + destruct H as [_ H]; [simpl; discriminate|].
      destruct H as (m & Hin & Hle & E).
      * exists 100, 90. simpl. repeat split; auto. lia.
      * cbn [List.length] in E. rewrite E. clear E.
        inversion Hle as [|? ? _ Hle1]; subst.
        inversion Hle1 as [|? ? _ Hle2]; subst.
        inversion Hle2 as [|? ? H90 _]; subst.
        simpl in Hin. assert (m = 90) as -> by lia. reflexivity.
  - vm_compute. reflexivity.
Defined.

(** Statuses for DFS_Finalize: unmount, close and shutdown succeed on
    every rank. *)
Definition finalize_with (destroy destroy_rc : Z) (N r : nat) :=
  DFS_Finalize destroy (fun _ => 0) (fun _ => 0) destroy_rc (fun _ => 0) N r.

Lemma finalize_destroy_status_witness :
  finalize_with 1 (-1012) 3 2
  = (Fin_exits msg_destroy (-1012),
     [Fin_umount; Fin_cont_close; Fin_bcast (-1012)]) /\
  finalize_with 1 0 3 0
  = (Fin_returns,
     [Fin_umount; Fin_cont_close; Fin_cont_destroy; Fin_bcast 0;
      Fin_pool_disconnect; Fin_fini]).
Proof.
  split.
  - apply (finalize_destroy_status 1 (fun _ => 0) (fun _ => 0) (-1012)
             (fun _ => 0) 3 2).
    + discriminate.
    + lia.
    + intros q _. lia.
    + lia.
    + lia.
  - apply (finalize_destroy_status 1 (fun _ => 0) (fun _ => 0) 0
             (fun _ => 0) 3 0).
    + discriminate.
    + lia.
    + intros q _. lia.
    + lia.
    + reflexivity.
Defined.

(** * Further properties *)

(** ** DFS_Xfer: how long a transfer runs and how it can end *)

Section TransferRuns.

Variables (WRITE TRUE MAX_RETRY : Z).
Variable engine : Type.
Variable dfs_write : engine -> Z -> Z -> Z -> Z * engine.
Variable dfs_read : engine -> Z -> Z -> Z -> (Z * Z) * engine.

Local Abbreviation Xfer := (DFS_Xfer WRITE TRUE MAX_RETRY engine dfs_write dfs_read).
Local Abbreviation loop := (xfer_loop WRITE TRUE MAX_RETRY engine dfs_write dfs_read).
Local Abbreviation body := (xfer_body WRITE TRUE MAX_RETRY engine dfs_write dfs_read).
Local Abbreviation init := (xfer_init engine).

(** From a state with [xferRetries = x] the loop issues at most
    [MAX_RETRY + 2 - x] calls, and at least room for one. *)
Lemma xfer_loop_calls access length fuel :
  forall s o s', loop fuel access length s = (o, s') ->
  exists cs, calls s' = calls s ++ cs /\
    (remaining s <= 0 -> cs = []) /\
    Z.of_nat (List.length cs) <= Z.max 1 (MAX_RETRY + 2 - xferRetries s).
Proof.
  induction fuel as [|fuel IH]; intros s o s'; simpl.
  - destruct (remaining s >? 0) eqn:Hr; intros E; injection E as <- <-;
      exists []; rewrite app_nil_r; simpl; repeat split; lia.
  - destruct (remaining s >? 0) eqn:Hr.
    2:{ intros E; injection E as <- <-.
        exists []; rewrite app_nil_r; simpl; repeat split; lia. }
    destruct (body access s) as [s1|o1 s1] eqn:Hb.
    + apply xfer_body_continue in Hb
        as (c & (Hc & _) & _ & Hm & Hrem & _ & Hx & Hshort).
      intros E. apply IH in E as (cs & E1 & E2 & E3).
      exists (c :: cs). rewrite E1, Hc, <- app_assoc.
      split; [reflexivity|]. split; [lia|].
      destruct (Z.eq_dec (moved c) (remaining s)) as [Heq|Hne].
      * rewrite E2 by lia. simpl. lia.
      * destruct Hshort as [_ Hle]; [lia|].
        rewrite Hx in E3. cbn [List.length]. lia.
    + apply xfer_body_stop in Hb as (c & (Hc & _) & _).
      intros E. injection E as <- <-.
      exists [c]. split; [exact Hc|]. split; [lia|]. simpl. lia.
Qed.

(** X1.  Whatever the engine answers and however the run ends, a
    transfer issues at most [MAX_RETRY + 2] read or write calls (one,
    when MAX_RETRY is below -1). *)
Theorem xfer_attempts_bounded access e buffer length param :
  Z.of_nat (List.length (calls (snd (Xfer access e buffer length param))))
  <= Z.max 1 (MAX_RETRY + 2).
Proof.
  unfold DFS_Xfer.
  destruct (loop _ _ _ _) as [o s'] eqn:E. cbn [snd].
  apply xfer_loop_calls in E as (cs & E1 & _ & E3).
  simpl in E1, E3. rewrite E1. rewrite Z.sub_0_r in E3. exact E3.
Qed.

(** A read books what [dfs_read] left in [ret]: under an engine that
    delivers at most [k] bytes a call, no logged call books more. *)
Lemma xfer_loop_read_sizes access length k fuel :
  (access =? WRITE) = false ->
  (forall e p len off, to_u64 (snd (fst (dfs_read e p len off))) <= k) ->
  forall s o s', loop fuel access length s = (o, s') ->
  exists cs, calls s' = calls s ++ cs /\ Forall (fun c => moved c <= k) cs.
Proof.
  intros Ha Hk. induction fuel as [|fuel IH]; intros s o s'; simpl.
  - destruct (remaining s >? 0); intros E; injection E as <- <-;
      exists []; rewrite app_nil_r; auto.
  - destruct (remaining s >? 0).
    2:{ intros E; injection E as <- <-. exists []; rewrite app_nil_r; auto. }
    unfold xfer_body. rewrite Ha.
    specialize (Hk (eng s) (ptr s) (remaining s) (offset (par s))).
    destruct (dfs_read _ _ _ _) as [[rc r] e]. cbn [fst snd] in Hk.
    set (c := Call_read (ptr s) (remaining s) (offset (par s)) rc (to_u64 r)).
    destruct (xfer_account _ _ _ _ _) as [s2|o2 s2] eqn:Hacc.
    + apply xfer_account_continue in Hacc as (_ & _ & _ & _ & _ & _ & Hc & _).
      intros E. apply IH in E as (cs & E1 & E2).
      exists (c :: cs). rewrite E1, Hc. simpl. rewrite <- app_assoc.
      split; [reflexivity|]. constructor; [exact Hk|exact E2].
    + apply xfer_account_stop in Hacc as [-> _].
      intros E. injection E as <- <-.
      exists [c]. split; [reflexivity|]. constructor; [exact Hk|constructor].
Qed.

Lemma total_moved_le k cs :
  0 <= k -> Forall (fun c => moved c <= k) cs ->
  total_moved cs <= k * Z.of_nat (List.length cs).
Proof.
  intros Hk. induction 1 as [|c cs Hc _ IH]; [simpl; lia|].
  cbn [total_moved fold_right List.length]. fold (total_moved cs). nia.
Qed.

(** X2.  The retry counter counts attempts, not failures: a read of
    more than [k * (MAX_RETRY + 2)] bytes from an engine that delivers
    at most [k] bytes a call never returns, although every attempt may
    have made progress; it ends fatally. *)
Theorem xfer_slow_read_is_fatal access e buffer length param k :
  access <> WRITE ->
  (forall e' p len off, to_u64 (snd (fst (dfs_read e' p len off))) <= k) ->
  k * Z.max 1 (MAX_RETRY + 2) < length ->
  is_fatal (fst (Xfer access e buffer length param)) = true.
Proof.
  intros Ha Hk Hlen.
  assert (Hk0 : 0 <= k).
  { specialize (Hk e 0 0 0).
    pose proof (to_u64_range (snd (fst (dfs_read e 0 0 0)))). lia. }
  pose proof (DFS_Xfer_total WRITE TRUE MAX_RETRY engine dfs_write dfs_read
                access e buffer length param) as Htot.
  apply Z.eqb_neq in Ha. unfold DFS_Xfer in *.
  destruct (loop _ _ _ _) as [o s'] eqn:E. cbn [fst] in *.
  destruct o as [v| | | |]; try reflexivity; [|congruence].
  exfalso.
  pose proof (xfer_loop_reads _ _ _ _ _ _ _ _ _ Ha _ _ _ E eq_refl) as Hw.
  pose proof (xfer_loop_calls _ _ _ _ _ _ E) as (cs & C1 & _ & C3).
  pose proof (xfer_loop_read_sizes _ _ k _ Ha Hk _ _ _ E) as (cs' & D1 & D2).
  rewrite C1 in D1. apply app_inv_head in D1. subst cs'.
  apply xfer_loop_returns in E as (cs'' & E1 & E2); [|simpl; nia].
  rewrite C1 in E1. apply app_inv_head in E1. subst cs''.
  simpl in C1. rewrite C1 in Hw. destruct (E2 Hw) as (_ & T & _).
  simpl in T, C3. rewrite Z.sub_0_r in C3.
  pose proof (total_moved_le k cs Hk0 D2). nia.
Qed.

(** A write never trips the checks behind the call: [ret] is the
    remainder itself. *)
Lemma xfer_loop_write_ends length fuel :
  forall s o s', loop fuel WRITE length s = (o, s') ->
  o = Returns length \/ o = Returns (-1) \/ o = OutOfFuel.
Proof.
  induction fuel as [|fuel IH]; intros s o s'; simpl.
  - destruct (remaining s >? 0); intros E; injection E as <- <-; auto.
  - destruct (remaining s >? 0) eqn:Hr; [|intros E; injection E as <- <-; auto].
    unfold xfer_body. rewrite Z.eqb_refl.
    destruct (dfs_write _ _ _ _) as [rc e].
    destruct (rc =? 0); cbn [negb].
    + unfold xfer_account. cbn [remaining log].
      rewrite Z.ltb_irrefl. cbn [andb].
      destruct (0 <=? remaining s) eqn:H0; [|lia].
      rewrite Z.leb_refl. cbn [negb]. apply IH.
    + intros E; injection E as <- <-; auto.
Qed.

(** A read leaves the loop early through the checks only. *)
Lemma xfer_loop_read_ends access length fuel :
  (access =? WRITE) = false ->
  forall s o s', loop fuel access length s = (o, s') ->
  o = Returns length \/ is_fatal o = true \/ o = OutOfFuel.
Proof.
  intros Ha. induction fuel as [|fuel IH]; intros s o s'; simpl.
  - destruct (remaining s >? 0); intros E; injection E as <- <-; auto.
  - destruct (remaining s >? 0); [|intros E; injection E as <- <-; auto].
    unfold xfer_body. rewrite Ha.
    destruct (dfs_read _ _ _ _) as [[rc r] e].
    destruct (xfer_account _ _ _ _ _) as [s2|o2 s2] eqn:Hacc.
    + apply IH.
    + apply xfer_account_stop in Hacc as [_ Hf].
      intros E; injection E as <- <-; auto.
Qed.

(** X3.  The two directions fail differently.  A write always comes
    back to the caller, with the requested length or with -1, and
    never ends the process.  A read comes back only with the
    requested length; every failure of a read ends the process. *)
Theorem xfer_ends_by_direction e buffer length param :
  (fst (Xfer WRITE e buffer length param) = Returns length \/
   fst (Xfer WRITE e buffer length param) = Returns (-1)) /\
  (forall access, access <> WRITE ->
     fst (Xfer access e buffer length param) = Returns length \/
     is_fatal (fst (Xfer access e buffer length param)) = true).
Proof.
  split.
  - pose proof (DFS_Xfer_total WRITE TRUE MAX_RETRY engine dfs_write dfs_read
                  WRITE e buffer length param) as Htot.
    unfold DFS_Xfer in *.
    destruct (loop _ _ _ _) as [o s'] eqn:E. cbn [fst] in *.
    apply xfer_loop_write_ends in E as [->|[->| ->]]; auto; congruence.
  - intros access Ha.
    pose proof (DFS_Xfer_total WRITE TRUE MAX_RETRY engine dfs_write dfs_read
                  access e buffer length param) as Htot.
    apply Z.eqb_neq in Ha. unfold DFS_Xfer in *.
    destruct (loop _ _ _ _) as [o s'] eqn:E. cbn [fst] in *.
    apply (xfer_loop_read_ends _ _ _ Ha) in E as [->|[Hf| ->]]; auto;
      congruence.
Qed.

(** X4.  Under single-attempt semantics a transfer makes one call
    to the engine at most: a short answer ends the process, a full
    one ends the loop. *)
Theorem xfer_single_attempt_one_call access e buffer length param :
  singleXferAttempt param = TRUE ->
  (List.length (calls (snd (Xfer access e buffer length param))) <= 1)%nat.
Proof.
  intros Hs. unfold DFS_Xfer, xfer_fuel. cbn [xfer_loop].
  destruct (remaining (init e buffer length param) >? 0) eqn:Hr;
    [|simpl; lia].
  destruct (body access (init e buffer length param)) as [s1|o1 s1] eqn:Hb.
  - apply xfer_body_continue in Hb
      as (c & (Hc & Hp & _) & _ & Hm & Hrem & _ & _ & Hshort).
    destruct (Z.eq_dec (moved c) (remaining (init e buffer length param)))
      as [Heq|Hne].
    + rewrite xfer_loop_done by lia. cbn [snd]. rewrite Hc. simpl. lia.
    + destruct Hshort as [Hns _]; [lia|]. simpl in Hns. contradiction.
  - apply xfer_body_stop in Hb as (c & (Hc & _) & _).
    cbn [snd]. rewrite Hc. simpl. lia.
Qed.

End TransferRuns.

(** An engine that delivers two bytes a read at most, and always
    writes. *)
Module Trickle.

Definition dfs_write (e : unit) (p len off : Z) : Z * unit := (0, e).

Definition dfs_read (e : unit) (p len off : Z) : (Z * Z) * unit :=
  ((0, Z.max 0 (Z.min len 2)), e).

Definition run (max_retry access length single : Z) : outcome * xstate unit :=
  DFS_Xfer 0 1 max_retry unit dfs_write dfs_read access tt 4096 length
    (Scripted.at_offset 0 single).

(** Ten bytes take five reads, which MAX_RETRY 3 just allows; twelve
    would take six. *)
Example ten_bytes : fst (run 3 2 10 0) = Returns 10.
Proof. vm_compute. reflexivity. Qed.

Example twelve_bytes :
  fst (run 3 2 12 0) = Aborts "too many retries -- aborting".
Proof. vm_compute. reflexivity. Qed.

End Trickle.

Lemma xfer_slow_read_is_fatal_witness :
  is_fatal (fst (Trickle.run 3 2 12 0)) = true.
Proof.
  apply (xfer_slow_read_is_fatal 0 1 3 unit Trickle.dfs_write
           Trickle.dfs_read 2 tt 4096 12 (Scripted.at_offset 0 0) 2).
  - discriminate.
  - intros e' p len off. unfold Trickle.dfs_read. cbn [fst snd].
    rewrite to_u64_small; lia.
  - vm_compute. reflexivity.
Defined.

Lemma xfer_ends_by_direction_witness :
  fst (Trickle.run 3 2 10 0) = Returns 10 \/
  is_fatal (fst (Trickle.run 3 2 10 0)) = true.
Proof.
  apply (xfer_ends_by_direction 0 1 3 unit Trickle.dfs_write
           Trickle.dfs_read tt 4096 10 (Scripted.at_offset 0 0)).
  discriminate.
Defined.

Lemma xfer_single_attempt_one_call_witness :
  (List.length (calls (snd (Trickle.run 3 2 10 1))) <= 1)%nat /\
  fst (Trickle.run 3 2 10 1) = Exits (-1).
Proof.
  split.
  - apply (xfer_single_attempt_one_call 0 1 3 unit Trickle.dfs_write
             Trickle.dfs_read 2 tt 4096 10 (Scripted.at_offset 0 1)).
    reflexivity.
  - vm_compute. reflexivity.
Defined.

(** ** parse_filename: when it succeeds and what it hands out *)

Module PathFacts.

Import Path.
Local Open Scope string_scope.

Lemma head_char_app (a b : string) :
  a <> "" -> head_char (a ++ b) = head_char a.
Proof. destruct a; [congruence|reflexivity]. Qed.

Lemma resolve_dir_some env h cont_name :
  resolve_dir env h cont_name <> None <->
  (h <> O /\
   (head_char cont_name = slash \/ (String.length (cwd env) < 1024)%nat)).
Proof.
  unfold resolve_dir, getcwd.
  destruct (Ascii.eqb_spec (head_char cont_name) dot) as [Hd|Hd];
    destruct (Ascii.eqb_spec (head_char cont_name) slash) as [Hs|Hs];
    cbn [orb negb].
  - rewrite Hd in Hs. discriminate.
  - destruct (String.length (cwd env) <? 1024)%nat eqn:Hc.
    + apply Nat.ltb_lt in Hc. destruct h.
      * split; [congruence|intros [H _]; congruence].
      * destruct (cont_name =? ".");
          (split; [intros _; split; [discriminate|auto]|discriminate]).
    + apply Nat.ltb_ge in Hc.
      split; [congruence|]. intros [_ [H|H]]; [congruence|lia].
  - destruct h.
    + split; [congruence|intros [H _]; congruence].
    + split; [intros _; split; [discriminate|auto]|discriminate].
  - destruct (String.length (cwd env) <? 1024)%nat eqn:Hc.
    + apply Nat.ltb_lt in Hc. destruct h.
      * split; [congruence|intros [H _]; congruence].
      * destruct (cont_name =? ".");
          (split; [intros _; split; [discriminate|auto]|discriminate]).
    + apply Nat.ltb_ge in Hc.
      split; [congruence|]. intros [_ [H|H]]; [congruence|lia].
Qed.

Lemma resolve_dir_heap env h cont_name dir h' :
  resolve_dir env h cont_name = Some (dir, h') -> h = S h'.
Proof.
  unfold resolve_dir.
  destruct (_ || _).
  - destruct (getcwd env 1024); [|discriminate].
    destruct h; [discriminate|].
    destruct (cont_name =? "."); [intros E; injection E as _ <-; reflexivity|].
    destruct (Ascii.eqb _ _); intros E; injection E as _ <-; reflexivity.
  - destruct h; [discriminate|]. intros E; injection E as _ <-; reflexivity.
Qed.

(** X5.  For a path other than "/", the resolver succeeds exactly
    when the heap serves its four allocations and, for a directory
    part that does not start with a slash, the working directory fits
    the 1024-byte buffer.  Every failure, a working directory that is
    too long included, is reported as -ENOMEM with both results left
    NULL. *)
Theorem parse_filename_succeeds_iff env path :
  path <> "/" ->
  (fst (fst (parse_filename env (Some path) true true)) = 0 <->
   (4 <= heap env)%nat /\
   (head_char (dirname path) = slash \/
    (String.length (cwd env) < 1024)%nat)) /\
  (fst (fst (parse_filename env (Some path) true true)) <> 0 ->
   parse_filename env (Some path) true true = (- ENOMEM, None, None)).
Proof.
  intros Hp. apply String.eqb_neq in Hp.
  unfold parse_filename. cbn [negb orb]. rewrite Hp.
  destruct (heap env) as [|[|h]].
  - cbn. split; [split; [discriminate|lia]|reflexivity].
  - cbn. split; [split; [discriminate|lia]|reflexivity].
  - pose proof (resolve_dir_some env h (dirname path)) as Hsome.
    destruct (resolve_dir env h (dirname path)) as [[dir h']|] eqn:Hres.
    + apply resolve_dir_heap in Hres. subst h.
      destruct h' as [|h'].
      * cbn. split; [split; [discriminate|lia]|reflexivity].
      * cbn [fst]. split; [|congruence].
        split; [intros _|reflexivity].
        split; [lia|]. apply Hsome. discriminate.
    + cbn. split; [|reflexivity]. split; [discriminate|].
      intros [Hh Hd]. exfalso.
      assert (Hn : None <> @None (string * nat) -> False) by congruence.
      apply Hn. apply Hsome. split; [lia|exact Hd].
Qed.

(** X6.  In a process whose working directory is absolute, every
    parent the resolver hands out is absolute. *)
Theorem parse_filename_parent_absolute env path obj_out cont_out name dir :
  head_char (cwd env) = slash ->
  parse_filename env path obj_out cont_out = (0, name, Some dir) ->
  head_char dir = slash.
Proof.
  intros Hcwd. unfold parse_filename.
  destruct path as [path|]; [|discriminate].
  destruct (negb obj_out || negb cont_out); [discriminate|].
  destruct (path =? "/").
  { destruct (heap env); [discriminate|].
    intros E; injection E as _ <-. reflexivity. }
  destruct (heap env) as [|[|h]]; try discriminate.
  destruct (resolve_dir env h (dirname path)) as [[d h']|] eqn:Hres;
    [|discriminate].
  destruct h'; [discriminate|]. intros E; injection E as _ <-.
  revert Hres. unfold resolve_dir, getcwd.
  assert (Hne : cwd env <> "")
    by (intros E; rewrite E in Hcwd; discriminate).
  destruct (Ascii.eqb (head_char (dirname path)) dot) eqn:Hd;
    destruct (Ascii.eqb (head_char (dirname path)) slash) eqn:Hs;
    cbn [orb negb].
  - destruct (_ <? _)%nat; [|discriminate]. destruct h; [discriminate|].
    destruct (dirname path =? ".");
      intros E; injection E as <- _; [exact Hcwd|].
    now rewrite head_char_app.
  - destruct (_ <? _)%nat; [|discriminate]. destruct h; [discriminate|].
    destruct (dirname path =? ".");
      intros E; injection E as <- _; [exact Hcwd|].
    now rewrite head_char_app.
  - destruct h; [discriminate|]. intros E; injection E as <- _.
    now apply Ascii.eqb_eq.
  - destruct (_ <? _)%nat; [|discriminate]. destruct h; [discriminate|].
    destruct (dirname path =? ".");
      intros E; injection E as <- _; [exact Hcwd|].
    now rewrite head_char_app.
Qed.

Lemma drop_while_head f l c t : drop_while f l = c :: t -> f c = false.
Proof.
  induction l as [|a l IH]; simpl; [discriminate|].
  destruct (f a) eqn:Ha; [exact IH|]. intros E; injection E as <- _. exact Ha.
Qed.

Lemma take_while_all f l : Forall (fun c => f c = true) (take_while f l).
Proof.
  induction l as [|a l IH]; simpl; [constructor|].
  destruct (f a) eqn:Ha; constructor; assumption.
Qed.

(** What basename hands out: ".", "/", or a non-empty run of
    characters without a slash. *)
Lemma basename_shape path :
  basename path = "." \/ basename path = "/" \/
  exists l, l <> [] /\ Forall (fun c => c <> slash) l /\
            basename path = string_of_list_ascii l.
Proof.
  unfold basename. destruct (list_ascii_of_string path) as [|a l]; [auto|].
  destruct (drop_while is_slash (rev (a :: l))) as [|c t] eqn:Hd; [auto|].
  right. right. apply drop_while_head in Hd.
  exists (rev (take_while (fun c => negb (is_slash c)) (c :: t))).
  split; [|split; [|reflexivity]].
  - cbn [take_while]. rewrite Hd. cbn [negb rev].
    intros E. apply app_eq_nil in E as [_ E]. discriminate.
  - apply Forall_rev.
    eapply Forall_impl; [|apply take_while_all].
    intros x Hx Hs. subst x. unfold is_slash in Hx.
    rewrite Ascii.eqb_refl in Hx. discriminate.
Qed.

(** X7.  A leaf handed out by the resolver is never empty, and it
    holds no separator unless it is "/" itself, the leaf of a path
    made of slashes only. *)
Theorem parse_filename_leaf env path obj_out cont_out name dir :
  parse_filename env path obj_out cont_out = (0, Some name, dir) ->
  name <> "" /\
  (name = "/" \/
   forall c, In c (list_ascii_of_string name) -> c <> slash).
Proof.
  unfold parse_filename.
  destruct path as [path|]; [|discriminate].
  destruct (negb obj_out || negb cont_out); [discriminate|].
  destruct (path =? "/").
  { destruct (heap env); discriminate. }
  destruct (heap env) as [|[|h]]; try discriminate.
  destruct (resolve_dir env h (dirname path)) as [[d h']|]; [|discriminate].
  destruct h'; [discriminate|]. intros E; injection E as <- _.
  destruct (basename_shape path) as [->|[->|(l & Hne & Hall & ->)]].
  - split; [discriminate|]. right. intros c [<-|[]]. discriminate.
  - split; [discriminate|]. left. reflexivity.
  - split.
    + destruct l; [congruence|discriminate].
    + right. intros c Hc. rewrite list_ascii_of_string_of_list_ascii in Hc.
      rewrite Forall_forall in Hall. exact (Hall c Hc).
Qed.

(** X8.  When the directory part starts neither with a slash nor
    with a dot, the parent handed out is as long as the whole buffer
    that line 252 reserves for it: the terminator that strcat writes
    lies one byte behind the buffer. *)
Theorem parse_filename_join_fills_buffer env path name dir :
  head_char (dirname path) <> slash ->
  head_char (dirname path) <> dot ->
  parse_filename env (Some path) true true = (0, name, Some dir) ->
  dir = cwd env ++ "/" ++ dirname path /\
  String.length dir = new_dir_reserved (cwd env) (dirname path) /\
  new_dir_stored (cwd env) (dirname path)
  = S (new_dir_reserved (cwd env) (dirname path)).
Proof.
  intros Hs Hd. unfold parse_filename. cbn [negb orb].
  destruct (path =? "/") eqn:Hp.
  { apply String.eqb_eq in Hp. subst path. exfalso. apply Hs. reflexivity. }
  destruct (heap env) as [|[|h]]; try discriminate.
  unfold resolve_dir, getcwd.
  apply Ascii.eqb_neq in Hs, Hd. rewrite Hs, Hd. cbn [orb negb].
  destruct (_ <? _)%nat; [|discriminate].
  destruct h as [|h]; [discriminate|].
  destruct (dirname path =? ".") eqn:E.
  { apply String.eqb_eq in E. rewrite E in Hd. discriminate. }
  destruct h; [discriminate|]. intros H; injection H as _ <-.
  split; [reflexivity|]. unfold new_dir_stored, new_dir_reserved.
  rewrite Hd, !length_app. simpl. lia.
Qed.

End PathFacts.

Lemma parse_filename_succeeds_iff_witness :
  fst (fst (Path.parse_filename Path.ior_home (Some "out/testFile"%string)
              true true)) = 0 /\
  Path.parse_filename {| Path.cwd := "/home/ior"; Path.heap := 3 |}
    (Some "out/testFile"%string) true true
  = (- Path.ENOMEM, None, None).
Proof.
  split.
  - apply (PathFacts.parse_filename_succeeds_iff Path.ior_home
             "out/testFile"%string).
    + discriminate.
    + split; [simpl; lia|]. right. simpl. lia.
  - apply (PathFacts.parse_filename_succeeds_iff
             {| Path.cwd := "/home/ior"; Path.heap := 3 |}
             "out/testFile"%string).
    + discriminate.
    + vm_compute. discriminate.
Defined.

Lemma parse_filename_parent_absolute_witness :
  Path.head_char "/home/ior/out" = Path.slash.
Proof.
  apply (PathFacts.parse_filename_parent_absolute Path.ior_home
           (Some "out/testFile"%string) true true (Some "testFile"%string)
           "/home/ior/out"%string); reflexivity.
Defined.

Lemma parse_filename_leaf_witness :
  "testFile"%string <> ""%string /\
  ("testFile"%string = "/"%string \/
   forall c, In c (list_ascii_of_string "testFile") -> c <> Path.slash).
Proof.
  apply (PathFacts.parse_filename_leaf Path.ior_home
           (Some "out/testFile"%string) true true "testFile"%string
           (Some "/home/ior/out"%string)).
  reflexivity.
Defined.

Lemma parse_filename_join_fills_buffer_witness :
  String.length "/home/ior/out" = 13%nat /\
  Path.new_dir_reserved "/home/ior" "out" = 13%nat /\
  Path.new_dir_stored "/home/ior" "out" = 14%nat.
Proof.
  destruct (PathFacts.parse_filename_join_fills_buffer Path.ior_home
              "out/testFile"%string (Some "testFile"%string)
              "/home/ior/out"%string) as (_ & H1 & H2).
  - discriminate.
  - discriminate.
  - reflexivity.
  - split; [reflexivity|]. split; [reflexivity|exact H2].
Defined.

(** ** DFS_GetFileSize: one answer for all ranks, or none *)

Lemma to_s64_range x : - 2 ^ 63 <= to_s64 x < 2 ^ 63.
Proof.
  unfold to_s64. pose proof (Z.mod_pos_bound (x + 2 ^ 63) (2 ^ 64)). lia.
Qed.

Lemma to_u64_of_s64 a b :
  - 2 ^ 63 <= a < 2 ^ 63 -> - 2 ^ 63 <= b < 2 ^ 63 ->
  to_u64 a = to_u64 b -> a = b.
Proof.
  unfold to_u64. intros Ha Hb E.
  rewrite (Z.mod_eq a), (Z.mod_eq b) in E by lia.
  assert (Qa : a / 2 ^ 64 = 0 \/ a / 2 ^ 64 = -1).
  { destruct (Z_lt_le_dec a 0).
    - right. symmetry. apply (Z.div_unique a (2 ^ 64) (-1) (a + 2 ^ 64)); lia.
    - left. apply Z.div_small. lia. }
  assert (Qb : b / 2 ^ 64 = 0 \/ b / 2 ^ 64 = -1).
  { destruct (Z_lt_le_dec b 0).
    - right. symmetry. apply (Z.div_unique b (2 ^ 64) (-1) (b + 2 ^ 64)); lia.
    - left. apply Z.div_small. lia. }
  destruct Qa as [Qa|Qa], Qb as [Qb|Qb]; rewrite Qa, Qb in E; lia.
Qed.

Lemma fold_max_in l : forall x,
  fold_left Z.max l x = x \/ In (fold_left Z.max l x) l.
Proof.
  induction l as [|a l IH]; intros x; simpl; [auto|].
  destruct (IH (Z.max x a)) as [H|H]; [|auto].
  rewrite H. destruct (Z.max_spec x a) as [[_ ->]|[_ ->]]; auto.
Qed.

(** Over any non-empty list the two reductions deliver 64-bit signed
    values that enclose every contribution read as signed. *)
Lemma allreduce_min_max xs :
  xs <> [] ->
  - 2 ^ 63 <= allreduce_min xs < 2 ^ 63 /\
  - 2 ^ 63 <= allreduce_max xs < 2 ^ 63 /\
  Forall (fun y => allreduce_min xs <= to_s64 y <= allreduce_max xs) xs.
Proof.
  intros Hne. unfold allreduce_min, allreduce_max.
  assert (R : Forall (fun z => - 2 ^ 63 <= z < 2 ^ 63) (map to_s64 xs)).
  { apply Forall_forall. intros z Hz. apply in_map_iff in Hz as (y & <- & _).
    apply to_s64_range. }
  assert (A : Forall (fun y => In (to_s64 y) (map to_s64 xs)) xs).
  { apply Forall_forall. intros y Hy. now apply in_map. }
  destruct (map to_s64 xs) as [|x l] eqn:E.
  { destruct xs; [contradiction|discriminate]. }
  destruct (fold_min_spec l x) as (M1 & M2 & M3).
  destruct (fold_max_spec l x) as (N1 & N2).
  pose proof (fold_max_in l x) as N3.
  rewrite Forall_forall in R, M2, N2.
  split; [|split].
  - destruct M3 as [->|M3]; apply R; [left; reflexivity|right; exact M3].
  - destruct N3 as [->|N3]; apply R; [left; reflexivity|right; exact N3].
  - eapply Forall_impl; [|exact A]. intros y [<-|Hy]; [lia|].
    split; [apply M2|apply N2]; exact Hy.
Qed.

Section FileSizeAgreement.

Variable TRUE : Z.
Variable observe : nat -> Z * Z * Z.

Local Abbreviation GetFileSize := (DFS_GetFileSize TRUE observe).
Local Abbreviation before := (size_before observe).

Definition finds (r : nat) : Prop :=
  fst (fst (observe r)) = 0 /\ snd (fst (observe r)) = 0.

Lemma size_before_finds r :
  finds r -> before r = Arrives (to_u64 (snd (observe r))).
Proof.
  unfold finds, size_before. destruct (observe r) as [[a b] c].
  cbn [fst snd]. intros [-> ->]. reflexivity.
Qed.

Lemma size_before_fails r :
  ~ finds r -> before r = Leaves (Sz_returns (-1), []).
Proof.
  unfold finds, size_before. destruct (observe r) as [[a b] c].
  cbn [fst snd]. intros H.
  destruct (a =? 0) eqn:Ha; [|reflexivity].
  destruct (b =? 0) eqn:Hb; [|reflexivity].
  exfalso. apply H. lia.
Qed.

(** Two ranks of a run in which every rank finds the file end
    alike: in the branch that keeps the rank's own size, minimum and
    maximum coincide, so the own size is the common one. *)
Lemma GetFileSize_agree N test r1 r2 :
  (forall r, (r < N)%nat -> finds r) ->
  (r1 < N)%nat -> (r2 < N)%nat ->
  fst (GetFileSize N r1 test) = fst (GetFileSize N r2 test).
Proof.
  intros Hall H1 H2.
  assert (Hgo : all_arrive before N = true).
  { apply all_arrive_iff. intros r Hr.
    rewrite size_before_finds by auto. reflexivity. }
  unfold DFS_GetFileSize.
  rewrite !size_before_finds, Hgo by auto. unfold size_after.
  destruct (filePerProc test =? TRUE); [reflexivity|].
  set (cs := contributions observe N).
  assert (Hin : forall r, (r < N)%nat -> In (to_u64 (snd (observe r))) cs).
  { intros r Hr. unfold cs, contributions. apply in_map_iff.
    exists r. rewrite size_before_finds by auto.
    split; [reflexivity|]. apply in_seq. lia. }
  assert (Hne : cs <> []).
  { intros E. specialize (Hin r1 H1). rewrite E in Hin. contradiction. }
  destruct (allreduce_min_max cs Hne) as (Rmin & Rmax & Hbetween).
  destruct (to_u64 (allreduce_min cs) =? to_u64 (allreduce_max cs)) eqn:E;
    cbn [negb fst]; [|reflexivity].
  apply Z.eqb_eq in E. apply to_u64_of_s64 in E; [|assumption|assumption].
  rewrite Forall_forall in Hbetween.
  pose proof (Hbetween _ (Hin r1 H1)). pose proof (Hbetween _ (Hin r2 H2)).
  f_equal. lia.
Qed.

(** A rank of such a run returns. *)
Lemma GetFileSize_returns N test r :
  (forall q, (q < N)%nat -> finds q) -> (r < N)%nat ->
  exists v, GetFileSize N r test
            = (Sz_returns v,
               snd (size_after TRUE observe N r test
                      (to_u64 (snd (observe r))))).
Proof.
  intros Hall Hr.
  assert (Hgo : all_arrive before N = true).
  { apply all_arrive_iff. intros q Hq.
    rewrite size_before_finds by auto. reflexivity. }
  unfold DFS_GetFileSize. rewrite size_before_finds, Hgo by auto.
  unfold size_after. destruct (filePerProc test =? TRUE).
  - eexists. reflexivity.
  - destruct (negb _); eexists; reflexivity.
Qed.

(** X9.  When every rank finds the file and reads its size, every
    rank returns from DFS_GetFileSize, none is left in the reduction,
    and all return one and the same value, whatever the sizes and the
    mode. *)
Theorem filesize_same_on_all_ranks N test :
  (forall r, (r < N)%nat -> finds r) ->
  exists v, forall r, (r < N)%nat ->
    fst (GetFileSize N r test) = Sz_returns v.
Proof.
  intros Hall. destruct N as [|M].
  - exists 0. intros r Hr. lia.
  - destruct (GetFileSize_returns (S M) test 0 Hall) as [v Hv]; [lia|].
    exists v. intros r Hr.
    rewrite (GetFileSize_agree (S M) test r 0 Hall Hr) by lia.
    rewrite Hv. reflexivity.
Qed.

(** X10.  A rank that does not find the file, or cannot read its
    size, returns -1 before the reduction; the ranks that did are then
    left in MPI_Allreduce, and no rank gets a size. *)
Theorem filesize_failure_strands_others N test q r :
  (q < N)%nat -> ~ finds q ->
  GetFileSize N q test = (Sz_returns (-1), []) /\
  (finds r -> GetFileSize N r test = (Sz_waits, [])).
Proof.
  intros Hq Hfail.
  assert (Hgo : all_arrive before N = false).
  { destruct (all_arrive before N) eqn:E; [|reflexivity].
    rewrite all_arrive_iff in E. specialize (E q Hq).
    rewrite size_before_fails in E by exact Hfail. discriminate. }
  unfold DFS_GetFileSize. split.
  - rewrite size_before_fails by exact Hfail. reflexivity.
  - intros Hr. rewrite size_before_finds, Hgo by exact Hr. reflexivity.
Qed.

End FileSizeAgreement.

Lemma filesize_same_on_all_ranks_witness :
  exists v, forall r, (r < 3)%nat ->
    fst (DFS_GetFileSize 1 (observe_list [100; 100; 90]) 3 r shared_file)
    = Sz_returns v.
Proof.
  apply (filesize_same_on_all_ranks 1 (observe_list [100; 100; 90]) 3
           shared_file).
  intros r _. split; reflexivity.
Defined.

Definition observe_missing_on_1 (r : nat) : Z * Z * Z :=
  if (r =? 1)%nat then (-1005, 0, 0) else (0, 0, 100).

Lemma filesize_failure_strands_others_witness :
  DFS_GetFileSize 1 observe_missing_on_1 3 1 shared_file
  = (Sz_returns (-1), []) /\
  DFS_GetFileSize 1 observe_missing_on_1 3 0 shared_file = (Sz_waits, []).
Proof.
  destruct (filesize_failure_strands_others 1 observe_missing_on_1 3
              shared_file 1 0) as [H1 H2].
  - lia.
  - intros [H _]. vm_compute in H. discriminate.
  - split; [exact H1|]. apply H2. split; reflexivity.
Defined.

(** ** DFS_Finalize: what is never reported and who destroys *)

Section FinalizeEnds.

Variable destroy : Z.
Variable dfs_umount : nat -> Z.
Variable daos_cont_close : nat -> Z.
Variable daos_cont_destroy : Z.
Variable daos_fini : nat -> Z.

Local Abbreviation Finalize :=
  (DFS_Finalize destroy dfs_umount daos_cont_close daos_cont_destroy daos_fini).
Local Abbreviation before :=
  (finalize_before destroy dfs_umount daos_cont_close daos_cont_destroy).
Local Abbreviation after := (finalize_after daos_fini).

Lemma finalize_after_ends r rc log :
  fst (after r rc log) = Fin_exits msg_destroy rc \/
  fst (after r rc log) = Fin_exits msg_fini (daos_fini r) \/
  fst (after r rc log) = Fin_returns.
Proof.
  unfold finalize_after, reported.
  destruct (rc <? 0) eqn:E.
  - assert (E0 : (rc =? 0) = false) by lia. rewrite E0. cbn. auto.
  - rewrite andb_false_r. destruct (daos_fini r <? 0); cbn; auto.
Qed.

(** X11.  No run of DFS_Finalize ends on the "Failed to disconnect
    from pool" check, whatever the statuses: the status of
    daos_pool_disconnect is dropped, and the check behind the call
    tests the broadcast status again, which has passed the destroy
    check by then. *)
Theorem finalize_never_reports_disconnect N r rc :
  fst (Finalize N r) <> Fin_exits msg_disconnect rc.
Proof.
  unfold DFS_Finalize, finalize_before.
  destruct (reported (dfs_umount r)); [cbn; discriminate|].
  destruct (reported (daos_cont_close r)); [cbn; discriminate|].
  destruct ((r =? 0)%nat && negb (destroy =? 0));
    (destruct (all_arrive _ N); [|cbn; discriminate]);
    match goal with
    | |- fst (finalize_after _ ?q ?x ?l) <> _ =>
        destruct (finalize_after_ends q x l) as [-> |[-> | ->]]; discriminate
    end.
Qed.

Lemma finalize_before_cases r :
  (dfs_umount r < 0 /\ exists e, before r = Leaves (e, [Fin_umount])) \/
  (daos_cont_close r < 0 /\
   exists e, before r = Leaves (e, [Fin_umount; Fin_cont_close])) \/
  (before r = Arrives (daos_cont_destroy,
                       [Fin_umount; Fin_cont_close; Fin_cont_destroy]) /\
   r = O /\ destroy <> 0) \/
  (before r = Arrives (daos_cont_close r, [Fin_umount; Fin_cont_close]) /\
   (r <> O \/ destroy = 0)).
Proof.
  unfold finalize_before, reported.
  destruct (dfs_umount r <? 0) eqn:E1; [left; split; [lia|eauto]|].
  destruct (daos_cont_close r <? 0) eqn:E2;
    [right; left; split; [lia|eauto]|].
  destruct (Nat.eqb_spec r 0) as [Hr|Hr];
    destruct (Z.eqb_spec destroy 0) as [Hd|Hd]; cbn [andb negb].
  - right; right; right. auto.
  - right; right; left. auto.
  - right; right; right. auto.
  - right; right; right. auto.
Qed.

Lemma finalize_after_log r rc log :
  exists rest, snd (after r rc log) = log ++ rest /\
               ~ In Fin_cont_destroy rest.
Proof.
  unfold finalize_after.
  destruct (negb (rc =? 0) && reported rc); cbn [snd].
  { eexists. split; [reflexivity|]. cbn. intuition discriminate. }
  destruct (reported rc); cbn [snd].
  { eexists. rewrite <- app_assoc. split; [reflexivity|].
    cbn. intuition discriminate. }
  destruct (reported (daos_fini r)); cbn [snd];
    (eexists; rewrite <- !app_assoc; split; [reflexivity|];
     cbn; intuition discriminate).
Qed.

Definition is_destroy (c : fin_call) : bool :=
  match c with Fin_cont_destroy => true | _ => false end.

Lemma filter_no_destroy l :
  ~ In Fin_cont_destroy l -> filter is_destroy l = [].
Proof.
  induction l as [|c l IH]; [reflexivity|]. intros H. simpl.
  destruct c; simpl; try (apply IH; intros Hc; apply H; right; exact Hc).
  exfalso. apply H. left. reflexivity.
Qed.

(** Every log starts with what the rank did before the broadcast and
    goes on without a destroy. *)
Lemma finalize_log N r :
  exists pre rest,
    snd (Finalize N r) = pre ++ rest /\ ~ In Fin_cont_destroy rest /\
    (pre = [Fin_umount] \/ pre = [Fin_umount; Fin_cont_close] \/
     (pre = [Fin_umount; Fin_cont_close; Fin_cont_destroy] /\
      r = O /\ destroy <> 0)) /\
    (r = O -> destroy <> 0 -> 0 <= dfs_umount r -> 0 <= daos_cont_close r ->
     pre = [Fin_umount; Fin_cont_close; Fin_cont_destroy]).
Proof.
  unfold DFS_Finalize.
  destruct (finalize_before_cases r)
    as [[Hu [e ->]]|[[Hc [e ->]]|[(-> & Hr & Hd)|(-> & Hor)]]].
  - exists [Fin_umount], []. rewrite app_nil_r. cbn [snd].
    repeat split; auto. intros. lia.
  - exists [Fin_umount; Fin_cont_close], []. rewrite app_nil_r. cbn [snd].
    repeat split; auto. intros. lia.
  - destruct (all_arrive _ N).
    + destruct (finalize_after_log r
                  (root_rc destroy dfs_umount daos_cont_close daos_cont_destroy)
                  [Fin_umount; Fin_cont_close; Fin_cont_destroy])
        as (rest & -> & Hn).
      exists [Fin_umount; Fin_cont_close; Fin_cont_destroy], rest.
      repeat split; auto.
    + exists [Fin_umount; Fin_cont_close; Fin_cont_destroy], [].
      cbn [snd]. rewrite app_nil_r. repeat split; auto.
  - destruct (all_arrive _ N).
    + destruct (finalize_after_log r
                  (root_rc destroy dfs_umount daos_cont_close daos_cont_destroy)
                  [Fin_umount; Fin_cont_close])
        as (rest & -> & Hn).
      exists [Fin_umount; Fin_cont_close], rest.
      repeat split; auto. intros; exfalso; destruct Hor; auto.
    + exists [Fin_umount; Fin_cont_close], [].
      cbn [snd]. rewrite app_nil_r. repeat split; auto.
      intros; exfalso; destruct Hor; auto.
Qed.

(** X12.  The container is destroyed by rank 0 only, only when the
    destroy option is set, and once at most.  Rank 0 does so whenever
    its own unmount and close passed, before the broadcast: at that
    point it knows nothing of how the other ranks fared. *)
Theorem finalize_destroy_by_rank0_only N r :
  (In Fin_cont_destroy (snd (Finalize N r)) -> r = O /\ destroy <> 0) /\
  (List.length (filter is_destroy (snd (Finalize N r))) <= 1)%nat /\
  (r = O -> destroy <> 0 ->
   0 <= dfs_umount r -> 0 <= daos_cont_close r ->
   exists rest,
     snd (Finalize N r)
     = [Fin_umount; Fin_cont_close; Fin_cont_destroy] ++ rest /\
     ~ In Fin_cont_destroy rest).
Proof.
  destruct (finalize_log N r) as (pre & rest & -> & Hrest & Hpre & Hroot).
  split; [|split].
  - intros H. apply in_app_or in H as [H|H]; [|contradiction].
    destruct Hpre as [->|[->|(_ & Hr & Hd)]]; [| |auto];
      cbn in H; intuition discriminate.
  - rewrite filter_app, (filter_no_destroy rest Hrest), app_nil_r.
    destruct Hpre as [->|[->|(-> & _)]]; cbn; lia.
  - intros Hr Hd Hu Hc. exists rest.
    rewrite (Hroot Hr Hd Hu Hc). auto.
Qed.

End FinalizeEnds.

Lemma finalize_destroy_by_rank0_only_witness :
  exists rest,
    snd (finalize_with 1 (-1012) 3 0)
    = [Fin_umount; Fin_cont_close; Fin_cont_destroy] ++ rest /\
    ~ In Fin_cont_destroy rest.
Proof.
  apply (finalize_destroy_by_rank0_only 1 (fun _ => 0) (fun _ => 0) (-1012)
           (fun _ => 0) 3 0); [reflexivity|discriminate|lia|lia].
Defined.

(** ** DFS_Create: a failed create and the barrier *)

Section CreateFailure.

Import Path.

Variable obj : Type.
Variable DAOS_OC_LARGE_RW : Z.
Variable env : nat -> penv.
Variable dfs_lookup : nat -> string -> Z -> Z * option obj.
Variable dfs_open :
  nat -> option obj -> string -> Z -> Z -> Z -> Z * option obj.

Local Abbreviation Create :=
  (DFS_Create obj DAOS_OC_LARGE_RW env dfs_lookup dfs_open).
Local Abbreviation before :=
  (create_before obj DAOS_OC_LARGE_RW env dfs_lookup dfs_open).
Local Abbreviation after :=
  (create_after obj DAOS_OC_LARGE_RW dfs_open).

(** The call when the ranks are handed different names, as they are
    with a file per process: rank [r] is called with [paths r].
    DFS_Create above is the case of one name for all. *)
Definition DFS_Create_each (N rank : nat) (paths : nat -> option string)
           (param : IOR_param_t) : create_end obj * list (create_call obj) :=
  match before rank (paths rank) param with
  | Leaves r => r
  | Arrives (log, rest) =>
      if all_arrive (fun r => before r (paths r) param) N
      then after rank log rest
      else (Cr_waits, log)
  end.

Lemma DFS_Create_each_same N rank path param :
  DFS_Create_each N rank (fun _ => path) param = Create N rank path param.
Proof. reflexivity. Qed.

(** What a rank that is to create does up to the barrier, given that
    it resolves the path and finds the parent. *)
Lemma before_creator r path param name dir :
  negb (filePerProc param =? 0) || (r =? 0)%nat = true ->
  parse_filename (env r) path true true = (0, Some name, Some dir) ->
  0 <= fst (dfs_lookup r dir O_RDWR) ->
  let parent := snd (dfs_lookup r dir O_RDWR) in
  let mode := Z.lor S_IFREG (mode param) in
  let rc := fst (dfs_open r parent name mode excl_flags DAOS_OC_LARGE_RW) in
  let o := snd (dfs_open r parent name mode excl_flags DAOS_OC_LARGE_RW) in
  let log := [Cr_lookup dir O_RDWR;
              Cr_open parent name mode excl_flags DAOS_OC_LARGE_RW] in
  before r path param
  = if rc <? 0
    then Leaves (Cr_returns o, log ++ released obj parent)
    else Arrives (log ++ [Cr_barrier], Rest_out obj parent o).
Proof.
  intros Hc Hp Hl. cbv zeta. unfold create_before. rewrite Hp.
  change (reported 0) with false. cbv iota.
  destruct (dfs_lookup r dir O_RDWR) as [rc1 parent]. cbn [fst snd] in *.
  assert (E1 : reported rc1 = false) by (unfold reported; lia).
  rewrite E1, Hc. fold excl_flags.
  destruct (dfs_open r parent name _ excl_flags _) as [rc2 o].
  cbn [fst snd]. unfold reported. destruct (rc2 <? 0); reflexivity.
Qed.

Lemma before_opener r path param name dir :
  filePerProc param = 0 -> r <> O ->
  parse_filename (env r) path true true = (0, Some name, Some dir) ->
  0 <= fst (dfs_lookup r dir O_RDWR) ->
  before r path param
  = Arrives ([Cr_lookup dir O_RDWR; Cr_barrier],
             Rest_open obj (snd (dfs_lookup r dir O_RDWR)) name
               (Z.lor S_IFREG (mode param))).
Proof.
  intros Hf Hr Hp Hl. unfold create_before. rewrite Hp.
  change (reported 0) with false. cbv iota.
  destruct (dfs_lookup r dir O_RDWR) as [rc1 parent]. cbn [fst snd] in *.
  assert (E1 : reported rc1 = false) by (unfold reported; lia).
  rewrite E1, Hf. apply Nat.eqb_neq in Hr. rewrite Hr. reflexivity.
Qed.

Lemma not_all_arrive (B : nat -> arrival (list (create_call obj) * create_rest obj)
                                  (create_end obj * list (create_call obj)))
      N q e :
  (q < N)%nat -> B q = Leaves e -> all_arrive B N = false.
Proof.
  intros Hq Hb. destruct (all_arrive B N) eqn:E; [|reflexivity].
  rewrite all_arrive_iff in E. specialize (E q Hq). rewrite Hb in E.
  discriminate.
Qed.

(** X13.  Shared file, and rank 0's exclusive create is reported as
    failed (the file exists, say): rank 0 leaves through [out]
    without entering the barrier and returns what dfs_open left in
    [obj]; every other rank that resolved the path and found the
    parent stays in MPI_Barrier and issues no open. *)
Theorem create_failure_strands_peers N path param name dir :
  filePerProc param = 0 -> (0 < N)%nat ->
  parse_filename (env 0) path true true = (0, Some name, Some dir) ->
  0 <= fst (dfs_lookup 0 dir O_RDWR) ->
  fst (dfs_open 0 (snd (dfs_lookup 0 dir O_RDWR)) name
         (Z.lor S_IFREG (mode param)) excl_flags DAOS_OC_LARGE_RW) < 0 ->
  Create N 0 path param
  = (Cr_returns
       (snd (dfs_open 0 (snd (dfs_lookup 0 dir O_RDWR)) name
               (Z.lor S_IFREG (mode param)) excl_flags DAOS_OC_LARGE_RW)),
     [Cr_lookup dir O_RDWR;
      Cr_open (snd (dfs_lookup 0 dir O_RDWR)) name
        (Z.lor S_IFREG (mode param)) excl_flags DAOS_OC_LARGE_RW]
     ++ released obj (snd (dfs_lookup 0 dir O_RDWR))) /\
  (forall r name' dir',
     r <> O ->
     parse_filename (env r) path true true = (0, Some name', Some dir') ->
     0 <= fst (dfs_lookup r dir' O_RDWR) ->
     Create N r path param
     = (Cr_waits, [Cr_lookup dir' O_RDWR; Cr_barrier])).
Proof.
  intros Hf HN Hp Hl Hc.
  pose proof (before_creator 0 path param name dir
                (orb_true_r _) Hp Hl) as B0.
  cbv zeta in B0. apply Z.ltb_lt in Hc. rewrite Hc in B0.
  split.
  - unfold DFS_Create. rewrite B0. reflexivity.
  - intros r name' dir' Hr Hp' Hl'. unfold DFS_Create.
    rewrite (before_opener r path param name' dir' Hf Hr Hp' Hl').
    rewrite (not_all_arrive _ N 0 _ HN B0). reflexivity.
Qed.

(** X14.  File per process: a rank that resolves its path and finds
    the parent issues one exclusive create for its own name, no other
    open, and then enters the barrier all the same.  If its create is
    reported it returns without the barrier; if it succeeds while some
    other rank left early, it stays in the barrier with its file
    created; if all ranks arrive it returns the object. *)
Theorem create_per_process N r paths param name dir :
  filePerProc param <> 0 ->
  parse_filename (env r) (paths r) true true = (0, Some name, Some dir) ->
  0 <= fst (dfs_lookup r dir O_RDWR) ->
  let parent := snd (dfs_lookup r dir O_RDWR) in
  let mode := Z.lor S_IFREG (mode param) in
  let rc := fst (dfs_open r parent name mode excl_flags DAOS_OC_LARGE_RW) in
  let o := snd (dfs_open r parent name mode excl_flags DAOS_OC_LARGE_RW) in
  let log := [Cr_lookup dir O_RDWR;
              Cr_open parent name mode excl_flags DAOS_OC_LARGE_RW] in
  (rc < 0 ->
   DFS_Create_each N r paths param
   = (Cr_returns o, log ++ released obj parent)) /\
  (0 <= rc ->
   (forall q e, (q < N)%nat -> before q (paths q) param = Leaves e ->
      DFS_Create_each N r paths param = (Cr_waits, log ++ [Cr_barrier])) /\
   (all_arrive (fun q => before q (paths q) param) N = true ->
    DFS_Create_each N r paths param
    = (Cr_returns o, (log ++ [Cr_barrier]) ++ released obj parent))).
Proof.
  intros Hf Hp Hl. cbv zeta.
  assert (Hc : negb (filePerProc param =? 0) || (r =? 0)%nat = true).
  { apply Z.eqb_neq in Hf. rewrite Hf. reflexivity. }
  pose proof (before_creator r (paths r) param name dir Hc Hp Hl) as B.
  cbv zeta in B. unfold DFS_Create_each. rewrite B. split.
  - intros Hrc. apply Z.ltb_lt in Hrc. rewrite Hrc. reflexivity.
  - intros Hrc. apply Z.ltb_ge in Hrc. rewrite Hrc. split.
    + intros q e Hq Hb.
      rewrite (not_all_arrive _ N q e Hq Hb). reflexivity.
    + intros ->. reflexivity.
Qed.

End CreateFailure.

Lemma create_failure_strands_peers_witness :
  Namespace.create 3 0 "/mnt/dfs/old" 0
  = (Cr_returns None,
     [Cr_lookup "/mnt/dfs" 2;
      Cr_open (Some "/mnt/dfs"%string) "old" 33204 194 1;
      Cr_release "/mnt/dfs"%string]) /\
  Namespace.create 3 2 "/mnt/dfs/old" 0
  = (Cr_waits, [Cr_lookup "/mnt/dfs" 2; Cr_barrier]).
Proof.
  destruct (create_failure_strands_peers string 1 Namespace.env
              Namespace.dfs_lookup Namespace.dfs_open 3
              (Some "/mnt/dfs/old"%string)
              {| offset := 0; singleXferAttempt := 0; filePerProc := 0;
                 mode := 436 |} "old"%string "/mnt/dfs"%string)
    as [H0 Hr].
  - reflexivity.
  - lia.
  - reflexivity.
  - vm_compute. discriminate.
  - vm_compute. reflexivity.
  - split; [exact H0|].
    apply (Hr 2%nat "old"%string "/mnt/dfs"%string).
    + discriminate.
    + reflexivity.
    + vm_compute. discriminate.
Defined.

(** Three ranks, a file each; the name of rank 1 is taken. *)
Definition own_files (r : nat) : option string :=
  match r with
  | 0%nat => Some "/mnt/dfs/file.0"%string
  | 1%nat => Some "/mnt/dfs/old"%string
  | _ => Some "/mnt/dfs/file.2"%string
  end.

Lemma create_per_process_witness :
  DFS_Create_each string 1 Namespace.env Namespace.dfs_lookup
    Namespace.dfs_open 3 1 own_files
    {| offset := 0; singleXferAttempt := 0; filePerProc := 1; mode := 436 |}
  = (Cr_returns None,
     [Cr_lookup "/mnt/dfs" 2;
      Cr_open (Some "/mnt/dfs"%string) "old" 33204 194 1;
      Cr_release "/mnt/dfs"%string]) /\
  DFS_Create_each string 1 Namespace.env Namespace.dfs_lookup
    Namespace.dfs_open 3 0 own_files
    {| offset := 0; singleXferAttempt := 0; filePerProc := 1; mode := 436 |}
  = (Cr_waits,
     [Cr_lookup "/mnt/dfs" 2;
      Cr_open (Some "/mnt/dfs"%string) "file.0" 33204 194 1;
      Cr_barrier]).
Proof.
  split.
  - apply (create_per_process string 1 Namespace.env Namespace.dfs_lookup
             Namespace.dfs_open 3 1 own_files
             {| offset := 0; singleXferAttempt := 0; filePerProc := 1;
                mode := 436 |} "old"%string "/mnt/dfs"%string).
    + discriminate.
    + reflexivity.
    + vm_compute. discriminate.
    + vm_compute. reflexivity.
  - destruct (create_per_process string 1 Namespace.env Namespace.dfs_lookup
             Namespace.dfs_open 3 0 own_files
             {| offset := 0; singleXferAttempt := 0; filePerProc := 1;
                mode := 436 |} "file.0"%string "/mnt/dfs"%string)
      as [_ H].
    + discriminate.
    + reflexivity.
    + vm_compute. discriminate.
    + destruct H as [H _]; [vm_compute; discriminate|].
      apply (H 1%nat
               (Cr_returns None,
                [Cr_lookup "/mnt/dfs" 2;
                 Cr_open (Some "/mnt/dfs"%string) "old" 33204 194 1;
                 Cr_release "/mnt/dfs"%string])).
      * lia.
      * vm_compute. reflexivity.
Defined.

(** ** DFS_Open, DFS_Delete, DFS_Mkdir, DFS_Rmdir, DFS_Stat *)

Section Operations.

Import Path.

(** The engine calls of the five functions: [rc], and for lookup and
    open the object pointer the call leaves behind. *)
Variable obj : Type.
Variable dfs_lookup : string -> Z -> Z * option obj.
Variable dfs_open :
  option obj -> string -> Z -> Z -> Z -> Z * option obj.
Variable dfs_remove : option obj -> string -> bool -> Z.
Variable dfs_mkdir : option obj -> string -> Z -> Z.
Variable dfs_stat : option obj -> option string -> Z.

Inductive fs_call : Type :=
| Fs_lookup (dir : string) (flags : Z)
| Fs_open (parent : option obj) (name : string) (mode flags oclass : Z)
| Fs_remove (parent : option obj) (name : string) (force : bool)
| Fs_mkdir (parent : option obj) (name : string) (mode : Z)
| Fs_stat (parent : option obj) (name : option string)
| Fs_release (o : obj).

Inductive fs_end (R : Type) : Type :=
| Fs_returns (r : R)
| Fs_assert (cond : string).

Arguments Fs_returns {R} r.
Arguments Fs_assert {R} cond.

(** [if (parent) dfs_release(parent);] at the label [out]. *)
Definition fs_released (parent : option obj) : list fs_call :=
  match parent with Some p => [Fs_release p] | None => [] end.

(** [if (rc) return -1; return rc;] *)
Definition status (rc : Z) : Z := if rc =? 0 then rc else -1.

(** Lines 443-476. *)
Definition DFS_Open (env : penv) (testFileName : option string)
           (param : IOR_param_t) : fs_end (option obj) * list fs_call :=
  let fd_oflag := Z.lor 0 O_RDWR in
  let mode := Z.lor S_IFREG (mode param) in
  let '(rc, name, dir_name) := parse_filename env testFileName true true in
  if reported rc then (Fs_returns None, [])
  else
    match dir_name, name with
    | None, _ => (Fs_assert "dir_name", [])
    | Some _, None => (Fs_assert "name", [])
    | Some dir, Some name =>
        let '(rc, parent) := dfs_lookup dir O_RDWR in
        if reported rc
        then (Fs_returns None, [Fs_lookup dir O_RDWR] ++ fs_released parent)
        else
          let '(rc, o) := dfs_open parent name mode fd_oflag 0 in
          (Fs_returns o,
           [Fs_lookup dir O_RDWR; Fs_open parent name mode fd_oflag 0]
           ++ fs_released parent)
    end.

(** Lines 557-584. *)
Definition DFS_Delete (env : penv) (testFileName : option string)
  : fs_end unit * list fs_call :=
  let '(rc, name, dir_name) := parse_filename env testFileName true true in
  if reported rc then (Fs_returns tt, [])
  else
    match dir_name, name with
    | None, _ => (Fs_assert "dir_name", [])
    | Some _, None => (Fs_assert "name", [])
    | Some dir, Some name =>
        let '(rc, parent) := dfs_lookup dir O_RDWR in
        if reported rc
        then (Fs_returns tt, [Fs_lookup dir O_RDWR] ++ fs_released parent)
        else
          let rc := dfs_remove parent name false in
          (Fs_returns tt,
           [Fs_lookup dir O_RDWR; Fs_remove parent name false]
           ++ fs_released parent)
    end.

(** Lines 646-676. *)
Definition DFS_Mkdir (env : penv) (path : option string) (mode : Z)
  : fs_end Z * list fs_call :=
  let '(rc, name, dir_name) := parse_filename env path true true in
  if reported rc then (Fs_returns (status rc), [])
  else
    match dir_name, name with
    | None, _ => (Fs_assert "dir_name", [])
    | Some _, None => (Fs_assert "name", [])
    | Some dir, Some name =>
        let '(rc, parent) := dfs_lookup dir O_RDWR in
        if reported rc
        then (Fs_returns (status rc),
              [Fs_lookup dir O_RDWR] ++ fs_released parent)
        else
          let rc := dfs_mkdir parent name mode in
          (Fs_returns (status rc),
           [Fs_lookup dir O_RDWR; Fs_mkdir parent name mode]
           ++ fs_released parent)
    end.

(** Lines 678-708. *)
Definition DFS_Rmdir (env : penv) (path : option string)
  : fs_end Z * list fs_call :=
  let '(rc, name, dir_name) := parse_filename env path true true in
  if reported rc then (Fs_returns (status rc), [])
  else
    match dir_name, name with
    | None, _ => (Fs_assert "dir_name", [])
    | Some _, None => (Fs_assert "name", [])
    | Some dir, Some name =>
        let '(rc, parent) := dfs_lookup dir O_RDWR in
        if reported rc
        then (Fs_returns (status rc),
              [Fs_lookup dir O_RDWR] ++ fs_released parent)
        else
          let rc := dfs_remove parent name false in
          (Fs_returns (status rc),
           [Fs_lookup dir O_RDWR; Fs_remove parent name false]
           ++ fs_released parent)
    end.

(** Lines 745-775; the lookup is read-only here. *)
Definition DFS_Stat (env : penv) (path : option string)
  : fs_end Z * list fs_call :=
  let '(rc, name, dir_name) := parse_filename env path true true in
  if reported rc then (Fs_returns (status rc), [])
  else
    match dir_name, name with
    | None, _ => (Fs_assert "dir_name", [])
    | Some _, None => (Fs_assert "name", [])
    | Some dir, Some name =>
        let '(rc, parent) := dfs_lookup dir O_RDONLY in
        if reported rc
        then (Fs_returns (status rc),
              [Fs_lookup dir O_RDONLY] ++ fs_released parent)
        else
          let rc := dfs_stat parent (Some name) in
          (Fs_returns (status rc),
           [Fs_lookup dir O_RDONLY; Fs_stat parent (Some name)]
           ++ fs_released parent)
    end.

(** *** What the five functions have in common *)

(** How the resolver can answer a call with both result pointers
    set: a negative status and nothing, the root, or a leaf under a
    directory. *)
Lemma parse_cases env path :
  (exists rc, rc < 0 /\
     parse_filename env path true true = (rc, None, None)) \/
  (path = Some "/"%string /\
   parse_filename env path true true = (0, None, Some "/"%string)) \/
  (exists name dir, path <> Some "/"%string /\
     parse_filename env path true true = (0, Some name, Some dir)).
Proof.
  unfold parse_filename, nomem, EINVAL, ENOMEM.
  destruct path as [path|]; [|left; eexists; split; [|reflexivity]; lia].
  cbn [negb orb].
  destruct (String.eqb_spec path "/") as [->|Hp].
  - destruct (heap env); [left; eexists; split; [|reflexivity]; lia|].
    right; left. auto.
  - destruct (heap env) as [|[|h]];
      try (left; eexists; split; [|reflexivity]; lia).
    destruct (resolve_dir env h (dirname path)) as [[dir [|h']]|];
      try (left; eexists; split; [|reflexivity]; lia).
    right; right. exists (basename path), dir. split; [congruence|reflexivity].
Qed.

(** The engine calls behind the lookup. *)
Definition acts_on (parent : option obj) (c : fs_call) : Prop :=
  match c with
  | Fs_open p _ _ _ _ | Fs_remove p _ _ | Fs_mkdir p _ _ | Fs_stat p _ =>
      p = parent
  | Fs_lookup _ _ | Fs_release _ => False
  end.

(** A log is tidy when it is empty, or a lookup that was reported
    and the release of what it left, or a lookup that was not
    reported, one call on the object it delivered, and the release. *)
Definition tidy (log : list fs_call) : Prop :=
  log = [] \/
  exists dir flags,
    (fst (dfs_lookup dir flags) < 0 /\
     log = [Fs_lookup dir flags] ++ fs_released (snd (dfs_lookup dir flags)))
    \/
    (0 <= fst (dfs_lookup dir flags) /\
     exists act, acts_on (snd (dfs_lookup dir flags)) act /\
       log = [Fs_lookup dir flags; act]
             ++ fs_released (snd (dfs_lookup dir flags))).

Ltac tidy_cases env path :=
  destruct (parse_cases env path)
    as [(rc & Hrc & ->)|[(_ & ->)|(name & dir & _ & ->)]];
  [ assert (Er : reported rc = true) by (unfold reported; lia);
    rewrite Er; left; reflexivity
  | change (reported 0) with false; cbv iota; left; reflexivity
  | change (reported 0) with false; cbv iota ].

Ltac tidy_lookup dir flags :=
  right; exists dir, flags;
  destruct (dfs_lookup dir flags) as [rc parent]; cbn [fst snd];
  unfold reported; destruct (rc <? 0) eqn:E;
  [ left; split; [lia|reflexivity] | right; split; [lia|] ].

(** X15.  On every path through DFS_Open, DFS_Delete, DFS_Mkdir,
    DFS_Rmdir and DFS_Stat, error paths included: the parent is
    looked up once at most; open, remove, mkdir or stat is called once
    at most, only behind a lookup that was not reported, and on the
    object that lookup delivered; and the parent is released last,
    exactly when the lookup left one. *)
Theorem operations_are_tidy env path param mode :
  tidy (snd (DFS_Open env path param)) /\
  tidy (snd (DFS_Delete env path)) /\
  tidy (snd (DFS_Mkdir env path mode)) /\
  tidy (snd (DFS_Rmdir env path)) /\
  tidy (snd (DFS_Stat env path)).
Proof.
  repeat split.
  - unfold DFS_Open. tidy_cases env path. tidy_lookup dir O_RDWR.
    destruct (dfs_open parent name _ _ 0) as [rc2 o].
    eexists. split; [|reflexivity]. reflexivity.
  - unfold DFS_Delete. tidy_cases env path. tidy_lookup dir O_RDWR.
    eexists. split; [|reflexivity]. reflexivity.
  - unfold DFS_Mkdir. tidy_cases env path. tidy_lookup dir O_RDWR.
    eexists. split; [|reflexivity]. reflexivity.
  - unfold DFS_Rmdir. tidy_cases env path. tidy_lookup dir O_RDWR.
    eexists. split; [|reflexivity]. reflexivity.
  - unfold DFS_Stat. tidy_cases env path. tidy_lookup dir O_RDONLY.
    eexists. split; [|reflexivity]. reflexivity.
Qed.

(** The path resolves to a leaf under a directory, the lookup of the
    directory (with [flags]) is not reported, and the call [op] on
    the parent and the leaf answers 0. *)
Definition served (env : penv) (path : option string) (flags : Z)
           (op : option obj -> string -> Z) : Prop :=
  exists name dir,
    parse_filename env path true true = (0, Some name, Some dir) /\
    0 <= fst (dfs_lookup dir flags) /\
    op (snd (dfs_lookup dir flags)) name = 0.

(** The three ends of a function that returns [int]: 0 exactly when
    served; otherwise -1, or the failed [assert(name)], which is the
    end for the path "/" alone. *)
Definition answers (e : fs_end Z) (path : option string) (ok : Prop)
  : Prop :=
  (e = Fs_returns 0 <-> ok) /\
  (e = Fs_returns 0 \/ e = Fs_returns (-1) \/
   (e = Fs_assert "name" /\ path = Some "/"%string)).

Lemma status_zero rc : status rc = 0 <-> rc = 0.
Proof. unfold status. destruct (Z.eqb_spec rc 0); lia. Qed.

Lemma status_cases rc : status rc = 0 \/ status rc = -1.
Proof. unfold status. destruct (Z.eqb_spec rc 0); lia. Qed.

Lemma answers_status env path flags op name dir :
  parse_filename env path true true = (0, Some name, Some dir) ->
  answers
    (Fs_returns
       (if reported (fst (dfs_lookup dir flags))
        then status (fst (dfs_lookup dir flags))
        else status (op (snd (dfs_lookup dir flags)) name)))
    path (served env path flags op).
Proof.
  intros Hp. unfold answers, served, reported. split.
  - destruct (fst (dfs_lookup dir flags) <? 0) eqn:E; split.
    + intros H. injection H as H. apply (proj1 (status_zero _)) in H. exfalso. lia.
    + intros (n & d & Hp' & Hl & _). rewrite Hp in Hp'.
      injection Hp' as <- <-. exfalso. lia.
    + intros H. injection H as H. apply (proj1 (status_zero _)) in H.
      exists name, dir. repeat split; auto. lia.
    + intros (n & d & Hp' & _ & Ho). rewrite Hp in Hp'.
      injection Hp' as <- <-. f_equal. now apply status_zero.
  - destruct (fst (dfs_lookup dir flags) <? 0);
      match goal with |- context [status ?x] =>
        destruct (status_cases x) as [-> | ->] end; auto.
Qed.

Lemma answers_failed env path flags op rc e :
  rc < 0 -> parse_filename env path true true = (rc, None, None) ->
  e = Fs_returns (status rc) ->
  answers e path (served env path flags op).
Proof.
  intros Hrc Hp ->. unfold answers, served, status.
  destruct (Z.eqb_spec rc 0) as [E|E]; [lia|]. split.
  - split; [discriminate|].
    intros (nm & d & Hp' & _). rewrite Hp in Hp'. discriminate.
  - auto.
Qed.

Lemma answers_root env flags op :
  parse_filename env (Some "/"%string) true true
  = (0, None, Some "/"%string) ->
  answers (Fs_assert "name") (Some "/"%string)
          (served env (Some "/"%string) flags op).
Proof.
  intros Hp. unfold answers, served. split.
  - split; [discriminate|].
    intros (n & d & Hp' & _). rewrite Hp in Hp'. discriminate.
  - auto.
Qed.

Ltac answer_cases env path :=
  destruct (parse_cases env path)
    as [(rc & Hrc & Hp)|[(-> & Hp)|(name & dir & _ & Hp)]];
  [ rewrite Hp;
    assert (Er : reported rc = true) by (unfold reported; lia);
    rewrite Er; cbn [fst];
    eapply answers_failed; [exact Hrc|exact Hp|reflexivity]
  | rewrite Hp; change (reported 0) with false; cbv iota; cbn [fst];
    apply answers_root; exact Hp
  | rewrite Hp; change (reported 0) with false; cbv iota ].

(** X16.  DFS_Mkdir, DFS_Rmdir and DFS_Stat hand the caller 0 or
    -1 and never the status of the engine.  The answer is 0 exactly
    when the path resolves to a leaf under a directory, the lookup of
    the directory is not reported (a status of 0 or above) and the
    mkdir, remove or stat on the leaf answers 0; a positive status of
    that last call gives -1.  The only other end is the failed
    [assert(name)], for the path "/". *)
Theorem int_operations_answer env path mode :
  answers (fst (DFS_Mkdir env path mode)) path
    (served env path O_RDWR (fun p n => dfs_mkdir p n mode)) /\
  answers (fst (DFS_Rmdir env path)) path
    (served env path O_RDWR (fun p n => dfs_remove p n false)) /\
  answers (fst (DFS_Stat env path)) path
    (served env path O_RDONLY (fun p n => dfs_stat p (Some n))).
Proof.
  split; [|split].
  - unfold DFS_Mkdir. answer_cases env path.
    pose proof (answers_status env path O_RDWR
                  (fun p n => dfs_mkdir p n mode) name dir Hp) as A.
    destruct (dfs_lookup dir O_RDWR) as [rc parent]. cbn [fst snd] in *.
    destruct (reported rc); exact A.
  - unfold DFS_Rmdir. answer_cases env path.
    pose proof (answers_status env path O_RDWR
                  (fun p n => dfs_remove p n false) name dir Hp) as A.
    destruct (dfs_lookup dir O_RDWR) as [rc parent]. cbn [fst snd] in *.
    destruct (reported rc); exact A.
  - unfold DFS_Stat. answer_cases env path.
    pose proof (answers_status env path O_RDONLY
                  (fun p n => dfs_stat p (Some n)) name dir Hp) as A.
    destruct (dfs_lookup dir O_RDONLY) as [rc parent]. cbn [fst snd] in *.
    destruct (reported rc); exact A.
Qed.

(** X17.  DFS_Rmdir is DFS_Delete with a status: for every path
    both issue the same engine calls, a [dfs_remove] without force
    that does not ask whether the leaf is a directory. *)
Theorem rmdir_is_delete env path :
  snd (DFS_Rmdir env path) = snd (DFS_Delete env path) /\
  (forall c, In c (snd (DFS_Rmdir env path)) ->
     match c with
     | Fs_remove _ _ force => force = false
     | Fs_open _ _ _ _ _ | Fs_mkdir _ _ _ | Fs_stat _ _ => False
     | Fs_lookup _ flags => flags = O_RDWR
     | Fs_release _ => True
     end).
Proof.
  clear dfs_open dfs_mkdir dfs_stat.
  unfold DFS_Rmdir, DFS_Delete.
  destruct (parse_filename env path true true) as [[rc name] dir].
  destruct (reported rc); [split; [reflexivity|intros c []]|].
  destruct dir as [dir|]; [|split; [reflexivity|intros c []]].
  destruct name as [name|]; [|split; [reflexivity|intros c []]].
  destruct (dfs_lookup dir O_RDWR) as [rc1 parent].
  destruct (reported rc1); (split; [reflexivity|]);
    intros c Hc; apply in_app_or in Hc as [Hc|Hc];
    try (destruct parent; cbn in Hc; [destruct Hc as [<-|[]]; exact I|tauto]);
    cbn in Hc; intuition (subst; auto).
Qed.

(** X18.  The root path.  The resolver answers "/" with a NULL
    leaf, so the functions that assert the leaf (Open, Delete, Mkdir,
    Rmdir, Stat, and Create on every rank) end on that assertion
    before any engine call; DFS_Access alone serves "/", by a stat of
    the looked-up root object with a NULL name. *)
Theorem root_path_is_served_by_access_only env param mode :
  heap env <> O ->
  DFS_Open env (Some "/"%string) param = (Fs_assert "name", []) /\
  DFS_Delete env (Some "/"%string) = (Fs_assert "name", []) /\
  DFS_Mkdir env (Some "/"%string) mode = (Fs_assert "name", []) /\
  DFS_Rmdir env (Some "/"%string) = (Fs_assert "name", []) /\
  DFS_Stat env (Some "/"%string) = (Fs_assert "name", []) /\
  (forall oclass N r,
     DFS_Create obj oclass (fun _ => env) (fun _ => dfs_lookup)
       (fun _ => dfs_open) N r (Some "/"%string) param
     = (Cr_assert "name", [])) /\
  (0 <= fst (dfs_lookup "/" O_RDWR) ->
   DFS_Access obj dfs_lookup dfs_stat env (Some "/"%string)
   = (Returns (status (dfs_stat (snd (dfs_lookup "/" O_RDWR)) None)),
      [Acc_lookup "/" O_RDWR; Acc_stat (snd (dfs_lookup "/" O_RDWR)) None]
      ++ match snd (dfs_lookup "/" O_RDWR) with
         | Some p => [Acc_release p]
         | None => []
         end)).
Proof.
  intros Hh.
  pose proof (parse_filename_root env Hh) as Hp.
  unfold DFS_Open, DFS_Delete, DFS_Mkdir, DFS_Rmdir, DFS_Stat, DFS_Create,
    create_before, DFS_Access.
  rewrite Hp. change (reported 0) with false. cbv iota.
  do 5 (split; [reflexivity|]). split; [reflexivity|].
  destruct (dfs_lookup "/" O_RDWR) as [rc parent]. cbn [fst snd].
  intros Hrc. unfold reported. destruct (rc <? 0) eqn:E; [lia|].
  reflexivity.
Qed.

End Operations.

Arguments Fs_returns {R} r.
Arguments Fs_assert {R} cond.
Arguments Fs_lookup {obj} dir flags.
Arguments Fs_open {obj} parent name mode flags oclass.
Arguments Fs_remove {obj} parent name force.
Arguments Fs_mkdir {obj} parent name mode.
Arguments Fs_stat {obj} parent name.
Arguments Fs_release {obj} o.

(** The five functions over the demo namespace of DFS_Access. *)
Definition demo_open (parent : option string) (name : string)
           (mode flags oclass : Z) : Z * option string :=
  match parent with
  | Some p => if String.eqb name "old"
              then (0, Some (p ++ "/" ++ name)%string) else (-1005, None)
  | None => (-1005, None)
  end.

Definition demo_remove (parent : option string) (name : string)
           (force : bool) : Z :=
  demo_stat parent (Some name).

(** mkdir answers with a positive errno here. *)
Definition demo_mkdir (parent : option string) (name : string) (mode : Z)
  : Z :=
  match parent with
  | Some _ => if String.eqb name "old" then 17 else 0
  | None => 2
  end.

Example mkdir_existing_name :
  DFS_Mkdir string demo_lookup demo_mkdir Path.ior_home
    (Some "/mnt/dfs/old"%string) 493
  = (Fs_returns (-1),
     [Fs_lookup "/mnt/dfs" 2;
      Fs_mkdir (Some "/mnt/dfs"%string) "old" 493;
      Fs_release "/mnt/dfs"%string]).
Proof. reflexivity. Qed.

Example stat_missing_parent :
  DFS_Stat string demo_lookup demo_stat Path.ior_home
    (Some "/nowhere/f"%string)
  = (Fs_returns (-1), [Fs_lookup "/nowhere" 0]).
Proof. reflexivity. Qed.

Lemma root_path_is_served_by_access_only_witness :
  DFS_Stat string demo_lookup demo_stat Path.ior_home (Some "/"%string)
  = (Fs_assert "name", []).
Proof.
  apply (root_path_is_served_by_access_only string demo_lookup demo_open
           demo_remove demo_mkdir demo_stat Path.ior_home shared_file 0).
  discriminate.
Defined.

Lemma int_operations_answer_witness :
  fst (DFS_Rmdir string demo_lookup demo_remove Path.ior_home
         (Some "/mnt/dfs/old"%string)) = Fs_returns 0.
Proof.
  destruct (int_operations_answer string demo_lookup demo_remove demo_mkdir
              demo_stat Path.ior_home (Some "/mnt/dfs/old"%string) 493)
    as (_ & [H _] & _).
  apply H. exists "old"%string, "/mnt/dfs"%string.
  split; [reflexivity|]. split; [vm_compute; discriminate|reflexivity].
Defined.

Lemma rmdir_is_delete_witness :
  snd (DFS_Rmdir string demo_lookup demo_remove Path.ior_home
         (Some "/mnt/dfs/old"%string))
  = snd (DFS_Delete string demo_lookup demo_remove Path.ior_home
           (Some "/mnt/dfs/old"%string)) /\
  In (Fs_remove (Some "/mnt/dfs"%string) "old" false)
     (snd (DFS_Rmdir string demo_lookup demo_remove Path.ior_home
             (Some "/mnt/dfs/old"%string))).
Proof.
  split.
  - apply (rmdir_is_delete string demo_lookup demo_remove Path.ior_home
             (Some "/mnt/dfs/old"%string)).
  - vm_compute. auto.
Defined.

(** ** HandleDistribute and DFS_Init *)

(** A sequence of broadcasts from rank 0.  A rank either has ended
    the function, or stands in MPI_Bcast holding its own buffer and
    what it goes on with once the buffer holds rank 0's. *)
Inductive stage (V E L : Type) : Type :=
| Ends (e : E) (log : L)
| Enters (v : V) (log : L) (k : V -> stage V E L).

Arguments Ends {V E L} e log.
Arguments Enters {V E L} v log k.

Definition entered {V E L : Type} (s : stage V E L) : bool :=
  match s with Enters _ _ _ => true | Ends _ _ => false end.

Definition resume {V E L : Type} (v : V) (s : stage V E L) : stage V E L :=
  match s with Enters _ _ k => k v | Ends _ _ => s end.

(** How the run of one rank ends among [N] ranks: with its own end,
    waiting in a broadcast that some rank never enters, or taken
    down, while it waits, by the MPI_Abort of another rank.  [fuel]
    bounds the number of broadcasts. *)
Inductive run_end (E : Type) : Type :=
| Ended (e : E)
| Waiting
| Killed
| Unfinished.

Arguments Ended {E} e.
Arguments Waiting {E}.
Arguments Killed {E}.
Arguments Unfinished {E}.

(** The ranks taken one broadcast at a time, every end being the
    rank's own; what an end does to the other ranks is added by the
    caller. *)
Fixpoint run_ranks {V E L : Type} (fuel N : nat)
         (st : nat -> stage V E L) (rank : nat) : run_end E * L :=
  match st rank with
  | Ends e log => (Ended e, log)
  | Enters _ log _ =>
      if forallb (fun q => entered (st q)) (seq 0 N) then
        match st O, fuel with
        | Enters v0 _ _, S fuel' =>
            run_ranks fuel' N (fun q => resume v0 (st q)) rank
        | Enters _ _ _, O => (Unfinished, log)
        | Ends _ _, _ => (Waiting, log)
        end
      else (Waiting, log)
  end.

(** *** Logs along a sequence of broadcasts *)

(** [P] holds of the log wherever the rank may stand. *)
Fixpoint all_logs {V E L : Type} (P : L -> Prop) (s : stage V E L) : Prop :=
  match s with
  | Ends _ log => P log
  | Enters _ log k => P log /\ forall w, all_logs P (k w)
  end.

Lemma run_ranks_log {V E L : Type} (P : L -> Prop) fuel N :
  forall (st : nat -> stage V E L) rank,
  all_logs P (st rank) -> P (snd (run_ranks fuel N st rank)).
Proof.
  induction fuel as [|fuel IH]; intros st rank H; simpl;
    destruct (st rank) as [e log|v log k] eqn:Hs; simpl in H; try exact H;
    destruct H as [Hl Hk];
    destruct (forallb _ _); try exact Hl;
    destruct (st O) as [e0 log0|v0 log0 k0]; try exact Hl.
  apply IH. rewrite Hs. simpl. apply Hk.
Qed.

Lemma forallb_agree {A : Type} (f g : A -> bool) l :
  (forall x, In x l -> f x = g x) -> forallb f l = forallb g l.
Proof.
  induction l as [|a l IH]; intros H; simpl; [reflexivity|].
  rewrite (H a) by (left; reflexivity).
  rewrite IH by (intros x Hx; apply H; right; exact Hx). reflexivity.
Qed.

(** The run of a rank depends on the stages of the ranks below [N]
    and on its own. *)
Lemma run_ranks_ext {V E L : Type} fuel N :
  forall (st st' : nat -> stage V E L) rank,
  (0 < N)%nat -> (rank < N)%nat ->
  (forall q, (q < N)%nat -> st q = st' q) ->
  run_ranks fuel N st rank = run_ranks fuel N st' rank.
Proof.
  induction fuel as [|fuel IH]; intros st st' rank HN Hr Heq; simpl;
    rewrite <- (Heq rank Hr), <- (Heq O HN);
    assert (F : forallb (fun q => entered (st q)) (seq 0 N)
                = forallb (fun q => entered (st' q)) (seq 0 N))
      by (apply forallb_agree; intros q Hq; apply in_seq in Hq;
          rewrite Heq by lia; reflexivity);
    rewrite <- F; try reflexivity.
  destruct (st rank); [reflexivity|].
  destruct (forallb _ _); [|reflexivity].
  destruct (st O); [reflexivity|].
  apply IH; auto. intros q Hq. rewrite Heq by exact Hq. reflexivity.
Qed.

(** One broadcast that every rank below [N] has entered. *)
Lemma run_ranks_step {V E L : Type} fuel N (st : nat -> stage V E L)
      rank v0 log0 k0 :
  (rank < N)%nat ->
  (forall q, (q < N)%nat -> entered (st q) = true) ->
  st O = Enters v0 log0 k0 ->
  run_ranks (S fuel) N st rank
  = run_ranks fuel N (fun q => resume v0 (st q)) rank.
Proof.
  intros Hr Hall H0. simpl.
  pose proof (Hall rank Hr) as He.
  destruct (st rank) as [e log|v log k] eqn:Hs; [discriminate|].
  assert (F : forallb (fun q => entered (st q)) (seq 0 N) = true).
  { apply forallb_forall. intros q Hq. apply in_seq in Hq. apply Hall. lia. }
  rewrite F, H0. reflexivity.
Qed.

(** A broadcast that rank 0 never enters. *)
Lemma run_ranks_root_left {V E L : Type} fuel N (st : nat -> stage V E L)
      rank e0 log0 v log k :
  (0 < N)%nat ->
  st O = Ends e0 log0 -> st rank = Enters v log k ->
  run_ranks fuel N st rank = (Waiting, log).
Proof.
  intros HN H0 Hs.
  assert (F : forallb (fun q => entered (st q)) (seq 0 N) = false).
  { destruct (forallb _ _) eqn:Hall; [|reflexivity].
    rewrite forallb_forall in Hall. specialize (Hall O).
    rewrite H0 in Hall. simpl in Hall. symmetry. apply Hall.
    apply in_seq. lia. }
  destruct fuel; simpl; rewrite Hs, F; reflexivity.
Qed.

Section Init.

Definition daos_handle_t : Type := Z.

Inductive handleType : Type := POOL_HANDLE | CONT_HANDLE | ARRAY_HANDLE.

(** [d_iov_t]: the buffer (NULL or its bytes) and the two lengths. *)
Record d_iov_t : Type := {
  iov_buf : option (list Z);
  iov_buf_len : Z;
  iov_len : Z
}.

Record dfs_options : Type := {
  pool : option string;
  svcl : option string;
  group : option string;
  cont : option string;
  destroy : Z
}.

(** The options, DER_NONEXIST of the DAOS headers, and the calls of
    the two functions.  Calls every rank makes answer per rank;
    [daos_cont_open] answers per call, the first and the one after a
    create. *)
Variable o : dfs_options.
Variable DER_NONEXIST : Z.
Variable daos_init : nat -> Z.
Variable uuid_parse : option string -> Z.
Variable daos_rank_list_parse : option string -> bool.
Variable daos_pool_connect : Z * daos_handle_t.
Variable daos_cont_open : nat -> daos_handle_t -> Z * daos_handle_t.
Variable daos_cont_create : daos_handle_t -> Z.
Variable local2global :
  handleType -> daos_handle_t -> d_iov_t -> Z * d_iov_t.
Variable malloc : nat -> Z -> option (list Z).
Variable daos_pool_global2local : nat -> d_iov_t -> Z * daos_handle_t.
Variable daos_cont_global2local :
  nat -> daos_handle_t -> d_iov_t -> Z * daos_handle_t.
Variable dfs_mount : nat -> daos_handle_t -> daos_handle_t -> Z -> Z.

Inductive init_call : Type :=
| In_daos_init
| In_uuid_parse (s : option string)
| In_rank_list_parse (s : option string)
| In_pool_connect
| In_cont_open (poh : daos_handle_t)
| In_cont_create (poh : daos_handle_t)
| In_local2global (type : handleType) (h : daos_handle_t) (global : d_iov_t)
| In_bcast_len
| In_malloc (n : Z)
| In_bcast_buf
| In_global2local (type : handleType) (global : d_iov_t)
| In_mount (poh coh : daos_handle_t).

Inductive init_end : Type :=
| In_returns (poh coh : daos_handle_t)   (* the globals at the end *)
| In_exits (msg : string) (rc : Z)       (* DCHECK *)
| In_aborts (msg : string)               (* ERR *)
| In_assert (cond : string).

(** What the two broadcasts carry. *)
Inductive wire : Type :=
| Wire_len (n : Z)
| Wire_buf (bytes : list Z).

Definition init_stage : Type := stage wire init_end (list init_call).

Definition wire_len (w : wire) : Z :=
  match w with Wire_len n => n | Wire_buf _ => 0 end.

Definition wire_buf (w : wire) : list Z :=
  match w with Wire_buf b => b | Wire_len _ => [] end.

(** Lines 150-200.  [h] is [*handle], [poh] the global the container
    case reads; [k] is the rest of the caller, given the handle
    as the function leaves it. *)
Definition HandleDistribute (rank : nat) (h poh : daos_handle_t)
           (type : handleType) (log : list init_call)
           (k : daos_handle_t -> list init_call -> init_stage)
  : init_stage :=
  let global := {| iov_buf := None; iov_buf_len := 0; iov_len := 0 |} in
  match type with
  | ARRAY_HANDLE =>
      Ends (In_assert "type == POOL_HANDLE || type == CONT_HANDLE") log
  | _ =>
      let '(rc, global, log) :=
        if (rank =? 0)%nat then
          let '(rc, g) := local2global type h global in
          (rc, g, log ++ [In_local2global type h global])
        else (0, global, log) in
      if reported rc
      then Ends (In_exits "Failed to get global handle size" rc) log
      else
        Enters (Wire_len (iov_buf_len global)) (log ++ [In_bcast_len])
          (fun w =>
             let log := log ++ [In_bcast_len] in
             let len := wire_len w in
             let log := log ++ [In_malloc len] in
             match malloc rank len with
             | None =>
                 Ends (In_aborts "Failed to allocate global handle buffer")
                      log
             | Some fresh =>
                 let global := {| iov_buf := Some fresh;
                                  iov_buf_len := len; iov_len := len |} in
                 let '(rc, global', log) :=
                   if (rank =? 0)%nat then
                     let '(rc, g) := local2global type h global in
                     (rc, g, log ++ [In_local2global type h global])
                   else (0, global, log) in
                 if reported rc
                 then Ends (In_exits "Failed to create global handle" rc) log
                 else
                   let sent :=
                     firstn (Z.to_nat (iov_buf_len global'))
                            match iov_buf global' with
                            | Some b => b
                            | None => []
                            end in
                   Enters (Wire_buf sent) (log ++ [In_bcast_buf])
                     (fun w =>
                        let log := log ++ [In_bcast_buf] in
                        if (rank =? 0)%nat then k h log
                        else
                          let global :=
                            {| iov_buf :=
                                 Some (firstn (Z.to_nat len) (wire_buf w));
                               iov_buf_len := len; iov_len := len |} in
                          let '(rc, h') :=
                            match type with
                            | POOL_HANDLE =>
                                daos_pool_global2local rank global
                            | _ => daos_cont_global2local rank poh global
                            end in
                          let log := log ++ [In_global2local type global] in
                          if reported rc
                          then Ends (In_exits "Failed to get local handle" rc)
                                    log
                          else k h' log)
             end)
  end.

(** Lines 334-347, on rank 0: the container is opened, and created
    and opened again when the first open answers -DER_NONEXIST. *)
Definition open_container (poh : daos_handle_t)
  : Z * daos_handle_t * list init_call :=
  let '(rc, coh) := daos_cont_open 0 poh in
  let log := [In_cont_open poh] in
  if rc =? - DER_NONEXIST then
    let rc := daos_cont_create poh in
    let log := log ++ [In_cont_create poh] in
    if rc =? 0 then
      let '(rc, coh) := daos_cont_open 1 poh in
      (rc, coh, log ++ [In_cont_open poh])
    else (rc, coh, log)
  else (rc, coh, log).

(** Lines 307-348: what rank 0 does before the handles are
    distributed; on success, the pool and container handles. *)
Definition init_root (log : list init_call)
  : (init_end * list init_call)
    + (daos_handle_t * daos_handle_t * list init_call) :=
  let rc := uuid_parse (pool o) in
  let log := log ++ [In_uuid_parse (pool o)] in
  if reported rc
  then inl (In_exits "Failed to parse 'Pool uuid': %s" rc, log)
  else
    let rc := uuid_parse (cont o) in
    let log := log ++ [In_uuid_parse (cont o)] in
    if reported rc
    then inl (In_exits "Failed to parse 'Cont uuid': %s" rc, log)
    else
      let log := log ++ [In_rank_list_parse (svcl o)] in
      if negb (daos_rank_list_parse (svcl o))
      then inl (In_aborts "Failed to allocate svcl", log)
      else
        let '(rc, poh) := daos_pool_connect in
        let log := log ++ [In_pool_connect] in
        if reported rc then inl (In_exits "Failed to connect to pool" rc, log)
        else
          let '(rc, coh, l) := open_container poh in
          let log := log ++ l in
          if reported rc
          then inl (In_exits "Failed to create container" rc, log)
          else inr (poh, coh, log).

(** The literal that line 302 hands to ERR ends in a newline. *)
Definition msg_options : string :=
  String.append "Invalid pool or container options"
                (String (ascii_of_nat 10) EmptyString).

(** Lines 297-355, rank by rank.  The globals [poh] and [coh] start
    out zero on the ranks that do not connect. *)
Definition init_stage_of (rank : nat) : init_stage :=
  match pool o, svcl o, cont o with
  | Some _, Some _, Some _ =>
      let rc := daos_init rank in
      let log := [In_daos_init] in
      if reported rc then Ends (In_exits "Failed to initialize daos" rc) log
      else
        match (if (rank =? 0)%nat then init_root log
               else inr (0, 0, log)) with
        | inl (e, log) => Ends e log
        | inr (poh, coh, log) =>
            HandleDistribute rank poh poh POOL_HANDLE log (fun poh log =>
            HandleDistribute rank coh poh CONT_HANDLE log (fun coh log =>
              let rc := dfs_mount rank poh coh O_RDWR in
              let log := log ++ [In_mount poh coh] in
              if reported rc
              then Ends (In_exits "Failed to mount DFS namespace" rc) log
              else Ends (In_returns poh coh) log))
        end
  | _, _, _ => Ends (In_aborts msg_options) []
  end.

(** Four broadcasts are made at most. *)
Definition init_run (N rank : nat) : run_end init_end * list init_call :=
  run_ranks 4 N init_stage_of rank.

(** ERR ends the whole job: its MPI_Abort on MPI_COMM_WORLD takes
    down the ranks that wait in a broadcast. *)
Definition calls_abort (r : run_end init_end) : bool :=
  match r with Ended (In_aborts _) => true | _ => false end.

(** The call on rank [rank] of [N].  For a rank that is taken down
    the log lists the calls up to the broadcast it would wait in; the
    abort may reach it earlier. *)
Definition DFS_Init (N rank : nat) : run_end init_end * list init_call :=
  let '(e, log) := init_run N rank in
  match e with
  | Waiting =>
      if existsb (fun q => calls_abort (fst (init_run N q))) (seq 0 N)
      then (Killed, log)
      else (Waiting, log)
  | _ => (e, log)
  end.

Lemma DFS_Init_ended N rank e log :
  init_run N rank = (Ended e, log) -> DFS_Init N rank = (Ended e, log).
Proof. intros H. unfold DFS_Init. rewrite H. reflexivity. Qed.

Lemma DFS_Init_log N rank : snd (DFS_Init N rank) = snd (init_run N rank).
Proof.
  unfold DFS_Init. destruct (init_run N rank) as [[e| | |] log];
    try reflexivity.
  destruct (existsb _ _); reflexivity.
Qed.

(** The logs of HandleDistribute grow at the end only: what holds of
    the log it is handed, and of every log with something added,
    holds wherever the rank may stand. *)
Lemma HandleDistribute_logs (P : list init_call -> Prop) rank h poh type
      log k :
  (forall l l', P l -> P (l ++ l')) ->
  P log ->
  (forall h' log', P log' -> all_logs P (k h' log')) ->
  all_logs P (HandleDistribute rank h poh type log k).
Proof.
  intros Happ Hlog Hk. unfold HandleDistribute.
  destruct type; [| |exact Hlog];
    (destruct (rank =? 0)%nat;
     [ destruct (local2global _ h _) as [rc g];
       destruct (reported rc);
       [ cbn [all_logs]; auto 10
       | cbn [all_logs]; split; [auto 10|];
         intros w; destruct (malloc rank (wire_len w)) as [fresh|];
         [ destruct (local2global _ h _) as [rc2 g2];
           destruct (reported rc2);
           [ cbn [all_logs]; auto 10
           | cbn [all_logs]; split; [auto 10|];
             intros w2; apply Hk; auto 10 ]
         | cbn [all_logs]; auto 10 ] ]
     | change (reported 0) with false; cbv iota; cbn [all_logs];
       split; [auto 10|];
       intros w; destruct (malloc rank (wire_len w)) as [fresh|];
       [ change (reported 0) with false; cbv iota; cbn [all_logs];
         split; [auto 10|];
         intros w2;
         match goal with
         | |- context [daos_pool_global2local ?a ?b] =>
             destruct (daos_pool_global2local a b) as [rc3 h3]
         | |- context [daos_cont_global2local ?a ?b ?c] =>
             destruct (daos_cont_global2local a b c) as [rc3 h3]
         end;
         destruct (reported rc3);
         [ cbn [all_logs]; auto 10 | apply Hk; auto 10 ]
       | cbn [all_logs]; auto 10 ] ]).
Qed.

(** With the three options set, every log of every rank starts with
    the start of the client. *)
Lemma init_stage_starts rank :
  pool o <> None -> svcl o <> None -> cont o <> None ->
  all_logs (fun log => exists rest, log = In_daos_init :: rest)
           (init_stage_of rank).
Proof.
  intros Hp Hs Hc. unfold init_stage_of.
  destruct (pool o); [|congruence]. destruct (svcl o); [|congruence].
  destruct (cont o); [|congruence].
  set (P := fun log : list init_call => exists rest, log = In_daos_init :: rest).
  assert (Happ : forall l l', P l -> P (l ++ l')).
  { intros l l' [rest ->]. exists (rest ++ l'). reflexivity. }
  assert (H0 : P [In_daos_init]) by (exists []; reflexivity).
  destruct (reported (daos_init rank)); [exact H0|].
  assert (Hrest : forall poh coh log, P log ->
            all_logs P
              (HandleDistribute rank poh poh POOL_HANDLE log (fun poh log =>
               HandleDistribute rank coh poh CONT_HANDLE log (fun coh log =>
                 let rc := dfs_mount rank poh coh O_RDWR in
                 let log := log ++ [In_mount poh coh] in
                 if reported rc
                 then Ends (In_exits "Failed to mount DFS namespace" rc) log
                 else Ends (In_returns poh coh) log)))).
  { intros poh coh log Hlog.
    apply HandleDistribute_logs; [exact Happ|exact Hlog|]. intros h1 l1 Hl1.
    apply HandleDistribute_logs; [exact Happ|exact Hl1|]. intros h2 l2 Hl2.
    cbv zeta. destruct (reported _); cbn [all_logs]; auto. }
  destruct (rank =? 0)%nat; [|apply Hrest; exact H0].
  unfold init_root.
  destruct (reported (uuid_parse _)); [cbn [all_logs]; auto|].
  destruct (reported (uuid_parse _)); [cbn [all_logs]; auto 10|].
  destruct (negb _); [cbn [all_logs]; auto 10|].
  destruct daos_pool_connect as [rc poh].
  destruct (reported rc); [cbn [all_logs]; auto 10|].
  destruct (open_container poh) as [[rc2 coh] l].
  destruct (reported rc2); [cbn [all_logs]; auto 10|].
  apply Hrest. auto 10.
Qed.

(** *** Who calls what *)

(** X19.  The options check stands before everything else, and it
    is the only thing that does.  With the pool, the service list or
    the container option missing, DFS_Init ends on every rank through
    ERR, with the message of line 302, having made no call and entered
    no broadcast.  With the three set (the group need not be), every
    rank starts the DAOS client first, however its run goes on. *)
Theorem init_rejects_missing_options N rank :
  (pool o = None \/ svcl o = None \/ cont o = None ->
   DFS_Init N rank = (Ended (In_aborts msg_options), [])) /\
  (pool o <> None -> svcl o <> None -> cont o <> None ->
   exists rest, snd (DFS_Init N rank) = In_daos_init :: rest) /\
  (snd (DFS_Init N rank) = [] <->
   pool o = None \/ svcl o = None \/ cont o = None).
Proof.
  assert (Missing : pool o = None \/ svcl o = None \/ cont o = None ->
            DFS_Init N rank = (Ended (In_aborts msg_options), [])).
  { intros H. apply DFS_Init_ended. unfold init_run. cbn [run_ranks].
    unfold init_stage_of.
    destruct (pool o), (svcl o), (cont o); try reflexivity.
    destruct H as [H|[H|H]]; discriminate. }
  assert (Set3 : pool o <> None -> svcl o <> None -> cont o <> None ->
            exists rest, snd (DFS_Init N rank) = In_daos_init :: rest).
  { intros Hp Hs Hc. rewrite DFS_Init_log. unfold init_run.
    apply (run_ranks_log
             (fun log => exists rest, log = In_daos_init :: rest)).
    apply init_stage_starts; assumption. }
  split; [exact Missing|]. split; [exact Set3|]. split.
  - intros Hnil.
    destruct (pool o) eqn:Hp; [|auto].
    destruct (svcl o) eqn:Hs; [|auto].
    destruct (cont o) eqn:Hc; [|auto].
    destruct Set3 as [rest Hrest]; try discriminate.
    rewrite Hnil in Hrest. discriminate.
  - intros H. rewrite (Missing H). reflexivity.
Qed.

(** The calls a rank may make: connecting, opening, creating and
    serialising are rank 0's; deserialising is the others'; and a
    create follows a first open that answered -DER_NONEXIST. *)
Definition allowed (rank : nat) (c : init_call) : Prop :=
  match c with
  | In_daos_init | In_bcast_len | In_malloc _ | In_bcast_buf
  | In_mount _ _ => True
  | In_uuid_parse _ | In_rank_list_parse _ | In_pool_connect
  | In_cont_open _ | In_local2global _ _ _ => rank = O
  | In_cont_create p =>
      rank = O /\ p = snd daos_pool_connect /\
      fst (daos_cont_open 0 p) = - DER_NONEXIST
  | In_global2local _ _ => rank <> O
  end.

Lemma Forall_snoc {A : Type} (P : A -> Prop) l a :
  Forall P l -> P a -> Forall P (l ++ [a]).
Proof. intros Hl Ha. apply Forall_app. split; [exact Hl|]. auto. Qed.

Lemma HandleDistribute_allowed rank h poh type log k :
  Forall (allowed rank) log ->
  (forall h' log', Forall (allowed rank) log' ->
     all_logs (Forall (allowed rank)) (k h' log')) ->
  all_logs (Forall (allowed rank))
           (HandleDistribute rank h poh type log k).
Proof.
  intros Hlog Hk. unfold HandleDistribute.
  assert (Hty : type = ARRAY_HANDLE \/ type <> ARRAY_HANDLE)
    by (destruct type; auto; right; discriminate).
  destruct Hty as [->|Hty]; [exact Hlog|].
  destruct (Nat.eqb_spec rank 0) as [Hr|Hr].
  - assert (L2 : forall t x g, allowed rank (In_local2global t x g))
      by (intros; exact Hr).
    destruct type; try congruence;
      (destruct (local2global _ h _) as [rc g];
       destruct (reported rc);
       [ cbn; apply Forall_snoc; auto
       | cbn [all_logs]; split;
         [ repeat apply Forall_snoc; auto; exact I
         | intros w; destruct (malloc rank (wire_len w)) as [fresh|];
           [ destruct (local2global _ h _) as [rc2 g2];
             destruct (reported rc2);
             [ cbn; repeat apply Forall_snoc; auto; exact I
             | cbn [all_logs]; split;
               [ repeat apply Forall_snoc; auto; exact I
               | intros w2; apply Hk;
                 repeat apply Forall_snoc; auto; exact I ] ]
           | cbn; repeat apply Forall_snoc; auto; exact I ] ] ]).
  - assert (G2 : forall t g, allowed rank (In_global2local t g))
      by (intros; exact Hr).
    destruct type; try congruence;
      (change (reported 0) with false; cbv iota; cbn [all_logs]; split;
       [ repeat apply Forall_snoc; auto; exact I
       | intros w; destruct (malloc rank (wire_len w)) as [fresh|];
         [ change (reported 0) with false; cbv iota; cbn [all_logs]; split;
           [ repeat apply Forall_snoc; auto; exact I
           | intros w2;
             match goal with
             | |- context [daos_pool_global2local ?a ?b] =>
                 destruct (daos_pool_global2local a b) as [rc3 h3]
             | |- context [daos_cont_global2local ?a ?b ?c] =>
                 destruct (daos_cont_global2local a b c) as [rc3 h3]
             end;
             destruct (reported rc3);
             [ cbn; repeat apply Forall_snoc; auto; exact I
             | apply Hk; repeat apply Forall_snoc; auto; exact I ] ]
         | cbn; repeat apply Forall_snoc; auto; exact I ] ]).
Qed.

Lemma open_container_allowed :
  Forall (allowed 0) (snd (open_container (snd daos_pool_connect))).
Proof.
  unfold open_container.
  destruct (daos_cont_open 0 (snd daos_pool_connect)) as [rc coh] eqn:E.
  destruct (Z.eqb_spec rc (- DER_NONEXIST)) as [Hrc|Hrc].
  - assert (C : allowed 0 (In_cont_create (snd daos_pool_connect))).
    { cbn. rewrite E. auto. }
    destruct (daos_cont_create _ =? 0).
    + destruct (daos_cont_open 1 _) as [rc2 coh2]. cbn [snd].
      repeat apply Forall_snoc; auto; repeat constructor; auto.
    + cbn [snd]. repeat apply Forall_snoc; auto; repeat constructor; auto.
  - cbn [snd]. repeat constructor.
Qed.

Lemma init_root_allowed log :
  Forall (allowed 0) log ->
  match init_root log with
  | inl (_, l) => Forall (allowed 0) l
  | inr (poh, _, l) => Forall (allowed 0) l
  end.
Proof.
  intros Hlog. unfold init_root.
  destruct (reported (uuid_parse (pool o)));
    [repeat apply Forall_snoc; auto; reflexivity|].
  destruct (reported (uuid_parse (cont o)));
    [repeat apply Forall_snoc; auto; reflexivity|].
  destruct (negb (daos_rank_list_parse (svcl o)));
    [repeat apply Forall_snoc; auto; reflexivity|].
  pose proof open_container_allowed as Hoc.
  destruct daos_pool_connect as [rc poh]. cbn [snd] in Hoc.
  destruct (reported rc); [repeat apply Forall_snoc; auto; reflexivity|].
  destruct (open_container poh) as [[rc2 coh] l]. cbn [snd] in Hoc.
  destruct (reported rc2);
    (apply Forall_app; split; [|exact Hoc]);
    repeat apply Forall_snoc; auto; reflexivity.
Qed.

(** X20.  Division of labour in DFS_Init, on every run: only rank 0
    parses the identifiers, connects to the pool, opens or creates the
    container and serialises a handle; only the other ranks
    deserialise one; and the container is created only behind a first
    open, on the connected pool, that answered -DER_NONEXIST. *)
Theorem init_division_of_labour N rank :
  Forall (allowed rank) (snd (DFS_Init N rank)).
Proof.
  rewrite DFS_Init_log. unfold init_run.
  apply run_ranks_log. unfold init_stage_of.
  destruct (pool o), (svcl o), (cont o); try (cbn; constructor).
  assert (H0 : Forall (allowed rank) [In_daos_init])
    by (repeat constructor).
  destruct (reported (daos_init rank)); [exact H0|].
  assert (Hrest : forall poh coh log, Forall (allowed rank) log ->
            all_logs (Forall (allowed rank))
              (HandleDistribute rank poh poh POOL_HANDLE log (fun poh log =>
               HandleDistribute rank coh poh CONT_HANDLE log (fun coh log =>
                 let rc := dfs_mount rank poh coh O_RDWR in
                 let log := log ++ [In_mount poh coh] in
                 if reported rc
                 then Ends (In_exits "Failed to mount DFS namespace" rc) log
                 else Ends (In_returns poh coh) log)))).
  { intros poh coh log Hlog.
    apply HandleDistribute_allowed; [exact Hlog|]. intros h1 l1 Hl1.
    apply HandleDistribute_allowed; [exact Hl1|]. intros h2 l2 Hl2.
    cbv zeta. destruct (reported _); cbn; apply Forall_snoc; auto; exact I. }
  destruct (Nat.eqb_spec rank 0) as [->|Hr].
  - pose proof (init_root_allowed [In_daos_init] H0) as Hroot.
    destruct (init_root [In_daos_init]) as [[e l]|[[poh coh] l]].
    + exact Hroot.
    + apply Hrest. exact Hroot.
  - apply Hrest. exact H0.
Qed.

(** *** The two-phase broadcast *)

(** The iov of the size query, and of the calls on a buffer of
    [len] bytes. *)
Definition query : d_iov_t :=
  {| iov_buf := None; iov_buf_len := 0; iov_len := 0 |}.

Definition buffer (len : Z) (bytes : list Z) : d_iov_t :=
  {| iov_buf := Some bytes; iov_buf_len := len; iov_len := len |}.

(** The length rank 0 announces for its handle [h]; the bytes it
    sends after filling the buffer [fresh]; and the iov another rank
    deserialises. *)
Definition announced (type : handleType) (h : daos_handle_t) : Z :=
  iov_buf_len (snd (local2global type h query)).

Definition sent (type : handleType) (h : daos_handle_t) (fresh : list Z)
  : list Z :=
  let g := snd (local2global type h (buffer (announced type h) fresh)) in
  firstn (Z.to_nat (iov_buf_len g))
         match iov_buf g with Some b => b | None => [] end.

Definition received (type : handleType) (h : daos_handle_t)
           (fresh : list Z) : d_iov_t :=
  buffer (announced type h)
         (firstn (Z.to_nat (announced type h)) (sent type h fresh)).

Definition global2local (type : handleType) (rank : nat)
           (poh : daos_handle_t) (global : d_iov_t) : Z * daos_handle_t :=
  match type with
  | POOL_HANDLE => daos_pool_global2local rank global
  | _ => daos_cont_global2local rank poh global
  end.

(** The log of a rank at the end of a distribution that went well. *)
Definition distributed_log (type : handleType) (rank : nat)
           (h0 : daos_handle_t) (fresh0 : list Z) (log : list init_call)
  : list init_call :=
  if (rank =? 0)%nat then
    ((((log ++ [In_local2global type h0 query]) ++ [In_bcast_len])
        ++ [In_malloc (announced type h0)])
       ++ [In_local2global type h0 (buffer (announced type h0) fresh0)])
      ++ [In_bcast_buf]
  else
    (((log ++ [In_bcast_len]) ++ [In_malloc (announced type h0)])
       ++ [In_bcast_buf])
      ++ [In_global2local type (received type h0 fresh0)].

(** The function behind its assertion. *)
Definition distribute (rank : nat) (h poh : daos_handle_t)
           (type : handleType) (log : list init_call)
           (k : daos_handle_t -> list init_call -> init_stage)
  : init_stage :=
  let '(rc, global, log) :=
    if (rank =? 0)%nat then
      let '(rc, g) := local2global type h query in
      (rc, g, log ++ [In_local2global type h query])
    else (0, query, log) in
  if reported rc
  then Ends (In_exits "Failed to get global handle size" rc) log
  else
    Enters (Wire_len (iov_buf_len global)) (log ++ [In_bcast_len])
      (fun w =>
         let log := log ++ [In_bcast_len] in
         let len := wire_len w in
         let log := log ++ [In_malloc len] in
         match malloc rank len with
         | None =>
             Ends (In_aborts "Failed to allocate global handle buffer") log
         | Some fresh =>
             let '(rc, global', log) :=
               if (rank =? 0)%nat then
                 let '(rc, g) := local2global type h (buffer len fresh) in
                 (rc, g, log ++ [In_local2global type h (buffer len fresh)])
               else (0, buffer len fresh, log) in
             if reported rc
             then Ends (In_exits "Failed to create global handle" rc) log
             else
               let sent :=
                 firstn (Z.to_nat (iov_buf_len global'))
                        match iov_buf global' with
                        | Some b => b
                        | None => []
                        end in
               Enters (Wire_buf sent) (log ++ [In_bcast_buf])
                 (fun w =>
                    let log := log ++ [In_bcast_buf] in
                    if (rank =? 0)%nat then k h log
                    else
                      let global :=
                        buffer len (firstn (Z.to_nat len) (wire_buf w)) in
                      let '(rc, h') := global2local type rank poh global in
                      let log := log ++ [In_global2local type global] in
                      if reported rc
                      then Ends (In_exits "Failed to get local handle" rc) log
                      else k h' log)
         end).

Lemma HandleDistribute_typed rank h poh type log k :
  type <> ARRAY_HANDLE ->
  HandleDistribute rank h poh type log k = distribute rank h poh type log k.
Proof. destruct type; [reflexivity|reflexivity|congruence]. Qed.

Section Distribution.

(** Rank 0 holds [h0]; both of its serialising calls pass, every
    rank gets its buffer, and every other rank's deserialising call
    passes. *)
Variables (N : nat) (type : handleType) (h0 : daos_handle_t).
Variable fresh0 : list Z.
Variable h p : nat -> daos_handle_t.
Variable log : nat -> list init_call.
Variable k : nat -> daos_handle_t -> list init_call -> init_stage.

Hypothesis some_rank : (0 < N)%nat.
Hypothesis typed : type <> ARRAY_HANDLE.
Hypothesis root_handle : h O = h0.
Hypothesis sized : 0 <= fst (local2global type h0 query).
Hypothesis allocated : forall q, (q < N)%nat ->
  malloc q (announced type h0) <> None.
Hypothesis allocated0 : malloc 0 (announced type h0) = Some fresh0.
Hypothesis filled :
  0 <= fst (local2global type h0 (buffer (announced type h0) fresh0)).
Hypothesis rebuilt : forall q, (0 < q < N)%nat ->
  0 <= fst (global2local type q (p q) (received type h0 fresh0)).

Definition handle_after (q : nat) : daos_handle_t :=
  if (q =? 0)%nat then h0
  else snd (global2local type q (p q) (received type h0 fresh0)).

Let st (q : nat) : init_stage :=
  HandleDistribute q (h q) (p q) type (log q) (k q).

Let st1 (q : nat) : init_stage := resume (Wire_len (announced type h0)) (st q).

Lemma sized_not_reported :
  reported (fst (local2global type h0 query)) = false.
Proof. unfold reported. lia. Qed.

Lemma filled_not_reported :
  reported (fst (local2global type h0 (buffer (announced type h0) fresh0)))
  = false.
Proof. unfold reported. lia. Qed.

Lemma stage_first q :
  (q < N)%nat ->
  entered (st q) = true /\
  (q = O -> exists l1 k1, st q = Enters (Wire_len (announced type h0)) l1 k1).
Proof.
  intros Hq. subst st. cbv beta. rewrite HandleDistribute_typed by exact typed.
  unfold distribute. destruct (Nat.eqb_spec q 0) as [->|Hne].
  - rewrite root_handle. pose proof sized_not_reported as Er.
    unfold announced.
    destruct (local2global type h0 query) as [rc g]. cbn [fst snd] in *.
    rewrite Er. cbn [entered]. split; [reflexivity|]. intros _. eauto.
  - change (reported 0) with false. cbv iota. cbn [entered].
    split; [reflexivity|]. intros; congruence.
Qed.

Lemma stage_second q :
  (q < N)%nat ->
  entered (st1 q) = true /\
  (q = O -> exists l2 k2, st1 q = Enters (Wire_buf (sent type h0 fresh0)) l2 k2).
Proof.
  intros Hq. subst st1 st. cbv beta.
  rewrite HandleDistribute_typed by exact typed. unfold distribute.
  pose proof (allocated q Hq) as Hm.
  destruct (Nat.eqb_spec q 0) as [->|Hne].
  - rewrite root_handle. pose proof sized_not_reported as Er.
    pose proof filled_not_reported as Er2. unfold sent.
    destruct (local2global type h0 query) as [rc g] eqn:E.
    cbn [fst] in Er. rewrite Er. cbn [resume wire_len].
    rewrite allocated0.
    destruct (local2global type h0 (buffer (announced type h0) fresh0))
      as [rc2 g2].
    cbn [fst snd] in *. rewrite Er2. cbn [entered].
    split; [reflexivity|]. intros _. eauto.
  - change (reported 0) with false. cbv iota. cbn [resume wire_len].
    destruct (malloc q (announced type h0)); [|congruence].
    change (reported 0) with false. cbv iota. cbn [entered].
    split; [reflexivity|]. intros; congruence.
Qed.

Lemma stage_third q :
  (q < N)%nat ->
  resume (Wire_buf (sent type h0 fresh0)) (st1 q)
  = k q (handle_after q) (distributed_log type q h0 fresh0 (log q)).
Proof.
  intros Hq. subst st1 st. cbv beta.
  rewrite HandleDistribute_typed by exact typed.
  unfold distribute, handle_after, distributed_log.
  pose proof (allocated q Hq) as Hm.
  destruct (Nat.eqb_spec q 0) as [->|Hne].
  - rewrite root_handle. pose proof sized_not_reported as Er.
    pose proof filled_not_reported as Er2.
    destruct (local2global type h0 query) as [rc g] eqn:E.
    cbn [fst] in Er. rewrite Er. cbn [resume wire_len].
    rewrite allocated0.
    destruct (local2global type h0 (buffer (announced type h0) fresh0))
      as [rc2 g2].
    cbn [fst snd] in *. rewrite Er2. reflexivity.
  - pose proof (rebuilt q (conj (proj1 (Nat.neq_0_lt_0 q) Hne) Hq)) as Hg.
    change (reported 0) with false. cbv iota. cbn [resume wire_len].
    destruct (malloc q (announced type h0)); [|congruence].
    change (reported 0) with false. cbv iota. cbn [resume wire_buf].
    fold (received type h0 fresh0).
    destruct (global2local type q (p q) (received type h0 fresh0))
      as [rc3 h3].
    cbn [fst snd] in *.
    assert (Er3 : reported rc3 = false) by (unfold reported; lia).
    rewrite Er3. reflexivity.
Qed.

(** The two broadcasts of one distribution, run by all ranks. *)
Lemma run_HandleDistribute fuel rank :
  (rank < N)%nat ->
  run_ranks (S (S fuel)) N st rank
  = run_ranks fuel N
      (fun q => k q (handle_after q)
                  (distributed_log type q h0 fresh0 (log q))) rank.
Proof.
  intros Hr.
  destruct (stage_first O some_rank) as [_ H0].
  destruct (H0 eq_refl) as (l1 & k1 & E1).
  rewrite (run_ranks_step (S fuel) N st rank _ l1 k1 Hr
             (fun q Hq => proj1 (stage_first q Hq)) E1).
  fold st1.
  destruct (stage_second O some_rank) as [_ H1].
  destruct (H1 eq_refl) as (l2 & k2 & E2).
  rewrite (run_ranks_step fuel N st1 rank _ l2 k2 Hr
             (fun q Hq => proj1 (stage_second q Hq)) E2).
  apply run_ranks_ext; auto. intros q Hq. apply stage_third. exact Hq.
Qed.

End Distribution.

(** A rank other than 0 whose client starts stands in the first
    broadcast. *)
Lemma init_stage_peer rank :
  pool o <> None -> svcl o <> None -> cont o <> None ->
  rank <> O ->
  init_stage_of rank
  = if reported (daos_init rank)
    then Ends (In_exits "Failed to initialize daos" (daos_init rank))
              [In_daos_init]
    else Enters (Wire_len 0) [In_daos_init; In_bcast_len]
           (match init_stage_of rank with
            | Enters _ _ k => k
            | Ends _ _ => fun _ => init_stage_of rank
            end).
Proof.
  intros Hp Hs Hc Hr. unfold init_stage_of.
  destruct (pool o); [|congruence]. destruct (svcl o); [|congruence].
  destruct (cont o); [|congruence].
  destruct (reported (daos_init rank)); [reflexivity|].
  apply Nat.eqb_neq in Hr. rewrite Hr.
  rewrite HandleDistribute_typed by discriminate.
  unfold distribute. rewrite Hr. reflexivity.
Qed.

(** X22.  Rank 0 ends DFS_Init before the first broadcast.  When it
    ended through DCHECK, which exits (an identifier that does not
    parse, a failed connect, open, create or size query), every other
    rank, having started its client, is left waiting in the first
    MPI_Bcast with nothing deserialised or mounted.  When it ended
    through ERR (the service list does not parse), its MPI_Abort takes
    the other ranks down. *)
Theorem init_root_failure_strands N rank e log0 :
  (0 < N)%nat ->
  pool o <> None -> svcl o <> None -> cont o <> None ->
  init_stage_of 0 = Ends e log0 ->
  rank <> O -> 0 <= daos_init rank ->
  DFS_Init N 0 = (Ended e, log0) /\
  (forall msg rc, e = In_exits msg rc ->
     DFS_Init N rank = (Waiting, [In_daos_init; In_bcast_len])) /\
  (forall msg, e = In_aborts msg -> fst (DFS_Init N rank) = Killed).
Proof.
  intros HN Hp Hs Hc H0 Hr Hi.
  assert (R0 : init_run N 0 = (Ended e, log0)).
  { unfold init_run. cbn [run_ranks]. rewrite H0. reflexivity. }
  assert (Peer : forall q, q <> O ->
            init_run N q
            = if reported (daos_init q)
              then (Ended (In_exits "Failed to initialize daos"
                             (daos_init q)), [In_daos_init])
              else (Waiting, [In_daos_init; In_bcast_len])).
  { intros q Hq. unfold init_run.
    pose proof (init_stage_peer q Hp Hs Hc Hq) as Eq.
    destruct (reported (daos_init q)).
    - cbn [run_ranks]. rewrite Eq. reflexivity.
    - eapply run_ranks_root_left; [exact HN|exact H0|exact Eq]. }
  assert (Rr : init_run N rank = (Waiting, [In_daos_init; In_bcast_len])).
  { rewrite (Peer rank Hr).
    assert (Er : reported (daos_init rank) = false)
      by (unfold reported; lia).
    rewrite Er. reflexivity. }
  split; [apply DFS_Init_ended; exact R0|].
  split.
  - intros msg rc ->. unfold DFS_Init. rewrite Rr.
    assert (Quiet : existsb (fun q => calls_abort (fst (init_run N q)))
                      (seq 0 N) = false).
    { destruct (existsb _ _) eqn:Ex; [|reflexivity].
      apply existsb_exists in Ex as (q & _ & Hq).
      destruct q as [|q].
      - rewrite R0 in Hq. discriminate.
      - rewrite (Peer (S q)) in Hq by discriminate.
        destruct (reported _); discriminate. }
    rewrite Quiet. reflexivity.
  - intros msg ->. unfold DFS_Init. rewrite Rr.
    assert (Loud : existsb (fun q => calls_abort (fst (init_run N q)))
                     (seq 0 N) = true).
    { apply existsb_exists. exists O. split; [apply in_seq; lia|].
      rewrite R0. reflexivity. }
    rewrite Loud. reflexivity.
Qed.

(** *** A session on every rank *)

Section Established.

(** The options are set; the client starts on every rank; rank 0
    connects and holds [poh0] and [coh0]; both distributions go well
    (with [freshP] and [freshC] the buffers malloc hands rank 0); and
    every rank mounts. *)
Variables (N : nat) (poh0 coh0 : daos_handle_t) (log0 : list init_call).
Variables (freshP freshC : list Z).

Definition poh_of (q : nat) : daos_handle_t :=
  if (q =? 0)%nat then poh0
  else snd (daos_pool_global2local q (received POOL_HANDLE poh0 freshP)).

Definition coh_of (q : nat) : daos_handle_t :=
  if (q =? 0)%nat then coh0
  else snd (daos_cont_global2local q (poh_of q)
              (received CONT_HANDLE coh0 freshC)).

Definition established_log (q : nat) : list init_call :=
  distributed_log CONT_HANDLE q coh0 freshC
    (distributed_log POOL_HANDLE q poh0 freshP
       (if (q =? 0)%nat then log0 else [In_daos_init]))
  ++ [In_mount (poh_of q) (coh_of q)].

Hypothesis some_rank : (0 < N)%nat.
Hypothesis configured : pool o <> None /\ svcl o <> None /\ cont o <> None.
Hypothesis initialised : forall q, (q < N)%nat -> 0 <= daos_init q.
Hypothesis connected : init_root [In_daos_init] = inr (poh0, coh0, log0).
Hypothesis sizedP : 0 <= fst (local2global POOL_HANDLE poh0 query).
Hypothesis allocatedP : forall q, (q < N)%nat ->
  malloc q (announced POOL_HANDLE poh0) <> None.
Hypothesis allocatedP0 : malloc 0 (announced POOL_HANDLE poh0) = Some freshP.
Hypothesis filledP :
  0 <= fst (local2global POOL_HANDLE poh0
              (buffer (announced POOL_HANDLE poh0) freshP)).
Hypothesis rebuiltP : forall q, (0 < q < N)%nat ->
  0 <= fst (daos_pool_global2local q (received POOL_HANDLE poh0 freshP)).
Hypothesis sizedC : 0 <= fst (local2global CONT_HANDLE coh0 query).
Hypothesis allocatedC : forall q, (q < N)%nat ->
  malloc q (announced CONT_HANDLE coh0) <> None.
Hypothesis allocatedC0 : malloc 0 (announced CONT_HANDLE coh0) = Some freshC.
Hypothesis filledC :
  0 <= fst (local2global CONT_HANDLE coh0
              (buffer (announced CONT_HANDLE coh0) freshC)).
Hypothesis rebuiltC : forall q, (0 < q < N)%nat ->
  0 <= fst (daos_cont_global2local q (poh_of q)
              (received CONT_HANDLE coh0 freshC)).
Hypothesis mounted : forall q, (q < N)%nat ->
  0 <= dfs_mount q (poh_of q) (coh_of q) O_RDWR.

Let mount_stage (q : nat) (poh coh : daos_handle_t)
    (log : list init_call) : init_stage :=
  if reported (dfs_mount q poh coh O_RDWR)
  then Ends (In_exits "Failed to mount DFS namespace"
                      (dfs_mount q poh coh O_RDWR))
            (log ++ [In_mount poh coh])
  else Ends (In_returns poh coh) (log ++ [In_mount poh coh]).

Lemma init_stage_established q :
  (q < N)%nat ->
  init_stage_of q
  = HandleDistribute q (if (q =? 0)%nat then poh0 else 0)
      (if (q =? 0)%nat then poh0 else 0) POOL_HANDLE
      (if (q =? 0)%nat then log0 else [In_daos_init])
      (fun poh log =>
         HandleDistribute q (if (q =? 0)%nat then coh0 else 0) poh
           CONT_HANDLE log (mount_stage q poh)).
Proof.
  intros Hq. unfold init_stage_of.
  destruct configured as (Hp & Hs & Hc).
  destruct (pool o); [|congruence]. destruct (svcl o); [|congruence].
  destruct (cont o); [|congruence].
  assert (Er : reported (daos_init q) = false)
    by (unfold reported; specialize (initialised q Hq); lia).
  rewrite Er. destruct (q =? 0)%nat.
  - rewrite connected. reflexivity.
  - reflexivity.
Qed.

(** X21.  The handle distribution protocol, when nothing fails:
    every rank returns from DFS_Init with the file system mounted.
    Rank 0 keeps the handles it connected with; every other rank holds
    the pool handle that daos_pool_global2local makes of the bytes
    rank 0 serialised, cut to the announced length, and the container
    handle that daos_cont_global2local makes, under that pool handle,
    of the container bytes.  Its log shows the order: length
    broadcast, allocation, payload broadcast, deserialisation, for the
    pool and then for the container, and the mount last. *)
Theorem init_establishes_session rank :
  (rank < N)%nat ->
  DFS_Init N rank
  = (Ended (In_returns (poh_of rank) (coh_of rank)), established_log rank).
Proof.
  intros Hr. apply DFS_Init_ended. unfold init_run.
  rewrite (run_ranks_ext 4 N _ _ rank some_rank Hr init_stage_established).
  etransitivity.
  { exact (run_HandleDistribute N POOL_HANDLE poh0 freshP
             (fun q => if (q =? 0)%nat then poh0 else 0)
             (fun q => if (q =? 0)%nat then poh0 else 0)
             (fun q => if (q =? 0)%nat then log0 else [In_daos_init])
             (fun q poh log =>
                HandleDistribute q (if (q =? 0)%nat then coh0 else 0) poh
                  CONT_HANDLE log (mount_stage q poh))
             some_rank ltac:(discriminate) eq_refl sizedP allocatedP
             allocatedP0 filledP rebuiltP 2 rank Hr). }
  etransitivity.
  { exact (run_HandleDistribute N CONT_HANDLE coh0 freshC
             (fun q => if (q =? 0)%nat then coh0 else 0)
             poh_of
             (fun q => distributed_log POOL_HANDLE q poh0 freshP
                         (if (q =? 0)%nat then log0 else [In_daos_init]))
             (fun q coh log => mount_stage q (poh_of q) coh log)
             some_rank ltac:(discriminate) eq_refl sizedC allocatedC
             allocatedC0 filledC rebuiltC 0 rank Hr). }
  cbn [run_ranks]. subst mount_stage. cbv beta.
  change (handle_after CONT_HANDLE coh0 freshC poh_of rank)
    with (coh_of rank).
  assert (Er : reported (dfs_mount rank (poh_of rank) (coh_of rank) O_RDWR)
               = false)
    by (unfold reported; specialize (mounted rank Hr); lia).
  rewrite Er. reflexivity.
Qed.

End Established.

End Init.

(** *** A small engine for DFS_Init

    The pool answers with handle 11.  The container does not exist
    at first ([missing]) or does; once it is there it opens with
    handle 22.  A serialised handle takes two bytes, the handle and a
    7.  A rank rebuilds a handle as its own number times 1000 plus
    the first byte. *)
Module Session.

Definition options : dfs_options :=
  {| pool := Some "pool-uuid"%string; svcl := Some "0"%string;
     group := None; cont := Some "cont-uuid"%string; destroy := 0 |}.

Definition cont_open (missing : bool) (n : nat) (poh : daos_handle_t)
  : Z * daos_handle_t :=
  if missing && (n =? 0)%nat then (-1005, 0) else (0, 22).

Definition local2global (type : handleType) (h : daos_handle_t)
           (g : d_iov_t) : Z * d_iov_t :=
  match iov_buf g with
  | None => (0, {| iov_buf := None; iov_buf_len := 2; iov_len := 0 |})
  | Some _ => (0, {| iov_buf := Some [h; 7]; iov_buf_len := iov_buf_len g;
                     iov_len := 2 |})
  end.

Definition malloc (r : nat) (n : Z) : option (list Z) :=
  if 0 <? n then Some (repeat 0 (Z.to_nat n)) else None.

Definition rebuild (r : nat) (g : d_iov_t) : Z * daos_handle_t :=
  (0, 1000 * Z.of_nat r
      + hd 0 match iov_buf g with Some b => b | None => [] end).

Definition init (connect_rc : Z) (missing : bool) (N rank : nat) :=
  DFS_Init options 1005 (fun _ => 0) (fun _ => 0) (fun _ => true)
    (connect_rc, 11) (cont_open missing) (fun _ => 0) local2global malloc
    rebuild (fun r _ g => rebuild r g) (fun _ _ _ _ => 0) N rank.

Example init_rank0_creates :
  init 0 true 3 0
  = (Ended (In_returns 11 22),
     [In_daos_init; In_uuid_parse (Some "pool-uuid"%string);
      In_uuid_parse (Some "cont-uuid"%string);
      In_rank_list_parse (Some "0"%string); In_pool_connect;
      In_cont_open 11; In_cont_create 11; In_cont_open 11;
      In_local2global POOL_HANDLE 11
        {| iov_buf := None; iov_buf_len := 0; iov_len := 0 |};
      In_bcast_len; In_malloc 2;
      In_local2global POOL_HANDLE 11
        {| iov_buf := Some [0; 0]; iov_buf_len := 2; iov_len := 2 |};
      In_bcast_buf;
      In_local2global CONT_HANDLE 22
        {| iov_buf := None; iov_buf_len := 0; iov_len := 0 |};
      In_bcast_len; In_malloc 2;
      In_local2global CONT_HANDLE 22
        {| iov_buf := Some [0; 0]; iov_buf_len := 2; iov_len := 2 |};
      In_bcast_buf; In_mount 11 22]).
Proof. vm_compute. reflexivity. Qed.

Example init_rank2_rebuilds :
  init 0 false 3 2
  = (Ended (In_returns 2011 2022),
     [In_daos_init; In_bcast_len; In_malloc 2; In_bcast_buf;
      In_global2local POOL_HANDLE
        {| iov_buf := Some [11; 7]; iov_buf_len := 2; iov_len := 2 |};
      In_bcast_len; In_malloc 2; In_bcast_buf;
      In_global2local CONT_HANDLE
        {| iov_buf := Some [22; 7]; iov_buf_len := 2; iov_len := 2 |};
      In_mount 2011 2022]).
Proof. vm_compute. reflexivity. Qed.

End Session.

(** The service list is not given. *)
Definition no_svcl : dfs_options :=
  {| pool := Some "pool-uuid"%string; svcl := None; group := None;
     cont := Some "cont-uuid"%string; destroy := 0 |}.

Lemma init_rejects_missing_options_witness :
  DFS_Init no_svcl 1005 (fun _ => 0) (fun _ => 0) (fun _ => true) (0, 11)
    (Session.cont_open false) (fun _ => 0) Session.local2global
    Session.malloc Session.rebuild (fun r _ g => Session.rebuild r g)
    (fun _ _ _ _ => 0) 3 1
  = (Ended (In_aborts msg_options), []) /\
  exists rest, snd (Session.init 0 false 3 1) = In_daos_init :: rest.
Proof.
  split.
  - apply (init_rejects_missing_options no_svcl 1005 (fun _ => 0)
             (fun _ => 0) (fun _ => true) (0, 11)
             (Session.cont_open false) (fun _ => 0) Session.local2global
             Session.malloc Session.rebuild
             (fun r _ g => Session.rebuild r g) (fun _ _ _ _ => 0) 3 1).
    right. left. reflexivity.
  - apply (init_rejects_missing_options Session.options 1005 (fun _ => 0)
             (fun _ => 0) (fun _ => true) (0, 11)
             (Session.cont_open false) (fun _ => 0) Session.local2global
             Session.malloc Session.rebuild
             (fun r _ g => Session.rebuild r g) (fun _ _ _ _ => 0) 3 1);
      discriminate.
Defined.

(** The session engine with a service list that does not parse. *)
Definition init_bad_svcl (N rank : nat) :=
  DFS_Init Session.options 1005 (fun _ => 0) (fun _ => 0) (fun _ => false)
    (0, 11) (Session.cont_open false) (fun _ => 0) Session.local2global
    Session.malloc Session.rebuild (fun r _ g => Session.rebuild r g)
    (fun _ _ _ _ => 0) N rank.

(** The connect fails on rank 0: rank 2 is left waiting.  The service
    list does not parse on rank 0: rank 2 is taken down. *)
Lemma init_root_failure_strands_witness :
  (Session.init (-1006) false 3 0
   = (Ended (In_exits "Failed to connect to pool" (-1006)),
      [In_daos_init; In_uuid_parse (Some "pool-uuid"%string);
       In_uuid_parse (Some "cont-uuid"%string);
       In_rank_list_parse (Some "0"%string); In_pool_connect]) /\
   Session.init (-1006) false 3 2
   = (Waiting, [In_daos_init; In_bcast_len])) /\
  (init_bad_svcl 3 0
   = (Ended (In_aborts "Failed to allocate svcl"),
      [In_daos_init; In_uuid_parse (Some "pool-uuid"%string);
       In_uuid_parse (Some "cont-uuid"%string);
       In_rank_list_parse (Some "0"%string)]) /\
   fst (init_bad_svcl 3 2) = Killed).
Proof.
  split.
  - destruct (init_root_failure_strands Session.options 1005 (fun _ => 0)
                (fun _ => 0) (fun _ => true) (-1006, 11)
                (Session.cont_open false) (fun _ => 0) Session.local2global
                Session.malloc Session.rebuild
                (fun r _ g => Session.rebuild r g) (fun _ _ _ _ => 0) 3 2
                (In_exits "Failed to connect to pool" (-1006))
                [In_daos_init; In_uuid_parse (Some "pool-uuid"%string);
                 In_uuid_parse (Some "cont-uuid"%string);
                 In_rank_list_parse (Some "0"%string); In_pool_connect])
      as (H0 & Hw & _).
    + lia.
    + discriminate.
    + discriminate.
    + discriminate.
    + reflexivity.
    + discriminate.
    + lia.
    + split; [exact H0|]. exact (Hw _ _ eq_refl).
  - destruct (init_root_failure_strands Session.options 1005 (fun _ => 0)
                (fun _ => 0) (fun _ => false) (0, 11)
                (Session.cont_open false) (fun _ => 0) Session.local2global
                Session.malloc Session.rebuild
                (fun r _ g => Session.rebuild r g) (fun _ _ _ _ => 0) 3 2
                (In_aborts "Failed to allocate svcl")
                [In_daos_init; In_uuid_parse (Some "pool-uuid"%string);
                 In_uuid_parse (Some "cont-uuid"%string);
                 In_rank_list_parse (Some "0"%string)])
      as (H0 & _ & Hk).
    + lia.
    + discriminate.
    + discriminate.
    + discriminate.
    + reflexivity.
    + discriminate.
    + lia.
    + split; [exact H0|]. exact (Hk _ eq_refl).
Defined.

Lemma init_establishes_session_witness :
  fst (Session.init 0 false 3 2) = Ended (In_returns 2011 2022) /\
  fst (Session.init 0 false 3 0) = Ended (In_returns 11 22).
Proof.
  assert (H : forall rank, (rank < 3)%nat ->
            Session.init 0 false 3 rank
            = (Ended (In_returns
                        (poh_of Session.local2global Session.rebuild
                                11 [0; 0] rank)
                        (coh_of Session.local2global Session.rebuild
                                (fun r _ g => Session.rebuild r g)
                                11 22 [0; 0] [0; 0] rank)),
               established_log Session.local2global Session.rebuild
                 (fun r _ g => Session.rebuild r g) 11 22
                 [In_daos_init; In_uuid_parse (Some "pool-uuid"%string);
                  In_uuid_parse (Some "cont-uuid"%string);
                  In_rank_list_parse (Some "0"%string); In_pool_connect;
                  In_cont_open 11]
                 [0; 0] [0; 0] rank)).
  { apply (init_establishes_session Session.options 1005 (fun _ => 0)
             (fun _ => 0) (fun _ => true) (0, 11)
             (Session.cont_open false) (fun _ => 0) Session.local2global
             Session.malloc Session.rebuild
             (fun r _ g => Session.rebuild r g) (fun _ _ _ _ => 0) 3 11 22).
    - lia.
    - repeat split; discriminate.
    - intros q _. lia.
    - reflexivity.
    - vm_compute. discriminate.
    - intros q _. vm_compute. discriminate.
    - reflexivity.
    - vm_compute. discriminate.
    - intros q _. unfold Session.rebuild. cbn [fst]. lia.
    - vm_compute. discriminate.
    - intros q _. vm_compute. discriminate.
    - reflexivity.
    - vm_compute. discriminate.
    - intros q _. unfold Session.rebuild. cbn [fst]. lia.
    - intros q _. lia. }
  split.
  - rewrite (H 2%nat) by lia. reflexivity.
  - rewrite (H 0%nat) by lia. reflexivity.
Defined.
